(** * kos IPAM controller and subnet validator: model and properties

    A shallow embedding of the Go sources
    - [pkg/controllers/ipam] (the IPAM controller: [processNetworkAttachment],
      [analyzeAndRelease], [pickAndLockAddress], the address cache, the lock
      event handlers, the lock-name codec and the [ParsedLock] lists), and
    - [pkg/controllers/subnet/validator.go] (the conflicts caches and the
      stale marks of the validator),
    followed by the properties established about them.

    Conventions.  A [uint32] is a [Z] with its wrap-around written out
    ([u32]); a Go [string] is a [string]; a [gonet.IP] is the list of its
    bytes; a [time.Time] is the record of its three fields; a Go map is a
    [gmap]; a pointer that may be [nil] is an [option].
    Logging (glog) and the Prometheus histograms do not influence any result
    and are left out. *)

From Stdlib Require Import ZArith String Ascii List Lia Bool.
From Stdlib Require Import DecimalString DecimalN.
From stdpp Require Import base gmap strings list option.
Import ListNotations.
Local Open Scope Z_scope.

(** ** Machine integers *)

Definition u8 (z : Z) : Z := z mod 2 ^ 8.
Definition u32 (z : Z) : Z := z mod 2 ^ 32.
Definition u64 (z : Z) : Z := z mod 2 ^ 64.

(** ** The Go standard library, as far as the controllers use it *)

Module GoStrings.

(** [strings.Split(s, sep)] for a one-byte separator. *)
Fixpoint Split (sep : ascii) (s : string) : list string :=
  match s with
  | EmptyString => [EmptyString]
  | String c rest =>
      if Ascii.eqb c sep then EmptyString :: Split sep rest
      else match Split sep rest with
           | [] => [String c EmptyString]
           | tok :: toks => String c tok :: toks
           end
  end.

(** [strings.Compare]: bytewise lexicographic order, as -1, 0 or +1. *)
Definition Compare (a b : string) : Z :=
  match String.compare a b with
  | Lt => -1
  | Eq => 0
  | Gt => 1
  end.

Definition lowerAscii (c : ascii) : ascii :=
  let n := nat_of_ascii c in
  if (Nat.leb 65 n && Nat.leb n 90)%bool then ascii_of_nat (n + 32) else c.

(** Every byte of [s] is below [utf8.RuneSelf] (0x80). *)
Fixpoint isASCII (s : string) : bool :=
  match s with
  | EmptyString => true
  | String c rest => Nat.ltb (nat_of_ascii c) 128 && isASCII rest
  end.

(** Some byte of [s] is one of ['A'] to ['Z']. *)
Fixpoint hasUpper (s : string) : bool :=
  match s with
  | EmptyString => false
  | String c rest =>
      (Nat.leb 65 (nat_of_ascii c) && Nat.leb (nat_of_ascii c) 90)
      || hasUpper rest
  end.

(** The loop of [strings.ToLower] over a string of ASCII bytes. *)
Fixpoint lowerBytes (s : string) : string :=
  match s with
  | EmptyString => EmptyString
  | String c rest => String (lowerAscii c) (lowerBytes rest)
  end.

(** What [strings.ToLower] does with a string that holds a byte of 0x80
    or more: [strings.Map(unicode.ToLower, s)], which goes through the
    UTF-8 decoder and the Unicode case tables of the Go release at hand.
    Both are outside the sources, and the tables change from release to
    release: the function is taken as a parameter. *)
Class Unicode := { mapToLower : string -> string }.

(** [strings.ToLower]: a string of ASCII bytes is returned as it is when
    it holds no upper-case letter and lowered byte by byte otherwise; any
    other string goes through [strings.Map]. *)
Definition ToLower `{Unicode} (s : string) : string :=
  if isASCII s then (if hasUpper s then lowerBytes s else s)
  else mapToLower s.

(** [strings.Contains]. *)
Definition Contains (s substr : string) : bool :=
  match String.index 0 substr s with
  | Some _ => true
  | None => false
  end.

End GoStrings.

Module Strconv.

Inductive NumError := ErrSyntax | ErrRange.

(** [strconv.ParseUint(s, 10, bitSize)]: a non-empty string of decimal
    digits (leading zeros allowed, no sign) whose value fits in [bitSize]
    bits. *)
Definition ParseUint (s : string) (bitSize : Z) : Z + NumError :=
  if String.eqb s "" then inr ErrSyntax
  else match NilEmpty.uint_of_string s with
       | None => inr ErrSyntax
       | Some d =>
           let n := Z.of_N (N.of_uint d) in
           if n <? 2 ^ bitSize then inl n else inr ErrRange
       end.

(** The verb [%d] of [fmt.Sprintf] on an unsigned integer. *)
Definition FormatUint (n : Z) : string :=
  NilEmpty.string_of_uint (N.to_uint (Z.to_N n)).

End Strconv.

Module Gonet.

(** [net.IP]: a byte slice; [nil] is the empty list. *)
Definition IP := list Z.

Definition v4InV6Prefix : list Z := [0; 0; 0; 0; 0; 0; 0; 0; 0; 0; 255; 255].

(** [net.IPv4(a, b, c, d)]: the 16-byte form of an IPv4 address. *)
Definition IPv4 (a b c d : Z) : IP := v4InV6Prefix ++ [a; b; c; d].

(** [ip.To4()]: the 4-byte form, or [nil] when [ip] is not an IPv4
    address. *)
Definition To4 (ip : IP) : IP :=
  if Nat.eqb (List.length ip) 4 then ip
  else if (Nat.eqb (List.length ip) 16
           && bool_decide (take 12 ip = v4InV6Prefix))%bool
       then drop 12 ip
       else [].

(** [ip.Equal(x)]. *)
Definition Equal (ip x : IP) : bool :=
  if Nat.eqb (List.length ip) (List.length x) then bool_decide (ip = x)
  else if (Nat.eqb (List.length ip) 4 && Nat.eqb (List.length x) 16)%bool
       then (bool_decide (take 12 x = v4InV6Prefix)
             && bool_decide (ip = drop 12 x))%bool
  else if (Nat.eqb (List.length ip) 16 && Nat.eqb (List.length x) 4)%bool
       then (bool_decide (take 12 ip = v4InV6Prefix)
             && bool_decide (drop 12 ip = x))%bool
  else false.

Definition dotted (a b c d : Z) : string :=
  Strconv.FormatUint a +:+ "." +:+ Strconv.FormatUint b +:+ "."
    +:+ Strconv.FormatUint c +:+ "." +:+ Strconv.FormatUint d.

(** [ip.String()].  Every address the controller prints comes from
    [Uint32ToIPv4]; the textual form of a proper IPv6 address is not
    needed and is rendered as ["?"]. *)
Definition IPString (ip : IP) : string :=
  match ip with
  | [] => "<nil>"
  | _ => match To4 ip with
         | [a; b; c; d] => dotted a b c d
         | _ => "?"
         end
  end.

Definition octet (s : string) : option Z :=
  match Strconv.ParseUint s 8 with
  | inl n => Some n
  | inr _ => None
  end.

(** [parseIPv4]: four dot-separated decimal octets (leading zeros are
    accepted, as by the Go releases the source was written for). *)
Definition parseIPv4 (s : string) : IP :=
  match GoStrings.Split "." s with
  | [p0; p1; p2; p3] =>
      match octet p0, octet p1, octet p2, octet p3 with
      | Some a, Some b, Some c, Some d => IPv4 a b c d
      | _, _, _, _ => []
      end
  | _ => []
  end.

Fixpoint firstDotOrColon (s : string) : option ascii :=
  match s with
  | EmptyString => None
  | String c rest =>
      if (Ascii.eqb c "." || Ascii.eqb c ":")%bool then Some c
      else firstDotOrColon rest
  end.

(** [net.IPMask], restricted to the masks [CIDRMask(ones, bits)] builds:
    the only ones the controller meets. *)
Record IPMask := { ones : Z; bits : Z }.

Record IPNet := { net_IP : IP; net_Mask : IPMask }.

(** Byte number [i] of [CIDRMask(ones, bits)]. *)
Definition maskByte (m : IPMask) (i : nat) : Z :=
  let n := Z.min 8 (Z.max 0 (ones m - 8 * Z.of_nat i)) in
  255 - (2 ^ (8 - n) - 1).

(** [ip.Mask(m)] for a mask of the same family as [ip]. *)
Definition Mask (ip : IP) (m : IPMask) : IP :=
  let ip' := if (bits m =? 32) && Nat.eqb (List.length ip) 16
                && bool_decide (take 12 ip = v4InV6Prefix)
             then drop 12 ip else ip in
  if Z.of_nat (List.length ip') * 8 =? bits m
  then imap (fun i b => Z.land b (maskByte m i)) ip'
  else [].

Fixpoint splitSlash (s : string) : option (string * string) :=
  match s with
  | EmptyString => None
  | String c rest =>
      if Ascii.eqb c "/" then Some (EmptyString, rest)
      else match splitSlash rest with
           | Some (a, m) => Some (String c a, m)
           | None => None
           end
  end.

Section WithIPv6.

(** The IPv6 parser of package [net] is taken as a parameter. *)
Variable parseIPv6 : string -> IP.

(** [net.ParseIP]. *)
Definition ParseIP (s : string) : IP :=
  match firstDotOrColon s with
  | Some c => if Ascii.eqb c "." then parseIPv4 s else parseIPv6 s
  | None => []
  end.

(** [net.ParseCIDR], its [*IPNet] result ([None] stands for the
    parse error). *)
Definition ParseCIDR (s : string) : option IPNet :=
  match splitSlash s with
  | None => None
  | Some (addr, mask) =>
      let v4 := parseIPv4 addr in
      let iplen := if bool_decide (v4 = []) then 16 else 4 in
      let ip := if bool_decide (v4 = []) then parseIPv6 addr else v4 in
      match Strconv.ParseUint mask 24 with
      | inr _ => None
      | inl n =>
          if bool_decide (ip = []) || (8 * iplen <? n) then None
          else let m := {| ones := n; bits := 8 * iplen |} in
               Some {| net_IP := Mask ip m; net_Mask := m |}
      end
  end.

End WithIPv6.

End Gonet.

Module GoTime.

(** [time.Time] is the struct [{wall uint64; ext int64; loc *Location}];
    the operators [==] and [!=] compare its three fields, so they tell
    apart two values that denote the same instant in different
    Locations, or with and without a monotonic clock reading.  A
    [*Location] is kept as the address it holds, [None] for [nil]. *)
Record Time := { wall : Z; ext : Z; loc : option Z }.

#[global] Instance Time_eq_dec : EqDecision Time.
Proof. solve_decision. Defined.

Definition hasMonotonic : Z := 2 ^ 63.
Definition nsecMask : Z := 2 ^ 30 - 1.
Definition nsecShift : Z := 30.
Definition wallToInternal : Z :=
  (1884 * 365 + 1884 / 4 - 1884 / 100 + 1884 / 400) * 86400.

(** The zero value [time.Time{}]. *)
Definition zero : Time := {| wall := 0; ext := 0; loc := None |}.

(** [time.Local], by the address of the Location it points to.  (A time
    in UTC has a [nil] Location.) *)
Definition Local : option Z := Some 1.

(** [t.wall&hasMonotonic != 0]: the value carries a monotonic clock
    reading (in [ext]). *)
Definition monotonic (t : Time) : bool :=
  negb (Z.land (wall t) hasMonotonic =? 0).

(** [t.sec()]: seconds since Jan 1 year 1. *)
Definition sec (t : Time) : Z :=
  if monotonic t
  then wallToInternal + Z.shiftr (u64 (Z.shiftl (wall t) 1)) (nsecShift + 1)
  else ext t.

(** [t.nsec()]. *)
Definition nsec (t : Time) : Z := Z.land (wall t) nsecMask.

(** [t.Before(u)]: on the monotonic readings when both values carry one,
    on the wall clock otherwise. *)
Definition Before (t u : Time) : bool :=
  if negb (Z.land (Z.land (wall t) (wall u)) hasMonotonic =? 0)
  then ext t <? ext u
  else (sec t <? sec u) || ((sec t =? sec u) && (nsec t <? nsec u)).

(** [t.Equal(u)]: the two values denote the same instant. *)
Definition Equal (t u : Time) : bool :=
  if negb (Z.land (Z.land (wall t) (wall u)) hasMonotonic =? 0)
  then ext t =? ext u
  else (sec t =? sec u) && (nsec t =? nsec u).

End GoTime.

(** ** API objects and errors *)

Definition UID := string.

Abbreviation Time := GoTime.Time (only parsing).

Inductive StatusReason :=
| ReasonUnknown
| ReasonNotFound
| ReasonAlreadyExists
| ReasonConflict
| ReasonGone
| ReasonInvalid.

(** A Go [error]: the reason [k8serrors.ReasonForError] finds in it and
    the text of [err.Error()]. *)
Record error := { reason : StatusReason; message : string }.

(** [fmt.Errorf]: an error that is not an API status (messages abridged). *)
Definition Errorf (msg : string) : error :=
  {| reason := ReasonUnknown; message := msg |}.

Definition IsNotFound (e : error) : bool :=
  match reason e with ReasonNotFound => true | _ => false end.
Definition IsAlreadyExists (e : error) : bool :=
  match reason e with ReasonAlreadyExists => true | _ => false end.
Definition IsGone (e : error) : bool :=
  match reason e with ReasonGone => true | _ => false end.
Definition IsInvalid (e : error) : bool :=
  match reason e with ReasonInvalid => true | _ => false end.

Record OwnerReference := {
  oref_APIVersion : string;
  oref_Kind : string;
  oref_Name : string;
  oref_UID : UID;
  oref_Controller : option bool
}.

Record IPLock := {
  ipl_Namespace : string;
  ipl_Name : string;
  ipl_UID : UID;
  ipl_CreationTimestamp : Time;
  ipl_OwnerReferences : list OwnerReference;
  ipl_SubnetName : string
}.

Record NetworkAttachment := {
  att_Namespace : string;
  att_Name : string;
  att_UID : UID;
  att_ResourceVersion : string;
  att_CreationTimestamp : Time;
  att_Subnet : string;        (* Spec.Subnet *)
  att_IPv4 : string;          (* Status.IPv4 *)
  att_AddressVNI : Z;         (* Status.AddressVNI *)
  att_LockUID : string        (* Status.LockUID *)
}.

Record Subnet := {
  sn_Namespace : string;
  sn_Name : string;
  sn_ResourceVersion : string;
  sn_VNI : Z;                 (* Spec.VNI *)
  sn_IPv4 : string            (* Spec.IPv4 *)
}.

Abbreviation NamespacedName := (string * string)%type (only parsing).

(** ** Owner references *)

Definition isControllerOf (kind : string) (oref : OwnerReference) : bool :=
  String.eqb (oref_Kind oref) kind
  && match oref_Controller oref with Some b => b | None => false end.

Definition OwningAttachments (ipl : IPLock) : list string :=
  map oref_Name (filter (fun o => isControllerOf "NetworkAttachment" o = true)
                        (ipl_OwnerReferences ipl)).

Definition GetOwner (obj : IPLock) (ownerKind : string) : string * UID :=
  fold_left (fun acc oref =>
               if isControllerOf ownerKind oref
               then (oref_Name oref, oref_UID oref) else acc)
            (ipl_OwnerReferences obj) (""%string, ""%string).

(** ** Addresses as numbers, and the lock-name codec *)

(** [None] is the run-time panic of indexing the [nil] slice that
    [To4] returns for an address that is not IPv4. *)
Definition IPv4ToUint32 (ip : Gonet.IP) : option Z :=
  match Gonet.To4 ip with
  | [a; b; c; d] =>
      Some (u32 (Z.shiftl a 24 + Z.shiftl b 16 + Z.shiftl c 8 + d))
  | _ => None
  end.

Definition Uint32ToIPv4 (i : Z) : Gonet.IP :=
  Gonet.IPv4 (u8 (Z.shiftr i 24)) (u8 (Z.shiftr i 16)) (u8 (Z.shiftr i 8)) (u8 i).

Definition makeIPLockName2 (VNI : Z) (ip : Gonet.IP) : option string :=
  match Gonet.To4 ip with
  | [a; b; c; d] =>
      Some ("v1-" +:+ Strconv.FormatUint VNI +:+ "-" +:+ Strconv.FormatUint a
              +:+ "-" +:+ Strconv.FormatUint b +:+ "-" +:+ Strconv.FormatUint c
              +:+ "-" +:+ Strconv.FormatUint d)
  | _ => None
  end.

(** The loop over the four address tokens of [parseIPLockName]. *)
Fixpoint parseAddrBytes (parts : list string) (addrU : Z) : Z + error :=
  match parts with
  | [] => inl addrU
  | p :: rest =>
      match Strconv.ParseUint p 8 with
      | inr _ => inr (Errorf "lockName is malformed at address byte")
      | inl b64 => parseAddrBytes rest (u32 (u32 (addrU * 256) + u32 b64))
      end
  end.

Definition parseIPLockName (lockName : string) : Z * Z + error :=
  match GoStrings.Split "-" lockName with
  | [p0; p1; p2; p3; p4; p5] =>
      if negb (String.eqb p0 "v1") then inr (Errorf "Lock name is malformed")
      else match Strconv.ParseUint p1 21 with
           | inr _ => inr (Errorf "VNI in lockName is malformed")
           | inl vni64 =>
               match parseAddrBytes [p2; p3; p4; p5] 0 with
               | inr e => inr e
               | inl addrU => inl (u32 vni64, addrU)
               end
           end
  | _ => inr (Errorf "Lock name is malformed")
  end.

(** ** Parsed locks *)

Record ParsedLock := {
  pl_ns : string;
  pl_name : string;
  pl_VNI : Z;
  pl_addrU : Z;
  pl_UID : UID;
  pl_CreationTime : Time;
  pl_Obj : option IPLock
}.

Definition zeroParsedLock : ParsedLock :=
  {| pl_ns := ""; pl_name := ""; pl_VNI := 0; pl_addrU := 0; pl_UID := "";
     pl_CreationTime := GoTime.zero; pl_Obj := None |}.

Definition NewParsedLock (ipl : IPLock) : ParsedLock + error :=
  match parseIPLockName (ipl_Name ipl) with
  | inl (vni, addrU) =>
      inl {| pl_ns := ipl_Namespace ipl; pl_name := ipl_Name ipl;
             pl_VNI := vni; pl_addrU := addrU; pl_UID := ipl_UID ipl;
             pl_CreationTime := ipl_CreationTimestamp ipl;
             pl_Obj := Some ipl |}
  | inr e => inr e
  end.

Definition GetIP (x : ParsedLock) : Gonet.IP := Uint32ToIPv4 (pl_addrU x).

Definition Equal (x y : ParsedLock) : bool :=
  (pl_VNI x =? pl_VNI y) && String.eqb (pl_UID x) (pl_UID y)
  && bool_decide (pl_CreationTime x = pl_CreationTime y)
  && (pl_addrU x =? pl_addrU y).

Definition IsBetterThan (x y : ParsedLock) : bool :=
  if bool_decide (pl_CreationTime x <> pl_CreationTime y)
  then GoTime.Before (pl_CreationTime x) (pl_CreationTime y)
  else GoStrings.Compare (pl_UID x) (pl_UID y) >? 0.

Definition ParsedLockList := list ParsedLock.

Definition Best (l : ParsedLockList) : ParsedLock :=
  match l with
  | [] => zeroParsedLock
  | first :: rest =>
      fold_left (fun ans elt => if IsBetterThan elt ans then elt else ans)
                rest first
  end.

Definition Has (l : ParsedLockList) (elt : ParsedLock) : bool :=
  existsb (fun x => Equal x elt) l.

Definition Append (l : ParsedLockList) (elt : ParsedLock) : ParsedLockList :=
  l ++ [elt].

Definition AddFunc (l : ParsedLockList) (elt : ParsedLock)
  : ParsedLockList * bool :=
  match l with
  | [] => ([elt], true)
  | _ => if existsb (fun x => Equal x elt) l then (l, false)
         else (l ++ [elt], true)
  end.

Definition AddListFunc (l l2 : ParsedLockList) : ParsedLockList * bool :=
  fold_left (fun '(with_, diff) elt =>
               let '(w, diffHere) := AddFunc with_ elt in
               (w, diff || diffHere))
            l2 (l, false).

(** The scan of [RemFunc]: the list without its first element [Equal] to
    [elt], if there is one. *)
Fixpoint removeFirst (l : ParsedLockList) (elt : ParsedLock)
  : option ParsedLockList :=
  match l with
  | [] => None
  | x :: rest =>
      if Equal x elt then Some rest
      else match removeFirst rest elt with
           | Some rest' => Some (x :: rest')
           | None => None
           end
  end.

Definition RemFunc (l : ParsedLockList) (elt : ParsedLock)
  : ParsedLockList * bool :=
  match l with
  | [] => ([], false)
  | [x] => if Equal elt x then ([], true) else (l, false)
  | _ => match removeFirst l elt with
         | Some sans => (sans, true)
         | None => (l, false)
         end
  end.

(** ** The address set of a VNI (package [uint32set]) *)

Module Uint32set.

(** Modelled from the spec: package [uint32set] is not among the sources.
    The spec (4.1) describes "a per-VNI set of uint32 addresses" kept as
    "a sorted ... representation"; here, the strictly increasing list of
    its members. *)
Abbreviation UInt32Set := (list Z) (only parsing).

(** Modelled from the spec: the constructor [NewSortedUInt32Set] of the
    absent package yields the empty set. *)
Definition NewSortedUInt32Set : UInt32Set := [].

(** Modelled from the spec: [Add(x) -> changed] of the absent package. *)
Fixpoint Add (x : Z) (s : UInt32Set) : UInt32Set * bool :=
  match s with
  | [] => ([x], true)
  | y :: rest =>
      if x <? y then (x :: s, true)
      else if x =? y then (s, false)
      else let '(rest', changed) := Add x rest in (y :: rest', changed)
  end.

(** Modelled from the spec: [Remove(x) -> changed] of the absent
    package. *)
Fixpoint Remove (x : Z) (s : UInt32Set) : UInt32Set * bool :=
  match s with
  | [] => ([], false)
  | y :: rest =>
      if x =? y then (rest, true)
      else let '(rest', changed) := Remove x rest in (y :: rest', changed)
  end.

(** Modelled from the spec: [IsEmpty()] of the absent package. *)
Definition IsEmpty (s : UInt32Set) : bool :=
  match s with [] => true | _ => false end.

(** Modelled from the spec: the search of [AddOneInRange] in the absent
    package, "lowest-free-first": the least value from [cur] on that is
    not in the (sorted) set. *)
Fixpoint firstFreeFrom (cur : Z) (s : UInt32Set) : Z :=
  match s with
  | [] => cur
  | y :: rest =>
      if y <? cur then firstFreeFrom cur rest
      else if y =? cur then firstFreeFrom (cur + 1) rest
      else cur
  end.

(** Modelled from the spec: [AddOneInRange(lo, hi) -> (x, ok)] of the
    absent package "must pick some free value in [lo, hi] and insert it
    atomically; if none is free it returns ok=false". *)
Definition AddOneInRange (lo hi : Z) (s : UInt32Set)
  : UInt32Set * (Z * bool) :=
  let x := firstFreeFrom lo s in
  if (lo <=? x) && (x <=? hi) then (fst (Add x s), (x, true))
  else (s, (0, false)).

End Uint32set.

(** ** The controller's state and its environment *)

(** The local state kept for a NetworkAttachment. *)
Record NetworkAttachmentData := {
  anticipatedIPv4 : Gonet.IP;
  anticipatingResourceVersion : string;
  anticipatedResourceVersion : string;
  anticipationSubnetRV : string
}.

Definition zeroNetworkAttachmentData : NetworkAttachmentData :=
  {| anticipatedIPv4 := []; anticipatingResourceVersion := "";
     anticipatedResourceVersion := ""; anticipationSubnetRV := "" |}.

(** What the controller reaches through its listers, its lock indexer and
    its API client [netIfc].  [W] is the state of everything outside the
    controller: informer caches and the object store.  Reads of the informer
    caches leave it alone; a call to the API server may change it. *)
Record Client (W : Type) := {
  netattLister_Get : string -> string -> W -> NetworkAttachment + error;
  subnetLister_Get : string -> string -> W -> Subnet + error;
  iplIndexer_ByIndex : string -> W -> list IPLock + error;
  IPLocks_Get : string -> string -> W -> (IPLock + error) * W;
  IPLocks_Create : string -> IPLock -> W -> (IPLock + error) * W;
  IPLocks_Delete : string -> string -> UID -> W -> option error * W;
  NetworkAttachments_Update :
    string -> NetworkAttachment -> W -> (NetworkAttachment + error) * W
}.
Arguments netattLister_Get {W}.
Arguments subnetLister_Get {W}.
Arguments iplIndexer_ByIndex {W}.
Arguments IPLocks_Get {W}.
Arguments IPLocks_Create {W}.
Arguments IPLocks_Delete {W}.
Arguments NetworkAttachments_Update {W}.

(** The calls on lock and attachment objects a run has made, most recent
    first. *)
Inductive Call :=
| CallDelete (parsed : ParsedLock)
| CallCreate (ns : string) (ipl : IPLock)
| CallGet (ns name : string)
| CallUpdate (ns : string) (att : NetworkAttachment).

(** The fields [atts] and [addrCache] of [IPAMController], the outside
    world, and the calls made so far. *)
Record State (W : Type) := {
  atts : gmap NamespacedName NetworkAttachmentData;
  addrCache : gmap Z Uint32set.UInt32Set;
  world : W;
  calls : list Call
}.
Arguments atts {W}.
Arguments addrCache {W}.
Arguments world {W}.
Arguments calls {W}.
Arguments Build_State {W}.

Definition set_atts {W : Type} (f : gmap NamespacedName NetworkAttachmentData
                             -> gmap NamespacedName NetworkAttachmentData)
  (st : State W) : State W :=
  Build_State (f (atts st)) (addrCache st) (world st) (calls st).
Definition set_addrCache {W : Type} (f : gmap Z Uint32set.UInt32Set
                                  -> gmap Z Uint32set.UInt32Set)
  (st : State W) : State W :=
  Build_State (atts st) (f (addrCache st)) (world st) (calls st).
Definition set_world {W : Type} (w : W) (st : State W) : State W :=
  Build_State (atts st) (addrCache st) w (calls st).
Definition log_call {W : Type} (c : Call) (st : State W) : State W :=
  Build_State (atts st) (addrCache st) (world st) (c :: calls st).

(** The result of running a piece of the controller: it returns, it
    panics (a nil dereference or an index out of range), or the fuel given
    to an unbounded loop ran out. *)
Inductive Outcome (W A : Type) :=
| Returns (a : A) (st : State W)
| Panics
| OutOfFuel.
Arguments Returns {W A}.
Arguments Panics {W A}.
Arguments OutOfFuel {W A}.

Definition M (W A : Type) : Type := State W -> Outcome W A.

Definition ret {W A : Type} (a : A) : M W A := fun st => Returns a st.

Definition bind {W A B : Type} (m : M W A) (k : A -> M W B) : M W B :=
  fun st => match m st with
            | Returns a st' => k a st'
            | Panics => Panics
            | OutOfFuel => OutOfFuel
            end.

Definition panic {W A : Type} : M W A := fun _ => Panics.
Definition gets {W A : Type} (f : State W -> A) : M W A := fun st => Returns (f st) st.
Definition modify {W : Type} (f : State W -> State W) : M W unit :=
  fun st => Returns tt (f st).

Declare Scope ctl_scope.
Delimit Scope ctl_scope with ctl.
Notation "x <- m ;; k" := (bind m (fun x => k))
  (at level 20, m at level 99, k at level 200) : ctl_scope.
Notation "' p <- m ;; k" := (bind m (fun p => k))
  (at level 20, p pattern, m at level 99, k at level 200) : ctl_scope.
Notation "m ;;; k" := (bind m (fun _ => k))
  (at level 99, k at level 200, right associativity) : ctl_scope.

(** ** The IPAM controller *)

Definition hasObj (p : ParsedLock) : bool :=
  match pl_Obj p with Some _ => true | None => false end.

Definition nonNil (ip : Gonet.IP) : bool :=
  match ip with [] => false | _ => true end.

Definition IPNetToBoundsU (ipNet : Gonet.IPNet) : option (Z * Z) :=
  match IPv4ToUint32 (Gonet.net_IP ipNet) with
  | None => None
  | Some min =>
      let m := Gonet.net_Mask ipNet in
      let delta := u32 (u64 (u64 (Z.shiftl 1 (Gonet.bits m - Gonet.ones m)) - 1)) in
      Some (min, u32 (min + delta))
  end.

(** The result parameters of [analyzeAndRelease]. *)
Record Analysis := {
  an_subnetName : string;
  an_subnetRV : string;
  an_desiredVNI : Z;
  an_desiredBaseU : Z;
  an_desiredLastU : Z;
  an_lockInStatus : ParsedLock;
  an_lockForStatus : ParsedLock;
  an_err : option error;
  an_ok : bool
}.

(** The variables the closure [consider] of [analyzeAndRelease] updates. *)
Record Bins := {
  timeSlippers : ParsedLockList;
  undesiredLocks : ParsedLockList;
  usableLocks : ParsedLockList;
  considered : gset Z;
  lockInStatus : ParsedLock
}.

Definition emptyBins : Bins :=
  {| timeSlippers := []; undesiredLocks := []; usableLocks := [];
     considered := ∅; lockInStatus := zeroParsedLock |}.

(** The closure [consider] of [analyzeAndRelease]; its free variables are
    the first five arguments. *)
Definition consider (att : option NetworkAttachment) (statusLockUID : string)
  (desiredVNI desiredBaseU desiredLastU : Z) (ipl : IPLock) (b : Bins) : Bins :=
  match NewParsedLock ipl with
  | inr _ => b
  | inl parsed =>
      let seen := {[pl_addrU parsed]} ∪ considered b in
      let ownerUID := snd (GetOwner ipl "NetworkAttachment") in
      if match att with
         | Some a => negb (String.eqb ownerUID (att_UID a))
         | None => false
         end
      then {| timeSlippers := Append (timeSlippers b) parsed;
              undesiredLocks := undesiredLocks b;
              usableLocks := usableLocks b;
              considered := seen;
              lockInStatus := lockInStatus b |}
      else if negb (pl_VNI parsed =? desiredVNI)
              || (pl_addrU parsed <? desiredBaseU)
              || (pl_addrU parsed >? desiredLastU)
      then {| timeSlippers := timeSlippers b;
              undesiredLocks := Append (undesiredLocks b) parsed;
              usableLocks := usableLocks b;
              considered := seen;
              lockInStatus := lockInStatus b |}
      else {| timeSlippers := timeSlippers b;
              undesiredLocks := undesiredLocks b;
              usableLocks := Append (usableLocks b) parsed;
              considered := seen;
              lockInStatus :=
                if String.eqb (pl_UID parsed) statusLockUID
                   && match att with
                      | Some a =>
                          negb (String.eqb (att_IPv4 a) "")
                          && String.eqb (att_IPv4 a)
                                        (Gonet.IPString (GetIP parsed))
                      | None => false
                      end
                then parsed else lockInStatus b |}
  end.

(** The condition of [analyzeAndRelease] under which the anticipation
    fields are zeroed: [att == nil || (anticipating != RV && anticipated !=
    RV) || anticipationSubnetRV != subnetRV] ([&&] binds tighter than
    [||]). *)
Definition anticipationInvalid (att : option NetworkAttachment)
  (subnetRV : string) (d : NetworkAttachmentData) : bool :=
  match att with
  | None => true
  | Some a =>
      (negb (String.eqb (anticipatingResourceVersion d) (att_ResourceVersion a))
       && negb (String.eqb (anticipatedResourceVersion d) (att_ResourceVersion a)))
      || negb (String.eqb (anticipationSubnetRV d) subnetRV)
  end.

(** The choice of the lock to keep and of the usable locks to release. *)
Definition chooseLocks (att : option NetworkAttachment) (b : Bins)
  : ParsedLock * ParsedLockList :=
  match att with
  | None => (zeroParsedLock, usableLocks b)
  | Some _ =>
      if hasObj (lockInStatus b)
      then (zeroParsedLock, fst (RemFunc (usableLocks b) (lockInStatus b)))
      else if (0 <? Z.of_nat (List.length (usableLocks b)))
      then let best := Best (usableLocks b) in
           (best, fst (RemFunc (usableLocks b) best))
      else (zeroParsedLock, [])
  end.

(** The bounds [addrMin, addrMax] that [pickAndLockAddress] hands to
    [PickAddress]. *)
Definition pickRange (subnetBaseU subnetLastU : Z) : Z * Z :=
  if u32 (subnetLastU - subnetBaseU) >=? 4
  then (u32 (subnetBaseU + 2), u32 (subnetLastU - 1))
  else (subnetBaseU, subnetLastU).

Section Controller.

Context {W : Type}.

(** The IPv6 parser of package [net], the constant
    [netv1a1.SchemeGroupVersion.String()] and the Unicode path of
    [strings.ToLower], all outside the sources. *)
Variable parseIPv6 : string -> Gonet.IP.
Variable SchemeGroupVersion : string.
Context {unicode : GoStrings.Unicode}.

Variable env : Client W.

Local Open Scope ctl_scope.

(** *** Calls through the listers and the client *)

Definition netattLister (ns name : string) : M W (NetworkAttachment + error) :=
  gets (fun st => netattLister_Get env ns name (world st)).

Definition subnetLister (ns name : string) : M W (Subnet + error) :=
  gets (fun st => subnetLister_Get env ns name (world st)).

Definition ByIndex (name : string) : M W (list IPLock + error) :=
  gets (fun st => iplIndexer_ByIndex env name (world st)).

Definition lockGet (ns name : string) : M W (IPLock + error) :=
  fun st => let '(r, w) := IPLocks_Get env ns name (world st) in
            Returns r (log_call (CallGet ns name) (set_world w st)).

Definition lockCreate (ns : string) (ipl : IPLock) : M W (IPLock + error) :=
  fun st => let '(r, w) := IPLocks_Create env ns ipl (world st) in
            Returns r (log_call (CallCreate ns ipl) (set_world w st)).

Definition attUpdate (ns : string) (att : NetworkAttachment)
  : M W (NetworkAttachment + error) :=
  fun st => let '(r, w) := NetworkAttachments_Update env ns att (world st) in
            Returns r (log_call (CallUpdate ns att) (set_world w st)).

(** *** The address cache *)

Definition TakeAddress (vni addrU : Z) : M W bool :=
  fun st =>
    let addrs := match addrCache st !! vni with
                 | Some addrs => addrs
                 | None => Uint32set.NewSortedUInt32Set
                 end in
    let '(addrs', changed) := Uint32set.Add addrU addrs in
    Returns changed (set_addrCache (fun c => <[vni := addrs']> c) st).

Definition PickAddress (vni min max : Z) : M W (Z * bool) :=
  fun st =>
    let addrs := match addrCache st !! vni with
                 | Some addrs => addrs
                 | None => Uint32set.NewSortedUInt32Set
                 end in
    let '(addrs', picked) := Uint32set.AddOneInRange min max addrs in
    Returns picked (set_addrCache (fun c => <[vni := addrs']> c) st).

Definition ReleaseAddress (vni addrU : Z) : M W bool :=
  fun st =>
    match addrCache st !! vni with
    | None => Returns false st
    | Some addrs =>
        let '(addrs', changed) := Uint32set.Remove addrU addrs in
        Returns changed
          (set_addrCache
             (fun c => if Uint32set.IsEmpty addrs' then delete vni c
                       else <[vni := addrs']> c) st)
    end.

(** *** The attachment data.  A [*NetworkAttachmentData] is the key of
    its entry in [atts]. *)

Definition getNetworkAttachmentData (ns name : string) (addIfMissing : bool)
  : M W (option NamespacedName) :=
  fun st =>
    match atts st !! (ns, name) with
    | Some _ => Returns (Some (ns, name)) st
    | None =>
        if addIfMissing
        then Returns (Some (ns, name))
               (set_atts (fun m => <[(ns, name) := zeroNetworkAttachmentData]> m) st)
        else Returns None st
    end.

Definition clearNetworkAttachmentData (ns name : string) : M W unit :=
  modify (set_atts (fun m => delete (ns, name) m)).

(** Reading and writing through a [*NetworkAttachmentData]; through
    [nil], a panic. *)
Definition deref (nadat : option NamespacedName) : M W NetworkAttachmentData :=
  fun st => match nadat with
            | None => Panics
            | Some k => match atts st !! k with
                        | Some d => Returns d st
                        | None => Panics
                        end
            end.

Definition assign (nadat : option NamespacedName) (d : NetworkAttachmentData)
  : M W unit :=
  match nadat with
  | None => panic
  | Some k => modify (set_atts (fun m => <[k := d]> m))
  end.

(** *** Releasing locks *)

Definition deleteIPLockObject (parsed : ParsedLock) : M W (option error) :=
  fun st =>
    let '(r, w) := IPLocks_Delete env (pl_ns parsed) (pl_name parsed)
                     (pl_UID parsed) (world st) in
    let st' := log_call (CallDelete parsed) (set_world w st) in
    match r with
    | None => Returns None st'
    | Some err =>
        if IsNotFound err || IsGone err then Returns None st'
        else Returns (Some err) st'
    end.

(** The loop of [analyzeAndRelease] over [locksToRelease]. *)
Fixpoint releaseLocks (locksToRelease : ParsedLockList) : M W (option error) :=
  match locksToRelease with
  | [] => ret None
  | lockToRelease :: rest =>
      err <- deleteIPLockObject lockToRelease ;;
      match err with
      | Some _ => ret err
      | None => releaseLocks rest
      end
  end.

(** *** [analyzeAndRelease] *)

(** The live fetch of the lock for the address in the status, when the
    indexer did not show a lock on that address. *)
Definition considerStatusLock (ns name : string)
  (att : option NetworkAttachment) (statusLockUID : string)
  (desiredVNI desiredBaseU desiredLastU : Z) (b : Bins) : M W Bins :=
  match att with
  | None => ret b
  | Some a =>
      if String.eqb (att_IPv4 a) "" then ret b
      else
        let statusIP := Gonet.ParseIP parseIPv6 (att_IPv4 a) in
        if negb (nonNil statusIP) then ret b
        else match IPv4ToUint32 statusIP with
             | None => panic
             | Some statusIPU =>
                 if bool_decide (statusIPU ∈ considered b) then ret b
                 else match makeIPLockName2 desiredVNI statusIP with
                      | None => panic
                      | Some antName =>
                          r <- lockGet ns antName ;;
                          match r with
                          | inr _ => ret b
                          | inl ipl =>
                              if String.eqb (fst (GetOwner ipl "NetworkAttachment")) name
                              then ret (consider att statusLockUID desiredVNI
                                          desiredBaseU desiredLastU ipl b)
                              else ret b
                          end
                      end
             end
  end.

(** Zeroing the anticipation, when it no longer applies. *)
Definition invalidateAnticipation (att : option NetworkAttachment)
  (nadat : option NamespacedName) (subnetRV : string) : M W unit :=
  match nadat with
  | None => ret tt
  | Some _ =>
      d <- deref nadat ;;
      if anticipationInvalid att subnetRV d
      then assign nadat zeroNetworkAttachmentData
      else ret tt
  end.

(** [analyzeAndRelease] from its call of the lock indexer on. *)
Definition analyzeLocks (ns name : string) (att : option NetworkAttachment)
  (nadat : option NamespacedName) (subnetName subnetRV : string)
  (desiredVNI desiredBaseU desiredLastU : Z) : M W Analysis :=
  let statusLockUID := match att with
                       | Some a => att_LockUID a
                       | None => "<none>"%string
                       end in
  owned <- ByIndex name ;;
  match owned with
  | inr _ =>
      ret {| an_subnetName := subnetName; an_subnetRV := subnetRV;
             an_desiredVNI := desiredVNI; an_desiredBaseU := desiredBaseU;
             an_desiredLastU := desiredLastU;
             an_lockInStatus := zeroParsedLock;
             an_lockForStatus := zeroParsedLock;
             an_err := None; an_ok := false |}
  | inl ownedObjs =>
      let b0 := fold_left
                  (fun b ipl => consider att statusLockUID desiredVNI
                                  desiredBaseU desiredLastU ipl b)
                  ownedObjs emptyBins in
      b <- considerStatusLock ns name att statusLockUID desiredVNI
             desiredBaseU desiredLastU b0 ;;
      invalidateAnticipation att nadat subnetRV ;;;
      let '(lockForStatus, usableToRelease) := chooseLocks att b in
      let locksToRelease := fst (AddListFunc (undesiredLocks b) usableToRelease) in
      err <- releaseLocks locksToRelease ;;
      ret {| an_subnetName := subnetName; an_subnetRV := subnetRV;
             an_desiredVNI := desiredVNI; an_desiredBaseU := desiredBaseU;
             an_desiredLastU := desiredLastU;
             an_lockInStatus := lockInStatus b;
             an_lockForStatus := lockForStatus;
             an_err := err;
             an_ok := match err with Some _ => false | None => true end |}
  end.

Definition analyzeAndRelease (ns name : string) (att : option NetworkAttachment)
  (nadat : option NamespacedName) : M W Analysis :=
  match att with
  | None => analyzeLocks ns name att nadat "" "." 0 0 0
  | Some a =>
      let subnetName := att_Subnet a in
      let giveUp (subnetRV : string) (desiredVNI : Z) : M W Analysis :=
        ret {| an_subnetName := subnetName; an_subnetRV := subnetRV;
               an_desiredVNI := desiredVNI; an_desiredBaseU := 0;
               an_desiredLastU := 0;
               an_lockInStatus := zeroParsedLock;
               an_lockForStatus := zeroParsedLock;
               an_err := None; an_ok := false |} in
      r <- subnetLister ns subnetName ;;
      match r with
      | inr _ => giveUp "."%string 0
      | inl subnet =>
          match Gonet.ParseCIDR parseIPv6 (sn_IPv4 subnet) with
          | None => giveUp (sn_ResourceVersion subnet) (sn_VNI subnet)
          | Some ipNet =>
              match IPNetToBoundsU ipNet with
              | None => panic
              | Some (desiredBaseU, desiredLastU) =>
                  analyzeLocks ns name att nadat subnetName
                    (sn_ResourceVersion subnet) (sn_VNI subnet)
                    desiredBaseU desiredLastU
              end
          end
      end
  end.

(** *** [pickAndLockAddress] *)

(** The [for] loop of [pickAndLockAddress], which tries to create the
    lock until the outcome is settled; [fuel] bounds its iterations. *)
Fixpoint lockLoop (fuel : nat) (ns name : string) (att : NetworkAttachment)
  (vni ipForStatusU : Z) (ipForStatus : Gonet.IP) (lockName : string)
  (lockForStatus : ParsedLock) (ipl : IPLock)
  : M W (ParsedLock * Gonet.IP * option error) :=
  match fuel with
  | O => fun _ => OutOfFuel
  | S fuel' =>
      let locked (ipl2 : IPLock) : M W (ParsedLock * Gonet.IP * option error) :=
        ret ({| pl_ns := pl_ns lockForStatus;
                pl_name := pl_name lockForStatus;
                pl_VNI := pl_VNI lockForStatus;
                pl_addrU := pl_addrU lockForStatus;
                pl_UID := ipl_UID ipl2;
                pl_CreationTime := ipl_CreationTimestamp ipl2;
                pl_Obj := Some ipl2 |}, ipForStatus, None) in
      r <- lockCreate ns ipl ;;
      match r with
      | inl ipl2 => locked ipl2
      | inr err =>
          if IsAlreadyExists err then
            r2 <- lockGet ns lockName ;;
            match r2 with
            | inl ipl2 =>
                let '(ownerName, ownerUID) := GetOwner ipl2 "NetworkAttachment" in
                if String.eqb ownerName name && String.eqb ownerUID (att_UID att)
                then locked ipl2
                else ret (lockForStatus, ipForStatus,
                          Some (Errorf "cache incoherence"))
            | inr err2 =>
                if IsNotFound err2
                then lockLoop fuel' ns name att vni ipForStatusU ipForStatus
                       lockName lockForStatus ipl
                else ret (lockForStatus, ipForStatus,
                          Some (Errorf "Failed to fetch allegedly existing IPLock"))
            end
          else
            releaseOK <- ReleaseAddress vni ipForStatusU ;;
            if IsInvalid err
               || GoStrings.Contains (GoStrings.ToLower (message err)) "invalid"
            then ret (lockForStatus, ipForStatus, None)
            else ret (lockForStatus, ipForStatus,
                      Some (Errorf "Create of IPLock failed"))
      end
  end.

(** The [ParsedLock] that [pickAndLockAddress] starts from: the fields
    of the lock object are filled in once the lock is held. *)
Definition pendingLock (ns lockName : string) (vni ipForStatusU : Z)
  : ParsedLock :=
  {| pl_ns := ns; pl_name := lockName; pl_VNI := vni;
     pl_addrU := ipForStatusU; pl_UID := ""; pl_CreationTime := GoTime.zero;
     pl_Obj := None |}.

(** The lock object that [pickAndLockAddress] asks the server to
    create. *)
Definition lockObject (ns name : string) (att : NetworkAttachment)
  (subnetName lockName : string) : IPLock :=
  let owners :=
    [ {| oref_APIVersion := SchemeGroupVersion;
         oref_Kind := "NetworkAttachment";
         oref_Name := name;
         oref_UID := att_UID att;
         oref_Controller := Some true |} ] in
  {| ipl_Namespace := ns; ipl_Name := lockName; ipl_UID := "";
     ipl_CreationTimestamp := GoTime.zero; ipl_OwnerReferences := owners;
     ipl_SubnetName := subnetName |}.

Definition pickAndLockAddress (fuel : nat) (ns name : string)
  (att : NetworkAttachment) (subnetName : string)
  (vni subnetBaseU subnetLastU : Z)
  : M W (ParsedLock * Gonet.IP * option error) :=
  let '(addrMin, addrMax) := pickRange subnetBaseU subnetLastU in
  '(ipForStatusU, ok) <- PickAddress vni addrMin addrMax ;;
  if negb ok
  then ret (zeroParsedLock, [], Some (Errorf "No IP address available"))
  else
    let ipForStatus := Uint32ToIPv4 ipForStatusU in
    match makeIPLockName2 vni ipForStatus with
    | None => panic
    | Some lockName =>
        lockLoop fuel ns name att vni ipForStatusU ipForStatus lockName
          (pendingLock ns lockName vni ipForStatusU)
          (lockObject ns name att subnetName lockName)
    end.

(** *** [setIPInStatus] *)

Definition setIPInStatus (ns name : string) (att : NetworkAttachment)
  (nadat : option NamespacedName) (subnetRV : string)
  (lockForStatus : ParsedLock) (ipForStatus : Gonet.IP) : M W (option error) :=
  let att2 :=
    {| att_Namespace := att_Namespace att; att_Name := att_Name att;
       att_UID := att_UID att;
       att_ResourceVersion := att_ResourceVersion att;
       att_CreationTimestamp := att_CreationTimestamp att;
       att_Subnet := att_Subnet att;
       att_IPv4 := Gonet.IPString ipForStatus;
       att_AddressVNI := pl_VNI lockForStatus;
       att_LockUID := pl_UID lockForStatus |} in
  r <- attUpdate ns att2 ;;
  match r with
  | inl att3 =>
      assign nadat
        {| anticipatedIPv4 := ipForStatus;
           anticipatingResourceVersion := att_ResourceVersion att;
           anticipatedResourceVersion := att_ResourceVersion att3;
           anticipationSubnetRV := subnetRV |} ;;;
      ret None
  | inr err =>
      if IsNotFound err then ret None
      else ret (Some (Errorf "Failed to update status of NetworkAttachment"))
  end.

(** *** [processNetworkAttachment] *)

(** [processNetworkAttachment] once the lister has answered: [att] is
    the attachment, or [None] when the lister did not find it. *)
Definition reconcile (fuel : nat) (ns name : string)
  (att : option NetworkAttachment) : M W (option error) :=
  nadat <- getNetworkAttachmentData ns name
             (match att with Some _ => true | None => false end) ;;
  an <- analyzeAndRelease ns name att nadat ;;
  if match an_err an with Some _ => true | None => false end
     || negb (an_ok an)
  then ret (an_err an)
  else
    match att with
    | None =>
        match nadat with
        | Some _ => clearNetworkAttachmentData ns name ;;; ret None
        | None => ret None
        end
    | Some a =>
        if hasObj (an_lockInStatus an) then ret None
        else if hasObj (an_lockForStatus an) then
          let ipForStatus := GetIP (an_lockForStatus an) in
          d <- deref nadat ;;
          if Gonet.Equal ipForStatus (anticipatedIPv4 d) then ret None
          else setIPInStatus ns name a nadat (an_subnetRV an)
                 (an_lockForStatus an) ipForStatus
        else
          d <- deref nadat ;;
          if nonNil (anticipatedIPv4 d) then ret None
          else
            '(lockForStatus, ipForStatus, err) <-
               pickAndLockAddress fuel ns name a (an_subnetName an)
                 (an_desiredVNI an) (an_desiredBaseU an) (an_desiredLastU an) ;;
            match err with
            | Some _ => ret err
            | None => setIPInStatus ns name a nadat (an_subnetRV an)
                        lockForStatus ipForStatus
            end
    end.

Definition processNetworkAttachment (fuel : nat) (ns name : string)
  : M W (option error) :=
  r <- netattLister ns name ;;
  match r with
  | inl att => reconcile fuel ns name (Some att)
  | inr err =>
      if negb (IsNotFound err) then ret None
      else reconcile fuel ns name None
  end.

End Controller.

(** ** The subnet validator *)

(** Modelled from the spec: package [subnet] (the subnet summaries) is not
    among the sources.  The spec (4.6) gives "Summary(s) = (namespace, name,
    VNI, baseU, lastU) from its CIDR". *)
Record Summary := {
  sm_NamespacedName : NamespacedName;
  sm_VNI : Z;
  sm_BaseU : Z;
  sm_LastU : Z
}.

(** Modelled from the spec: the method [Contains] of the absent package
    [subnet], which the spec does not describe; read by its name, on the
    "CIDR bounds" of a summary: the block of [s1] includes the block of
    [s2]. *)
Definition Summary_Contains (s1 s2 : Summary) : bool :=
  (sm_BaseU s1 <=? sm_BaseU s2) && (sm_LastU s2 <=? sm_LastU s1).

Record conflictsCache := {
  ownerSummary : Summary;
  rivals : list NamespacedName
}.

(** The fields [conflicts] and [staleRVs] of [Validator]. *)
Record Validator := {
  conflicts : gmap NamespacedName conflictsCache;
  staleRVs : gmap NamespacedName string
}.

Section ValidatorCode.

(** [s.Contains(c.ownerSummary)], a method of the absent package. *)
Variable Contains : Summary -> Summary -> bool.

Definition updateConflictsCache (s : Summary) (v : Validator)
  : list NamespacedName * Validator :=
  match conflicts v !! sm_NamespacedName s with
  | None =>
      ([], {| conflicts := <[sm_NamespacedName s :=
                               {| ownerSummary := s; rivals := [] |}]>
                             (conflicts v);
              staleRVs := staleRVs v |})
  | Some c =>
      let '(oldRivals, rivals') :=
        if negb (sm_VNI s =? sm_VNI (ownerSummary c))
           || negb (Contains s (ownerSummary c))
        then (rivals c, [])
        else ([], rivals c) in
      (oldRivals,
       {| conflicts := <[sm_NamespacedName s :=
                           {| ownerSummary := s; rivals := rivals' |}]>
                         (conflicts v);
          staleRVs := staleRVs v |})
  end.

End ValidatorCode.

(** ** A cluster to run the controller against

    The object store with its optimistic concurrency, the informer caches
    the controller reads, and a script of injected API failures. *)

(** The creation timestamp of an object made when the server's clock shows
    [n], as a client decodes it: whole seconds, without a monotonic clock
    reading, in the Location [time.Local]. *)
Definition timeAt (n : Z) : Time :=
  {| GoTime.wall := 0; GoTime.ext := n; GoTime.loc := GoTime.Local |}.

Record Cluster := {
  lockStore : gmap NamespacedName IPLock;
  attStore : gmap NamespacedName NetworkAttachment;
  attInformer : gmap NamespacedName NetworkAttachment;
  subnetInformer : gmap NamespacedName Subnet;
  lockInformer : list IPLock;
  clock : Z;
  faults : list (option error)
}.

Definition apiError (r : StatusReason) : error :=
  {| reason := r; message := "" |}.

(** The server-assigned UID and resource version at time [n]. *)
Definition freshName (n : Z) : string := "srv-" +:+ Strconv.FormatUint n.

(** The next entry of the failure script: [Some e] makes the call fail
    with [e]; the store is not touched. *)
Definition nextFault (c : Cluster) : option error * Cluster :=
  match faults c with
  | [] => (None, c)
  | f :: rest =>
      (f, {| lockStore := lockStore c; attStore := attStore c;
             attInformer := attInformer c; subnetInformer := subnetInformer c;
             lockInformer := lockInformer c; clock := clock c;
             faults := rest |})
  end.

Definition withLocks (c : Cluster) (locks : gmap NamespacedName IPLock) : Cluster :=
  {| lockStore := locks; attStore := attStore c;
     attInformer := attInformer c; subnetInformer := subnetInformer c;
     lockInformer := lockInformer c; clock := clock c + 1;
     faults := faults c |}.

Definition withAtts (c : Cluster) (m : gmap NamespacedName NetworkAttachment)
  : Cluster :=
  {| lockStore := lockStore c; attStore := m;
     attInformer := attInformer c; subnetInformer := subnetInformer c;
     lockInformer := lockInformer c; clock := clock c + 1;
     faults := faults c |}.

Definition lookupOr {A : Type} (o : option A) : A + error :=
  match o with
  | Some a => inl a
  | None => inr (apiError ReasonNotFound)
  end.

Definition cluster_Get (ns name : string) (c0 : Cluster)
  : (IPLock + error) * Cluster :=
  let '(f, c) := nextFault c0 in
  match f with
  | Some e => (inr e, c)
  | None => (lookupOr (lockStore c !! (ns, name)), c)
  end.

Definition cluster_Create (ns : string) (ipl : IPLock) (c0 : Cluster)
  : (IPLock + error) * Cluster :=
  let '(f, c) := nextFault c0 in
  match f with
  | Some e => (inr e, c)
  | None =>
      match lockStore c !! (ns, ipl_Name ipl) with
      | Some _ => (inr (apiError ReasonAlreadyExists), c)
      | None =>
          let created :=
            {| ipl_Namespace := ns; ipl_Name := ipl_Name ipl;
               ipl_UID := freshName (clock c);
               ipl_CreationTimestamp := timeAt (clock c);
               ipl_OwnerReferences := ipl_OwnerReferences ipl;
               ipl_SubnetName := ipl_SubnetName ipl |} in
          (inl created,
           withLocks c (<[(ns, ipl_Name ipl) := created]> (lockStore c)))
      end
  end.

Definition cluster_Delete (ns name : string) (uid : UID) (c0 : Cluster)
  : option error * Cluster :=
  let '(f, c) := nextFault c0 in
  match f with
  | Some e => (Some e, c)
  | None =>
      match lockStore c !! (ns, name) with
      | None => (Some (apiError ReasonNotFound), c)
      | Some l =>
          if String.eqb (ipl_UID l) uid
          then (None, withLocks c (delete (ns, name) (lockStore c)))
          else (Some (apiError ReasonConflict), c)
      end
  end.

Definition cluster_Update (ns : string) (att : NetworkAttachment) (c0 : Cluster)
  : (NetworkAttachment + error) * Cluster :=
  let '(f, c) := nextFault c0 in
  match f with
  | Some e => (inr e, c)
  | None =>
      match attStore c !! (ns, att_Name att) with
      | None => (inr (apiError ReasonNotFound), c)
      | Some old =>
          if String.eqb (att_ResourceVersion old) (att_ResourceVersion att)
          then
            let att3 :=
              {| att_Namespace := att_Namespace att; att_Name := att_Name att;
                 att_UID := att_UID old;
                 att_ResourceVersion := freshName (clock c);
                 att_CreationTimestamp := att_CreationTimestamp old;
                 att_Subnet := att_Subnet att;
                 att_IPv4 := att_IPv4 att;
                 att_AddressVNI := att_AddressVNI att;
                 att_LockUID := att_LockUID att |} in
            (inl att3, withAtts c (<[(ns, att_Name att) := att3]> (attStore c)))
          else (inr (apiError ReasonConflict), c)
      end
  end.

Definition clusterClient : Client Cluster :=
  {| netattLister_Get := fun ns name c => lookupOr (attInformer c !! (ns, name));
     subnetLister_Get := fun ns name c => lookupOr (subnetInformer c !! (ns, name));
     iplIndexer_ByIndex := fun name c =>
       inl (filter (fun l => name ∈ OwningAttachments l) (lockInformer c));
     IPLocks_Get := cluster_Get;
     IPLocks_Create := cluster_Create;
     IPLocks_Delete := cluster_Delete;
     NetworkAttachments_Update := cluster_Update |}.

(** ** Notions used in the statements *)

(** The string [s] does not contain the byte [sep]. *)
Fixpoint freeOf (sep : ascii) (s : string) : Prop :=
  match s with
  | EmptyString => True
  | String c rest => c <> sep /\ freeOf sep rest
  end.

(** The number of the address [a.b.c.d]. *)
Definition addrOf (a b c d : Z) : Z := a * 2 ^ 24 + b * 2 ^ 16 + c * 2 ^ 8 + d.

(** The value [analyzeAndRelease] gives its variable [statusLockUID]. *)
Definition statusLockUIDOf (att : option NetworkAttachment) : string :=
  match att with Some a => att_LockUID a | None => "<none>"%string end.

(** The parsed lock [p] carries a lock object whose controlling
    NetworkAttachment owner has the UID [uid]. *)
Definition ownedByUID (uid : UID) (p : ParsedLock) : Prop :=
  exists ipl, pl_Obj p = Some ipl /\ snd (GetOwner ipl "NetworkAttachment") = uid.

(** The controlling NetworkAttachment owner of the lock has the UID
    [uid]. *)
Definition ownsLock (uid : UID) (l : IPLock) : Prop :=
  snd (GetOwner l "NetworkAttachment") = uid.

(** The locks of the store whose controlling owner has the UID [uid]. *)
Definition locksOwnedBy (uid : UID) (c : Cluster) : list IPLock :=
  filter (fun l => snd (GetOwner l "NetworkAttachment") = uid)
         (map snd (map_to_list (lockStore c))).

(** The store holds the lock [l] under the key [k], and no other lock
    whose controlling owner has the UID [uid]. *)
Definition onlyLockOf (uid : UID) (c : Cluster) (k : string * string)
  (l : IPLock) : Prop :=
  lockStore c !! k = Some l /\ ownsLock uid l /\
  forall k' l', lockStore c !! k' = Some l' -> ownsLock uid l' -> k' = k.

Definition wellFormedName (l : IPLock) : Prop :=
  match NewParsedLock l with inl _ => True | inr _ => False end.

(** The lock informer agrees with the store, as far as the attachment
    [name] with the UID [uid] is concerned: no API failure is scripted; the
    informer lists every lock of the store, once, under its own namespace
    and name; the listed locks have distinct UIDs and well-formed names;
    and a lock whose controlling owner has the UID [uid] is indexed under
    [name]. *)
Definition coherent (name : string) (uid : UID) (c : Cluster) : Prop :=
  faults c = [] /\
  NoDup (map ipl_UID (lockInformer c)) /\
  Forall (fun l => lockStore c !! (ipl_Namespace l, ipl_Name l) = Some l /\
                   wellFormedName l /\
                   (ownsLock uid l -> name ∈ OwningAttachments l))
         (lockInformer c) /\
  map_Forall (fun k l => k = (ipl_Namespace l, ipl_Name l) /\ l ∈ lockInformer c)
             (lockStore c).

#[global] Instance OwnerReference_eq_dec : EqDecision OwnerReference.
Proof. solve_decision. Defined.
#[global] Instance IPLock_eq_dec : EqDecision IPLock.
Proof. solve_decision. Defined.
#[global] Instance ownsLock_dec uid l : Decision (ownsLock uid l).
Proof. unfold ownsLock. apply _. Defined.
#[global] Instance wellFormedName_dec l : Decision (wellFormedName l).
Proof. unfold wellFormedName. destruct (NewParsedLock l); apply _. Defined.
#[global] Instance coherent_dec name uid c : Decision (coherent name uid c).
Proof. unfold coherent. apply _. Defined.

(** The parsed form of a lock with a well-formed name. *)
Definition parsedOf (ipl : IPLock) : ParsedLock :=
  match NewParsedLock ipl with
  | inl parsed => parsed
  | inr _ => zeroParsedLock
  end.

(** ** Notions used for the end-to-end invariant *)

(** What a run leaves alone in the cluster while it deletes and creates
    locks. *)
Definition sameButLocks (c c' : Cluster) : Prop :=
  attStore c' = attStore c /\ attInformer c' = attInformer c /\
  subnetInformer c' = subnetInformer c /\ lockInformer c' = lockInformer c /\
  faults c' = faults c.


(** The tests of the closure [consider]: the lock is on another VNI or
    outside the block; the lock is the one the status names. *)
Definition isUndesired (vni base last : Z) (p : ParsedLock) : bool :=
  negb (pl_VNI p =? vni) || (pl_addrU p <? base) || (pl_addrU p >? last).

Definition inStatus (a : NetworkAttachment) (p : ParsedLock) : bool :=
  String.eqb (pl_UID p) (att_LockUID a)
  && (negb (String.eqb (att_IPv4 a) "")
      && String.eqb (att_IPv4 a) (Gonet.IPString (GetIP p))).

(** What the bins hold once the locks [owned] have been considered. *)
Definition binsOf (a : NetworkAttachment) (vni base last : Z)
  (owned : list IPLock) (b : Bins) : Prop :=
  (forall p, p ∈ undesiredLocks b <->
     exists l, l ∈ owned /\ NewParsedLock l = inl p /\ ownsLock (att_UID a) l /\
               isUndesired vni base last p = true) /\
  (forall p, p ∈ usableLocks b <->
     exists l, l ∈ owned /\ NewParsedLock l = inl p /\ ownsLock (att_UID a) l /\
               isUndesired vni base last p = false) /\
  NoDup (map pl_UID (undesiredLocks b ++ usableLocks b)) /\
  (forall l p, l ∈ owned -> NewParsedLock l = inl p -> pl_addrU p ∈ considered b) /\
  (hasObj (lockInStatus b) = true ->
     lockInStatus b ∈ usableLocks b /\ inStatus a (lockInStatus b) = true).


(** The usable lock that [chooseLocks] keeps, if any: the lock the status
    names, or else the best of the usable locks. *)
Definition keptLock (b : Bins) : option ParsedLock :=
  if hasObj (lockInStatus b) then Some (lockInStatus b)
  else match usableLocks b with
       | [] => None
       | _ => Some (Best (usableLocks b))
       end.

(** The key of the lock object that a parsed lock stands for. *)
Definition lockKey (p : ParsedLock) : string * string := (pl_ns p, pl_name p).

(** The locks handed to [releaseLocks]. *)
Definition locksToRelease (att : option NetworkAttachment) (b : Bins)
  : ParsedLockList :=
  fst (AddListFunc (undesiredLocks b) (snd (chooseLocks att b))).

#[global] Instance ParsedLock_eq_dec : EqDecision ParsedLock.
Proof. solve_decision. Defined.

(** ** Example objects

    A namespace [ex] with the subnet [s1] (VNI 7, 10.0.0.0/24) and the
    attachment [a1] on it, as in the spec's scenario S1, and variations. *)

(** The examples hold no IPv6 literal; this stands for the IPv6 parser. *)
Definition noIPv6 : string -> Gonet.IP := fun _ => [].

(** The examples hold ASCII messages only; this stands for the Unicode
    path of [strings.ToLower]. *)
#[global] Instance asciiOnly : GoStrings.Unicode :=
  {| GoStrings.mapToLower := fun s => s |}.

Definition groupVersion : string := "network.example.com/v1alpha1".

Definition attA1 : NetworkAttachment :=
  {| att_Namespace := "ex"; att_Name := "a1"; att_UID := "uid-a1";
     att_ResourceVersion := "1"; att_CreationTimestamp := timeAt 5;
     att_Subnet := "s1"; att_IPv4 := ""; att_AddressVNI := 0;
     att_LockUID := "" |}.

Definition subnetS1 : Subnet :=
  {| sn_Namespace := "ex"; sn_Name := "s1"; sn_ResourceVersion := "1";
     sn_VNI := 7; sn_IPv4 := "10.0.0.0/24" |}.

(** A subnet of four addresses. *)
Definition subnetS30 : Subnet :=
  {| sn_Namespace := "ex"; sn_Name := "s1"; sn_ResourceVersion := "1";
     sn_VNI := 7; sn_IPv4 := "10.0.0.0/30" |}.

Definition ownerRef (name : string) (uid : UID) : OwnerReference :=
  {| oref_APIVersion := groupVersion; oref_Kind := "NetworkAttachment";
     oref_Name := name; oref_UID := uid; oref_Controller := Some true |}.

Definition lockOf (name : string) (uid : UID) (t : Time)
  (ownerName : string) (ownerUID : UID) : IPLock :=
  {| ipl_Namespace := "ex"; ipl_Name := name; ipl_UID := uid;
     ipl_CreationTimestamp := t;
     ipl_OwnerReferences := [ownerRef ownerName ownerUID];
     ipl_SubnetName := "s1" |}.

Definition clusterOf (subnets : list Subnet) (locks : list IPLock)
  (script : list (option error)) : Cluster :=
  {| lockStore := list_to_map (map (fun l => ((ipl_Namespace l, ipl_Name l), l)) locks);
     attStore := {[ ("ex", "a1") := attA1 ]}%string;
     attInformer := {[ ("ex", "a1") := attA1 ]}%string;
     subnetInformer :=
       list_to_map (map (fun s => ((sn_Namespace s, sn_Name s), s)) subnets);
     lockInformer := locks;
     clock := 100;
     faults := script |}.

Definition stateOn (c : Cluster) : State Cluster :=
  {| atts := ∅; addrCache := ∅; world := c; calls := [] |}.

(** The state a run leaves, and [st] when it does not return. *)
Definition stateAfter {A : Type} (o : Outcome Cluster A) (st : State Cluster)
  : State Cluster :=
  match o with Returns _ st' => st' | _ => st end.

Definition valueOf {A : Type} (o : Outcome Cluster A) : option A :=
  match o with Returns a _ => Some a | _ => None end.

(** The lock a run of [pickAndLockAddress] hands back. *)
Definition lockPicked (o : Outcome Cluster (ParsedLock * Gonet.IP * option error))
  : ParsedLock :=
  match o with Returns (l, _, _) _ => l | _ => zeroParsedLock end.

(** S1: the subnet and the attachment, no lock yet. *)
Definition clusterS1 : Cluster := clusterOf [subnetS1] [] [].

(** The same with the four-address subnet. *)
Definition clusterS30 : Cluster := clusterOf [subnetS30] [] [].

(** The attachment refers to a subnet that does not exist (yet). *)
Definition clusterNoSubnet : Cluster := clusterOf [] [] [].

(** Another attachment holds the lock on 10.0.0.2, and the address cache
    of this controller has not heard of it. *)
Definition foreignLock : IPLock :=
  lockOf "v1-7-10-0-0-2" "uid-l2" (timeAt 50) "a9" "uid-a9".
Definition clusterForeign : Cluster := clusterOf [subnetS1] [foreignLock] [].

(** A lock of [a1] on 10.0.0.2 left behind by a crash before the status
    was written, which the informer has not shown yet. *)
Definition ownLock : IPLock :=
  lockOf "v1-7-10-0-0-2" "uid-l2" (timeAt 50) "a1" "uid-a1".
Definition clusterRecovered : Cluster :=
  {| lockStore := {[ ("ex", "v1-7-10-0-0-2") := ownLock ]}%string;
     attStore := attStore clusterS1; attInformer := attInformer clusterS1;
     subnetInformer := subnetInformer clusterS1; lockInformer := [];
     clock := 100; faults := [] |}.

(** The create call answers AlreadyExists, and the lock is gone when the
    controller looks for it. *)
Definition clusterVanishing : Cluster :=
  clusterOf [subnetS1] []
    [Some (apiError ReasonAlreadyExists); Some (apiError ReasonNotFound)].

(** A lock of an earlier edition of [a1] (a time slipper) and a lock of
    the current edition on another VNI (undesired). *)
Definition slipperLock : IPLock :=
  lockOf "v1-7-10-0-0-9" "uid-l9" (timeAt 40) "a1" "uid-a1-old".
Definition strayLock : IPLock :=
  lockOf "v1-9-10-0-0-8" "uid-l8" (timeAt 41) "a1" "uid-a1".
Definition clusterSlipper : Cluster := clusterOf [subnetS1] [slipperLock; strayLock] [].

(** An anticipation left by an earlier write, for resource versions the
    attachment has moved away from. *)
Definition staleAnticipation : NetworkAttachmentData :=
  {| anticipatedIPv4 := Uint32ToIPv4 167772162;
     anticipatingResourceVersion := "0a";
     anticipatedResourceVersion := "0b";
     anticipationSubnetRV := "1" |}.

(** An address cache that holds the one address 10.0.0.2 on VNI 7. *)
Definition stateOneAddress : State Cluster :=
  {| atts := ∅; addrCache := {[ 7 := [167772162] ]}; world := clusterS1;
     calls := [] |}.

Definition stateStale : State Cluster :=
  {| atts := {[ ("ex", "a1") := staleAnticipation ]}%string; addrCache := ∅;
     world := clusterS1; calls := [] |}.

(** The same anticipation, while the subnet of the attachment does not
    exist. *)
Definition stateStaleNoSubnet : State Cluster :=
  {| atts := {[ ("ex", "a1") := staleAnticipation ]}%string; addrCache := ∅;
     world := clusterNoSubnet; calls := [] |}.

(** Parsed locks that differ in one respect or another. *)
Definition lockA : ParsedLock :=
  {| pl_ns := "ex"; pl_name := "v1-7-10-0-0-5"; pl_VNI := 7;
     pl_addrU := 167772165; pl_UID := "uid-a"; pl_CreationTime := timeAt 10;
     pl_Obj := None |}.
Definition lockB : ParsedLock :=
  {| pl_ns := "ex"; pl_name := "v1-7-10-0-0-6"; pl_VNI := 7;
     pl_addrU := 167772166; pl_UID := "uid-b"; pl_CreationTime := timeAt 10;
     pl_Obj := None |}.
Definition lockC : ParsedLock :=
  {| pl_ns := "ex"; pl_name := "v1-7-10-0-0-7"; pl_VNI := 7;
     pl_addrU := 167772167; pl_UID := "uid-c"; pl_CreationTime := timeAt 20;
     pl_Obj := None |}.
(** The UID and creation time of [lockA], on another VNI. *)
Definition lockA' : ParsedLock :=
  {| pl_ns := "ex"; pl_name := "v1-8-10-0-0-5"; pl_VNI := 8;
     pl_addrU := 167772165; pl_UID := "uid-a"; pl_CreationTime := timeAt 10;
     pl_Obj := None |}.

(** A lock made at the instant of [lockB] whose creation time is in UTC
    (a [nil] Location). *)
Definition lockD : ParsedLock :=
  {| pl_ns := "ex"; pl_name := "v1-7-10-0-0-8"; pl_VNI := 7;
     pl_addrU := 167772168; pl_UID := "uid-d";
     pl_CreationTime := {| GoTime.wall := 0; GoTime.ext := 10;
                           GoTime.loc := None |};
     pl_Obj := None |}.

(** Locks whose creation times were read off the clock of the process
    ([time.Now()]) and carry a monotonic reading: [lockM1] 1 ns after the
    start of the process, when the wall clock showed second 100 of 1885,
    and [lockM2] 2 ns after it, when the wall clock had been set back to
    second 50.  The creation time of [lockW] has no monotonic reading and
    is second 75 of 1885. *)
Definition lockM1 : ParsedLock :=
  {| pl_ns := "ex"; pl_name := "v1-7-10-0-0-11"; pl_VNI := 7;
     pl_addrU := 167772171; pl_UID := "uid-m1";
     pl_CreationTime := {| GoTime.wall := 2 ^ 63 + 100 * 2 ^ 30; GoTime.ext := 1;
                           GoTime.loc := GoTime.Local |};
     pl_Obj := None |}.
Definition lockM2 : ParsedLock :=
  {| pl_ns := "ex"; pl_name := "v1-7-10-0-0-12"; pl_VNI := 7;
     pl_addrU := 167772172; pl_UID := "uid-m2";
     pl_CreationTime := {| GoTime.wall := 2 ^ 63 + 50 * 2 ^ 30; GoTime.ext := 2;
                           GoTime.loc := GoTime.Local |};
     pl_Obj := None |}.
Definition lockW : ParsedLock :=
  {| pl_ns := "ex"; pl_name := "v1-7-10-0-0-13"; pl_VNI := 7;
     pl_addrU := 167772173; pl_UID := "uid-w";
     pl_CreationTime := {| GoTime.wall := 0;
                           GoTime.ext := GoTime.wallToInternal + 75;
                           GoTime.loc := GoTime.Local |};
     pl_Obj := None |}.

(** Summaries of the subnet [ex/s1] before and after a change of its
    block, and a validator that knows [ex/s2] as its rival. *)
Definition summaryOld : Summary :=
  {| sm_NamespacedName := ("ex", "s1")%string; sm_VNI := 20;
     sm_BaseU := 167772160; sm_LastU := 167772287 |}.   (* 10.0.0.0/25 *)
Definition summaryGrown : Summary :=
  {| sm_NamespacedName := ("ex", "s1")%string; sm_VNI := 20;
     sm_BaseU := 167772160; sm_LastU := 167772415 |}.   (* 10.0.0.0/24 *)
Definition summaryMoved : Summary :=
  {| sm_NamespacedName := ("ex", "s1")%string; sm_VNI := 20;
     sm_BaseU := 167772416; sm_LastU := 167772671 |}.   (* 10.0.1.0/24 *)
Definition validatorWithRival : Validator :=
  {| conflicts := {[ ("ex", "s1")%string :=
                       {| ownerSummary := summaryOld;
                          rivals := [("ex", "s2")%string] |} ]};
     staleRVs := ∅ |}.

(** ** Notions used for the properties of the lock lists *)

(** No two members of the list are [Equal]. *)
Fixpoint distinctLocks (l : ParsedLockList) : Prop :=
  match l with
  | [] => True
  | x :: rest => Has rest x = false /\ distinctLocks rest
  end.

(** The two fields [IsBetterThan] looks at. *)
Definition orderKey (p : ParsedLock) : Time * UID :=
  (pl_CreationTime p, pl_UID p).

(** The creation time of the lock carries no monotonic clock reading: it
    was decoded from an API object, not read off the clock of the
    process. *)
Definition wallClock (p : ParsedLock) : Prop :=
  GoTime.monotonic (pl_CreationTime p) = false.

(** Creation times of the list that denote the same instant are identical
    (the same Location, too), as are the times decoded from the objects of
    one server. *)
Definition instantsIdentical (l : ParsedLockList) : Prop :=
  Forall (fun x =>
            Forall (fun y =>
                      GoTime.Equal (pl_CreationTime x) (pl_CreationTime y) = true ->
                      pl_CreationTime x = pl_CreationTime y) l) l.

(** ** More example objects *)

(** A stand-in for the IPv6 parser: every literal is read as 2001:db8::1. *)
Definition oneIPv6 : string -> Gonet.IP :=
  fun _ => [32; 1; 13; 184; 0; 0; 0; 0; 0; 0; 0; 0; 0; 0; 0; 1].

(** The attachment [a1] with an IPv6 literal in its status. *)
Definition attV6 : NetworkAttachment :=
  {| att_Namespace := "ex"; att_Name := "a1"; att_UID := "uid-a1";
     att_ResourceVersion := "1"; att_CreationTimestamp := timeAt 5;
     att_Subnet := "s1"; att_IPv4 := "2001:db8::1"; att_AddressVNI := 7;
     att_LockUID := "uid-l1" |}.

Definition clusterV6 : Cluster :=
  {| lockStore := ∅;
     attStore := {[ ("ex", "a1") := attV6 ]}%string;
     attInformer := {[ ("ex", "a1") := attV6 ]}%string;
     subnetInformer := subnetInformer clusterS1;
     lockInformer := []; clock := 100; faults := [] |}.

(** ** Notions used for the properties of the reconciliation *)

(** A lock the analysis of the attachment [a] puts in no bin but
    [timeSlippers]: its name does not parse, or its controlling owner is
    not [a] (by UID). *)
Definition passedOver (a : NetworkAttachment) (ipl : IPLock) : Prop :=
  (exists e, NewParsedLock ipl = inr e) \/
  snd (GetOwner ipl "NetworkAttachment") <> att_UID a.

(** The anticipation [d] is in force for the attachment [a] and the
    subnet resource version [subnetRV]. *)
Definition anticipates (d : NetworkAttachmentData) (a : NetworkAttachment)
  (subnetRV : string) : Prop :=
  anticipatedIPv4 d <> [] /\
  (anticipatingResourceVersion d = att_ResourceVersion a \/
   anticipatedResourceVersion d = att_ResourceVersion a) /\
  anticipationSubnetRV d = subnetRV.

(** The locks of the list are deleted one after the other, from the world
    [w] to the world [w']: every call of [IPLocks.Delete] answers nil, or
    an error that [deleteIPLockObject] takes for success (NotFound or
    Gone). *)
Inductive deletedInTurn {W : Type} (env : Client W)
  : W -> ParsedLockList -> W -> Prop :=
| deleted_none (w : W) : deletedInTurn env w [] w
| deleted_next (w w1 w' : W) (p : ParsedLock) (l : ParsedLockList)
    (answer : option error) :
    IPLocks_Delete env (pl_ns p) (pl_name p) (pl_UID p) w = (answer, w1) ->
    match answer with
    | None => True
    | Some e => IsNotFound e || IsGone e = true
    end ->
    deletedInTurn env w1 l w' ->
    deletedInTurn env w (p :: l) w'.

(** Why [analyzeAndRelease] gives up on an attachment: the subnet lister
    fails or does not find the subnet, the subnet's CIDR does not parse,
    or the lock indexer fails. *)
Inductive givesUp {W : Type} (parseIPv6 : string -> Gonet.IP) (env : Client W)
  (ns name : string) (a : NetworkAttachment) (w : W) : Prop :=
| NoSubnet (e : error) :
    subnetLister_Get env ns (att_Subnet a) w = inr e ->
    givesUp parseIPv6 env ns name a w
| MalformedCIDR (sn : Subnet) :
    subnetLister_Get env ns (att_Subnet a) w = inl sn ->
    Gonet.ParseCIDR parseIPv6 (sn_IPv4 sn) = None ->
    givesUp parseIPv6 env ns name a w
| IndexFails (sn : Subnet) (ipNet : Gonet.IPNet) (e : error) :
    subnetLister_Get env ns (att_Subnet a) w = inl sn ->
    Gonet.ParseCIDR parseIPv6 (sn_IPv4 sn) = Some ipNet ->
    is_Some (IPNetToBoundsU ipNet) ->
    iplIndexer_ByIndex env name w = inr e ->
    givesUp parseIPv6 env ns name a w.

(** The locks of [clusterSlipper], while the server refuses the next call
    with a Conflict. *)
Definition clusterSlipperRefusing : Cluster :=
  clusterOf [subnetS1] [slipperLock; strayLock] [Some (apiError ReasonConflict)].

(** The lock of an earlier edition of [a1], and nothing else. *)
Definition clusterOldLock : Cluster := clusterOf [subnetS1] [slipperLock] [].

(** The state after the status of [a1] was written with 10.0.0.2, as
    [setIPInStatus] records it, before the informers have caught up. *)
Definition stateAnticipating : State Cluster :=
  {| atts := {[ ("ex", "a1")%string :=
                  {| anticipatedIPv4 := Uint32ToIPv4 167772162;
                     anticipatingResourceVersion := "1";
                     anticipatedResourceVersion := "srv-100";
                     anticipationSubnetRV := "1" |} ]};
     addrCache := {[ 7 := [167772162] ]};
     world := clusterOldLock; calls := [] |}.

(** ** Notions used for the properties of the address cache *)

(** The list is strictly increasing: the form in which a set of addresses
    is kept. *)
Fixpoint increasing (s : list Z) : Prop :=
  match s with
  | [] => True
  | x :: rest => Forall (Z.lt x) rest /\ increasing rest
  end.

(** The server refuses the next call as Invalid. *)
Definition clusterRefusing : Cluster :=
  clusterOf [subnetS1] [] [Some (apiError ReasonInvalid)].

(** The server fails the next call with an error that is no Invalid status
    but says so in its message. *)
Definition clusterObjecting : Cluster :=
  clusterOf [subnetS1] []
    [Some {| reason := ReasonUnknown;
             message := "admission webhook denied the request: INVALID owner" |}].

(** A lock in another namespace, owned by the attachment of that
    namespace that is also called [a1]; and a cluster where the attachment
    [ex/a1] is gone while its lock and that other lock exist. *)
Definition otherNamespaceLock : IPLock :=
  {| ipl_Namespace := "other"; ipl_Name := "v1-7-10-0-0-3"; ipl_UID := "uid-l3";
     ipl_CreationTimestamp := timeAt 60;
     ipl_OwnerReferences := [ownerRef "a1" "uid-other-a1"];
     ipl_SubnetName := "s1" |}.

Definition clusterDeleted : Cluster :=
  {| lockStore := {[ ("ex", "v1-7-10-0-0-2")%string := ownLock;
                     ("other", "v1-7-10-0-0-3")%string := otherNamespaceLock ]};
     attStore := ∅; attInformer := ∅;
     subnetInformer := subnetInformer clusterS1;
     lockInformer := [ownLock; otherNamespaceLock];
     clock := 100; faults := [] |}.

(** ** The lock event handlers of the IPAM controller

    A handler returns the keys it adds to the work queue, in the order of
    its [queue.Add] calls. *)

Definition OnLockNotify {W : Type} (ipl : IPLock) (exists_ : bool)
  : M W (list NamespacedName) :=
  match parseIPLockName (ipl_Name ipl) with
  | inr _ => ret []
  | inl (vni, addrU) =>
      bind (if exists_ then TakeAddress vni addrU else ReleaseAddress vni addrU)
           (fun changed =>
              ret (map (fun ownerName => (ipl_Namespace ipl, ownerName))
                       (OwningAttachments ipl)))
  end.

Definition OnLockCreate {W : Type} (obj : IPLock) : M W (list NamespacedName) :=
  OnLockNotify obj true.

Definition OnLockUpdate {W : Type} (old new : IPLock) : M W (list NamespacedName) :=
  OnLockNotify new true.

Definition OnLockDelete {W : Type} (obj : IPLock) : M W (list NamespacedName) :=
  OnLockNotify obj false.

(** Every set of the address cache is strictly increasing. *)
Definition cacheWellFormed {W : Type} (st : State W) : Prop :=
  map_Forall (fun _ s => increasing s) (addrCache st).

(** ** More of the subnet validator *)

Definition clearStaleRV (s : NamespacedName) (v : Validator) : Validator :=
  {| conflicts := conflicts v; staleRVs := delete s (staleRVs v) |}.

Definition updateStaleRV (s : NamespacedName) (rv : string) (v : Validator)
  : Validator :=
  {| conflicts := conflicts v; staleRVs := <[s := rv]> (staleRVs v) |}.

(** A key that is not in a Go map reads as the zero value, here the empty
    string. *)
Definition subnetIsStale (s : NamespacedName) (rv : string) (v : Validator)
  : bool * Validator :=
  if String.eqb (default ""%string (staleRVs v !! s)) rv then (true, v)
  else (false, {| conflicts := conflicts v; staleRVs := delete s (staleRVs v) |}).

Definition clearConflictsCache (s : NamespacedName) (v : Validator)
  : list NamespacedName * Validator :=
  match conflicts v !! s with
  | Some c => (rivals c, {| conflicts := delete s (conflicts v);
                            staleRVs := staleRVs v |})
  | None => ([], v)
  end.

(** [processDeletedSubnet], with the keys it adds to the work queue. *)
Definition processDeletedSubnet (s : NamespacedName) (v : Validator)
  : list NamespacedName * Validator :=
  clearConflictsCache s (clearStaleRV s v).

Section ValidatorRecord.

(** [enroller.Equal(c.ownerSummary)], a method of the absent package. *)
Variable SummaryEqual : Summary -> Summary -> bool.

Definition recordConflict (enroller enrollee : Summary) (v : Validator)
  : option error * Validator :=
  match conflicts v !! sm_NamespacedName enroller with
  | None => (Some (Errorf "conflicts cache not found"), v)
  | Some c =>
      if negb (SummaryEqual enroller (ownerSummary c))
      then (Some (Errorf "mismatch between live data and conflicts cache data"), v)
      else (None,
            {| conflicts :=
                 <[sm_NamespacedName enroller :=
                     {| ownerSummary := ownerSummary c;
                        rivals := rivals c ++ [sm_NamespacedName enrollee] |}]>
                   (conflicts v);
               staleRVs := staleRVs v |})
  end.

End ValidatorRecord.

(** Every conflicts cache is filed under the name of its owner. *)
Definition cachesKeyed (v : Validator) : Prop :=
  map_Forall (fun k c => sm_NamespacedName (ownerSummary c) = k) (conflicts v).

(** An address cache that holds the one address 10.0.0.5 on VNI 7. *)
Definition stateOneAddress0 : State Cluster :=
  {| atts := ∅; addrCache := {[ 7 := [167772165] ]}; world := clusterS1;
     calls := [] |}.

(** The attachment [a1] once its status names the lock [ownLock], and a
    cluster whose informers show that, together with a time slipper. *)
Definition attSettled : NetworkAttachment :=
  {| att_Namespace := "ex"; att_Name := "a1"; att_UID := "uid-a1";
     att_ResourceVersion := "2"; att_CreationTimestamp := timeAt 5;
     att_Subnet := "s1"; att_IPv4 := "10.0.0.2"; att_AddressVNI := 7;
     att_LockUID := "uid-l2" |}.

Definition clusterSettled : Cluster :=
  {| lockStore := {[ ("ex", "v1-7-10-0-0-2")%string := ownLock;
                     ("ex", "v1-7-10-0-0-9")%string := slipperLock ]};
     attStore := {[ ("ex", "a1")%string := attSettled ]};
     attInformer := {[ ("ex", "a1")%string := attSettled ]};
     subnetInformer := subnetInformer clusterS1;
     lockInformer := [slipperLock; ownLock];
     clock := 100; faults := [] |}.

(** Every address of the four-address subnet is in the cache. *)
Definition stateFull : State Cluster :=
  {| atts := ∅;
     addrCache := {[ 7 := [167772160; 167772161; 167772162; 167772163] ]};
     world := clusterS30; calls := [] |}.

(** Modelled from the spec: the method [Equal] of the absent package
    [subnet], which the spec does not describe; read by its name: the two
    summaries have the same fields. *)
Definition Summary_Equal (s1 s2 : Summary) : bool :=
  String.eqb (fst (sm_NamespacedName s1)) (fst (sm_NamespacedName s2))
  && String.eqb (snd (sm_NamespacedName s1)) (snd (sm_NamespacedName s2))
  && (sm_VNI s1 =? sm_VNI s2) && (sm_BaseU s1 =? sm_BaseU s2)
  && (sm_LastU s1 =? sm_LastU s2).

(** A subnet [ex/s3] that conflicts with [ex/s1], and [ex/s1] moved to
    another VNI. *)
Definition summaryRival : Summary :=
  {| sm_NamespacedName := ("ex", "s3")%string; sm_VNI := 20;
     sm_BaseU := 167772160; sm_LastU := 167772175 |}.
Definition summaryRenumbered : Summary :=
  {| sm_NamespacedName := ("ex", "s1")%string; sm_VNI := 21;
     sm_BaseU := 167772160; sm_LastU := 167772287 |}.

(** * Properties *)

Lemma ascii_compare_refl c : Ascii.compare c c = Eq.
Proof. unfold Ascii.compare. apply N.compare_refl. Qed.

Lemma string_compare_refl s : String.compare s s = Eq.
Proof. induction s as [|c s IH]; simpl; [done|]. by rewrite ascii_compare_refl. Qed.

Lemma ascii_compare_Gt_trans a b c :
  Ascii.compare a b = Gt -> Ascii.compare b c = Gt -> Ascii.compare a c = Gt.
Proof.
  unfold Ascii.compare. rewrite !N.compare_gt_iff. lia.
Qed.

Lemma string_compare_Gt_trans s1 : forall s2 s3,
  String.compare s1 s2 = Gt -> String.compare s2 s3 = Gt -> String.compare s1 s3 = Gt.
Proof.
  induction s1 as [|a s1 IH]; intros [|b s2] [|c s3]; simpl; try done.
  destruct (Ascii.compare a b) eqn:Eab; try done.
  - apply Ascii.compare_eq_iff in Eab. subst b.
    destruct (Ascii.compare a c) eqn:Eac; try done. apply IH.
  - intros _. destruct (Ascii.compare b c) eqn:Ebc; try done.
    + apply Ascii.compare_eq_iff in Ebc. subst c. by rewrite Eab.
    + intros _. by rewrite (ascii_compare_Gt_trans a b c).
Qed.

Lemma Compare_gt_iff a b : (GoStrings.Compare a b >? 0) = true <-> String.compare a b = Gt.
Proof. unfold GoStrings.Compare. destruct (String.compare a b); simpl; split; done. Qed.

Lemma Compare_antisym_gt a b :
  a <> b -> (GoStrings.Compare a b >? 0) = negb (GoStrings.Compare b a >? 0).
Proof.
  intros Hne. unfold GoStrings.Compare. rewrite (String.compare_antisym b a).
  destruct (String.compare a b) eqn:E; simpl; try done.
  apply String.compare_eq_iff in E. done.
Qed.

(** * The order of [time.Time] values *)

Lemma land_land_zero a b m : Z.land a m = 0 -> Z.land (Z.land a b) m = 0.
Proof.
  intros H. rewrite <- Z.land_assoc, (Z.land_comm b m), Z.land_assoc, H.
  apply Z.land_0_l.
Qed.

(** Without a monotonic reading on the left, [Before] compares the wall
    clocks. *)
Lemma Before_wall t u :
  GoTime.monotonic t = false ->
  GoTime.Before t u
  = (GoTime.sec t <? GoTime.sec u)
    || ((GoTime.sec t =? GoTime.sec u) && (GoTime.nsec t <? GoTime.nsec u)).
Proof.
  unfold GoTime.monotonic, GoTime.Before. intros H.
  apply negb_false_iff, Z.eqb_eq in H.
  by rewrite (land_land_zero _ (GoTime.wall u) _ H).
Qed.

Lemma Before_irrefl t : GoTime.Before t t = false.
Proof.
  unfold GoTime.Before. rewrite !Z.ltb_irrefl, andb_false_r.
  by destruct (negb _).
Qed.

Lemma Before_asym t u : GoTime.Before t u = true -> GoTime.Before u t = false.
Proof.
  unfold GoTime.Before. rewrite (Z.land_comm (GoTime.wall u) (GoTime.wall t)).
  destruct (negb _).
  - rewrite Z.ltb_lt, Z.ltb_ge. lia.
  - destruct (Z.ltb_spec (GoTime.sec t) (GoTime.sec u));
      destruct (Z.ltb_spec (GoTime.sec u) (GoTime.sec t));
      destruct (Z.eqb_spec (GoTime.sec t) (GoTime.sec u));
      destruct (Z.eqb_spec (GoTime.sec u) (GoTime.sec t));
      destruct (Z.ltb_spec (GoTime.nsec t) (GoTime.nsec u));
      destruct (Z.ltb_spec (GoTime.nsec u) (GoTime.nsec t));
      cbn [orb andb]; try done; lia.
Qed.

(** Neither of two times is before the other exactly when they denote the
    same instant. *)
Lemma Before_Equal t u :
  GoTime.Before t u || GoTime.Before u t = negb (GoTime.Equal t u).
Proof.
  unfold GoTime.Before, GoTime.Equal.
  rewrite (Z.land_comm (GoTime.wall u) (GoTime.wall t)).
  destruct (negb _).
  - destruct (Z.ltb_spec (GoTime.ext t) (GoTime.ext u));
      destruct (Z.ltb_spec (GoTime.ext u) (GoTime.ext t));
      destruct (Z.eqb_spec (GoTime.ext t) (GoTime.ext u));
      cbn [orb andb negb]; try done; lia.
  - destruct (Z.ltb_spec (GoTime.sec t) (GoTime.sec u));
      destruct (Z.ltb_spec (GoTime.sec u) (GoTime.sec t));
      destruct (Z.eqb_spec (GoTime.sec t) (GoTime.sec u));
      destruct (Z.eqb_spec (GoTime.sec u) (GoTime.sec t));
      destruct (Z.ltb_spec (GoTime.nsec t) (GoTime.nsec u));
      destruct (Z.ltb_spec (GoTime.nsec u) (GoTime.nsec t));
      destruct (Z.eqb_spec (GoTime.nsec t) (GoTime.nsec u));
      cbn [orb andb negb]; try done; lia.
Qed.

Lemma GoTime_Equal_refl t : GoTime.Equal t t = true.
Proof.
  unfold GoTime.Equal. rewrite !Z.eqb_refl. by destruct (negb _).
Qed.

Lemma Before_trans t u v :
  GoTime.monotonic t = false -> GoTime.monotonic u = false ->
  GoTime.Before t u = true -> GoTime.Before u v = true ->
  GoTime.Before t v = true.
Proof.
  intros Ht Hu. rewrite !Before_wall by done.
  destruct (Z.ltb_spec (GoTime.sec t) (GoTime.sec u));
    destruct (Z.ltb_spec (GoTime.sec u) (GoTime.sec v));
    destruct (Z.ltb_spec (GoTime.sec t) (GoTime.sec v));
    destruct (Z.eqb_spec (GoTime.sec t) (GoTime.sec u));
    destruct (Z.eqb_spec (GoTime.sec u) (GoTime.sec v));
    destruct (Z.eqb_spec (GoTime.sec t) (GoTime.sec v));
    destruct (Z.ltb_spec (GoTime.nsec t) (GoTime.nsec u));
    destruct (Z.ltb_spec (GoTime.nsec u) (GoTime.nsec v));
    destruct (Z.ltb_spec (GoTime.nsec t) (GoTime.nsec v));
    cbn [orb andb]; try done; lia.
Qed.

(** * The order of the parsed locks *)

Lemma IsBetterThan_irrefl x : IsBetterThan x x = false.
Proof.
  unfold IsBetterThan. rewrite bool_decide_false by (intros H; by apply H).
  unfold GoStrings.Compare. by rewrite string_compare_refl.
Qed.

Lemma IsBetterThan_asym x y :
  IsBetterThan x y = true -> IsBetterThan y x = false.
Proof.
  unfold IsBetterThan. repeat case_bool_decide; try congruence.
  - apply Before_asym.
  - destruct (decide (pl_UID x = pl_UID y)) as [->|Hne].
    + unfold GoStrings.Compare. by rewrite string_compare_refl.
    + rewrite (Compare_antisym_gt _ _ Hne). by intros ->%negb_true_iff.
Qed.

Lemma IsBetterThan_trans x y z :
  wallClock x -> wallClock y ->
  IsBetterThan x y = true -> IsBetterThan y z = true -> IsBetterThan x z = true.
Proof.
  unfold wallClock, IsBetterThan. intros Hx Hy.
  destruct (decide (pl_CreationTime x = pl_CreationTime y)) as [Exy|Nxy];
    destruct (decide (pl_CreationTime y = pl_CreationTime z)) as [Eyz|Nyz].
  - rewrite Exy, Eyz, !bool_decide_false by (intros H; by apply H).
    rewrite !Compare_gt_iff. apply string_compare_Gt_trans.
  - rewrite <- Exy in Nyz |- *.
    rewrite (bool_decide_false (pl_CreationTime x <> pl_CreationTime x))
      by (intros H; by apply H).
    rewrite !bool_decide_true by done. by intros _.
  - rewrite <- Eyz.
    rewrite (bool_decide_false (pl_CreationTime y <> pl_CreationTime y))
      by (intros H; by apply H).
    rewrite !bool_decide_true by done. by intros ? _.
  - rewrite (bool_decide_true (pl_CreationTime x <> _)),
      (bool_decide_true (pl_CreationTime y <> _)) by done.
    intros Hxy Hyz. pose proof (Before_trans _ _ _ Hx Hy Hxy Hyz) as Hxz.
    rewrite bool_decide_true; [done|].
    intros E. rewrite E, Before_irrefl in Hxz. done.
Qed.

Lemma IsBetterThan_total x y :
  GoTime.Equal (pl_CreationTime x) (pl_CreationTime y) = false \/
  (pl_CreationTime x = pl_CreationTime y /\ pl_UID x <> pl_UID y) ->
  IsBetterThan x y = negb (IsBetterThan y x).
Proof.
  unfold IsBetterThan. intros [HE|[E Hne]].
  - assert (pl_CreationTime x <> pl_CreationTime y) as N.
    { intros E. by rewrite E, GoTime_Equal_refl in HE. }
    rewrite !bool_decide_true by done.
    pose proof (Before_Equal (pl_CreationTime x) (pl_CreationTime y)) as H.
    rewrite HE in H. cbn [negb] in H.
    destruct (GoTime.Before (pl_CreationTime x) (pl_CreationTime y)) eqn:B.
    + by rewrite (Before_asym _ _ B).
    + cbn [orb] in H. by rewrite H.
  - rewrite E, !bool_decide_false by (intros H; by apply H).
    by apply Compare_antisym_gt.
Qed.

(** When neither of two locks is better than the other, their creation
    times denote the same instant; when the times are also identical, so
    are the UIDs. *)
Lemma IsBetterThan_neither x y :
  IsBetterThan x y = false -> IsBetterThan y x = false ->
  GoTime.Equal (pl_CreationTime x) (pl_CreationTime y) = true /\
  (pl_CreationTime x = pl_CreationTime y -> orderKey x = orderKey y).
Proof.
  intros Hxy Hyx.
  destruct (GoTime.Equal (pl_CreationTime x) (pl_CreationTime y)) eqn:HE.
  - split; [done|]. intros E. unfold orderKey. rewrite E. f_equal.
    destruct (decide (pl_UID x = pl_UID y)) as [|Hne]; [done|].
    rewrite (IsBetterThan_total x y) in Hxy by (right; done).
    by rewrite Hyx in Hxy.
  - rewrite (IsBetterThan_total x y) in Hxy by (by left).
    by rewrite Hyx in Hxy.
Qed.

(** C7, as amended.  [IsBetterThan] is irreflexive and asymmetric, and it is
    transitive on locks whose creation times carry no monotonic clock
    reading.  Of two locks exactly one is better than the other when their
    creation times denote different instants, or are identical while the
    UIDs differ.  Neither is better when the creation times and the UIDs
    are identical, whatever the VNI and the address (so the order is not
    total modulo [Equal]), nor when the creation times denote the same
    instant without being identical ([!=] holds of them, and [Before] in
    neither direction). *)
Theorem IsBetterThan_strict_order :
  (forall x, IsBetterThan x x = false) /\
  (forall x y, IsBetterThan x y = true -> IsBetterThan y x = false) /\
  (forall x y z, wallClock x -> wallClock y -> wallClock z ->
                 IsBetterThan x y = true -> IsBetterThan y z = true ->
                 IsBetterThan x z = true) /\
  (forall x y, GoTime.Equal (pl_CreationTime x) (pl_CreationTime y) = false \/
               (pl_CreationTime x = pl_CreationTime y /\ pl_UID x <> pl_UID y) ->
               IsBetterThan x y = negb (IsBetterThan y x)) /\
  (forall x y, (pl_CreationTime x = pl_CreationTime y /\ pl_UID x = pl_UID y) \/
               (pl_CreationTime x <> pl_CreationTime y /\
                GoTime.Equal (pl_CreationTime x) (pl_CreationTime y) = true) ->
               IsBetterThan x y = false /\ IsBetterThan y x = false).
Proof.
  split_and!.
  - apply IsBetterThan_irrefl.
  - apply IsBetterThan_asym.
  - intros x y z Hx Hy _. by apply IsBetterThan_trans.
  - apply IsBetterThan_total.
  - intros x y [[Et Eu]|[N HE]]; unfold IsBetterThan.
    + rewrite Et, Eu, !bool_decide_false by (intros H; by apply H).
      unfold GoStrings.Compare. by rewrite string_compare_refl.
    + rewrite !bool_decide_true by done.
      pose proof (Before_Equal (pl_CreationTime x) (pl_CreationTime y)) as H.
      rewrite HE in H. by apply orb_false_iff in H.
Qed.

Lemma IsBetterThan_strict_order_witness :
  IsBetterThan lockA lockB = false /\
  IsBetterThan lockB lockC = true /\
  IsBetterThan lockA lockB = negb (IsBetterThan lockB lockA) /\
  IsBetterThan lockA lockC = negb (IsBetterThan lockC lockA) /\
  (IsBetterThan lockA lockA' = false /\ IsBetterThan lockA' lockA = false) /\
  (IsBetterThan lockB lockD = false /\ IsBetterThan lockD lockB = false).
Proof.
  destruct IsBetterThan_strict_order as (_ & Hasym & Htrans & Htot & Hnone).
  split_and!.
  - apply (Hasym lockB lockA). reflexivity.
  - apply (Htrans lockB lockA lockC); reflexivity.
  - apply (Htot lockA lockB). right. split; [reflexivity|discriminate].
  - apply (Htot lockA lockC). left. reflexivity.
  - apply (Hnone lockA lockA'). left. split; reflexivity.
  - apply (Hnone lockA lockA'). left. split; reflexivity.
  - apply (Hnone lockB lockD). right. split; [discriminate|reflexivity].
  - apply (Hnone lockB lockD). right. split; [discriminate|reflexivity].
Defined.

(** C7 as stated fails.  [lockA] and [lockA'] are not [Equal] (their VNIs
    differ), yet neither is better than the other.  The same holds of
    [lockB] and [lockD], made at the same instant, whose creation times
    differ in the Location.  And the order is not transitive where some
    creation times carry a monotonic clock reading and others do not:
    [lockM1] is better than [lockM2] (by the monotonic readings) and
    [lockM2] better than [lockW] (by the wall clocks), but [lockW] is better
    than [lockM1]. *)
Lemma IsBetterThan_not_total_modulo_Equal :
  (Equal lockA lockA' = false /\
   IsBetterThan lockA lockA' = false /\ IsBetterThan lockA' lockA = false) /\
  (Equal lockB lockD = false /\
   IsBetterThan lockB lockD = false /\ IsBetterThan lockD lockB = false) /\
  (IsBetterThan lockM1 lockM2 = true /\ IsBetterThan lockM2 lockW = true /\
   IsBetterThan lockM1 lockW = false /\ IsBetterThan lockW lockM1 = true).
Proof. vm_compute. repeat split. Qed.

Lemma Best_member x l : Best (x :: l) ∈ x :: l.
Proof.
  cbn [Best]. revert x. induction l as [|y l IH]; intros x; cbn [fold_left].
  - set_solver.
  - destruct (IsBetterThan y x).
    + pose proof (IH y). set_solver.
    + pose proof (IH x). set_solver.
Qed.

(** C9.  [Best] of the empty list is the zero [ParsedLock]; [Best] of a
    non-empty list is one of its elements. *)
Theorem Best_zero_or_member :
  Best [] = zeroParsedLock /\ forall x l, Best (x :: l) ∈ x :: l.
Proof. split; [reflexivity|]. apply Best_member. Qed.

(** * C10 *)
Lemma Remove_singleton a : Uint32set.Remove a [a] = ([], true).
Proof. simpl. by rewrite Z.eqb_refl. Qed.

(** C10.  [ReleaseAddress] on a VNI without an entry in [addrCache]
    returns [false] and leaves the state as it is; when it removes the
    only address of the VNI's set it deletes the entry of that VNI; and in
    every case it returns, leaves no empty set at that VNI and does not
    touch the other VNIs. *)
Theorem ReleaseAddress_spec {W : Type} (vni addrU : Z) (st : State W) :
  (addrCache st !! vni = None -> ReleaseAddress vni addrU st = Returns false st) /\
  (addrCache st !! vni = Some [addrU] ->
   ReleaseAddress vni addrU st
   = Returns true (set_addrCache (fun c => delete vni c) st)) /\
  (exists changed st', ReleaseAddress vni addrU st = Returns changed st' /\
     addrCache st' !! vni <> Some [] /\
     forall vni', vni' <> vni -> addrCache st' !! vni' = addrCache st !! vni').
Proof.
  unfold ReleaseAddress. split; [|split].
  - intros E. by rewrite E.
  - intros E. rewrite E. by rewrite Remove_singleton.
  - destruct (addrCache st !! vni) as [addrs|] eqn:E.
    + destruct (Uint32set.Remove addrU addrs) as [addrs' changed] eqn:ER.
      eexists _, _. split; [reflexivity|]. simpl.
      destruct addrs' as [|y r]; simpl.
      * split; [by rewrite lookup_delete_eq|]. intros. by rewrite lookup_delete_ne.
      * split; [by rewrite lookup_insert_eq|]. intros. by rewrite lookup_insert_ne.
    + eexists _, _. split; [reflexivity|]. split; [by rewrite E|done].
Qed.

Lemma ReleaseAddress_spec_witness :
  ReleaseAddress 7 167772162 stateOneAddress
  = Returns true (set_addrCache (fun c => delete 7 c) stateOneAddress) /\
  ReleaseAddress 8 167772162 stateOneAddress = Returns false stateOneAddress.
Proof.
  split.
  - apply (proj1 (proj2 (ReleaseAddress_spec 7 167772162 stateOneAddress))).
    reflexivity.
  - apply (proj1 (ReleaseAddress_spec 8 167772162 stateOneAddress)).
    reflexivity.
Defined.

(** * C2 *)


Lemma AddOneInRange_in_range lo hi s s' x :
  Uint32set.AddOneInRange lo hi s = (s', (x, true)) -> lo <= x <= hi.
Proof.
  unfold Uint32set.AddOneInRange.
  destruct (Z.leb_spec lo (Uint32set.firstFreeFrom lo s));
    destruct (Z.leb_spec (Uint32set.firstFreeFrom lo s) hi); simpl; intros H';
    inv H'. lia.
Qed.

Lemma PickAddress_in_range {W : Type} vni lo hi (st st' : State W) x :
  PickAddress vni lo hi st = Returns (x, true) st' -> lo <= x <= hi.
Proof.
  unfold PickAddress.
  destruct (Uint32set.AddOneInRange lo hi _) as [s' [y ok]] eqn:E.
  intros H; inv H. eapply AddOneInRange_in_range; eauto.
Qed.

Lemma lockLoop_result {unicode : GoStrings.Unicode}
    {W : Type} (env : Client W) fuel ns name att vni ipU ip
      lockName lockForStatus ipl st l ip' err st' :
  lockLoop env fuel ns name att vni ipU ip lockName lockForStatus ipl st
  = Returns (l, ip', err) st' ->
  ip' = ip /\ pl_addrU l = pl_addrU lockForStatus /\ pl_VNI l = pl_VNI lockForStatus
  /\ pl_ns l = pl_ns lockForStatus /\ pl_name l = pl_name lockForStatus.
Proof.
  revert st. induction fuel as [|fuel IH]; intros st; simpl; [done|].
  unfold bind, lockCreate.
  destruct (IPLocks_Create env ns ipl (world st)) as [[ipl2|e] w].
  - unfold ret. intros H; inv H. done.
  - destruct (IsAlreadyExists e).
    + unfold lockGet. simpl.
      destruct (IPLocks_Get env ns lockName w) as [[ipl2|e2] w2].
      * destruct (GetOwner ipl2 "NetworkAttachment") as [on ou].
        destruct (_ && _); unfold ret; intros H; inv H; done.
      * destruct (IsNotFound e2); [apply IH|]. unfold ret; intros H; inv H; done.
    + destruct (ReleaseAddress vni ipU _) as [b st1| |]; try done.
      destruct (_ || _); unfold ret; intros H; inv H; done.
Qed.

Lemma pickRange_small base last :
  0 <= base <= last -> last < 2 ^ 32 -> last - base < 4 ->
  pickRange base last = (base, last).
Proof.
  intros. unfold pickRange, u32. rewrite Z.mod_small by lia.
  destruct (Z.geb_spec (last - base) 4); [lia|done].
Qed.

Lemma pickRange_large base last :
  0 <= base <= last -> last < 2 ^ 32 -> 4 <= last - base ->
  pickRange base last = (base + 2, last - 1).
Proof.
  intros. unfold pickRange, u32. rewrite !Z.mod_small by lia.
  destruct (Z.geb_spec (last - base) 4); [done|lia].
Qed.

(** C2, as amended.  For a block [base, last] the range handed to
    [PickAddress] is the whole block when [last - base < 4] (at most four
    addresses) and [base+2, last-1] when [last - base >= 4] (five addresses
    or more); an address that [pickAndLockAddress] picks lies in that
    range. *)
Theorem pickAndLockAddress_range {unicode : GoStrings.Unicode}
    {W : Type} (sgv : string) (env : Client W)
    fuel ns name att subnetName vni base last :
  0 <= base <= last -> last < 2 ^ 32 ->
  (last - base < 4 -> pickRange base last = (base, last)) /\
  (4 <= last - base -> pickRange base last = (base + 2, last - 1)) /\
  forall st l ip err st',
    pickAndLockAddress sgv env fuel ns name att subnetName vni base last st
    = Returns (l, ip, err) st' ->
    ip <> [] ->
    ip = Uint32ToIPv4 (pl_addrU l) /\
    (last - base < 4 -> base <= pl_addrU l <= last) /\
    (4 <= last - base -> base + 2 <= pl_addrU l <= last - 1).
Proof.
  intros Hb Hl.
  split; [by apply pickRange_small|]. split; [by apply pickRange_large|].
  intros st l ip err st'. unfold pickAndLockAddress.
  destruct (pickRange base last) as [addrMin addrMax] eqn:ER.
  unfold bind.
  destruct (PickAddress vni addrMin addrMax st) as [[x ok] st1| |] eqn:EP; try done.
  destruct ok; cbn [negb].
  - destruct (makeIPLockName2 vni (Uint32ToIPv4 x)) as [lockName|]; [|done].
    intros HL _. apply lockLoop_result in HL as (-> & Ha & _). simpl in Ha.
    rewrite Ha. apply PickAddress_in_range in EP.
    split; [done|]. split; intros Hsz.
    + rewrite pickRange_small in ER by done. inv ER. done.
    + rewrite pickRange_large in ER by done. inv ER. done.
  - unfold ret. intros H; inv H. done.
Qed.

(** * C8 *)
(** C8, as amended.  For a subnet with an entry in the conflicts cache,
    [updateConflictsCache] returns the cached rivals and empties the list
    exactly when the VNI of the new summary differs from the cached one or
    the new summary does not [Contains] the cached one; otherwise it
    returns nothing and keeps the rivals.  In every case the new summary
    becomes [ownerSummary]; without an entry, one with no rivals is
    created and nothing is returned; other entries are left alone. *)
Theorem updateConflictsCache_spec (Contains : Summary -> Summary -> bool)
    (s : Summary) (v : Validator) :
  let '(harvested, v') := updateConflictsCache Contains s v in
  (forall c, conflicts v !! sm_NamespacedName s = Some c ->
     sm_VNI s <> sm_VNI (ownerSummary c) \/ Contains s (ownerSummary c) = false ->
     harvested = rivals c /\
     conflicts v' !! sm_NamespacedName s = Some {| ownerSummary := s; rivals := [] |}) /\
  (forall c, conflicts v !! sm_NamespacedName s = Some c ->
     sm_VNI s = sm_VNI (ownerSummary c) -> Contains s (ownerSummary c) = true ->
     harvested = [] /\
     conflicts v' !! sm_NamespacedName s
     = Some {| ownerSummary := s; rivals := rivals c |}) /\
  (conflicts v !! sm_NamespacedName s = None ->
     harvested = [] /\
     conflicts v' !! sm_NamespacedName s = Some {| ownerSummary := s; rivals := [] |}) /\
  (exists c', conflicts v' !! sm_NamespacedName s = Some c' /\ ownerSummary c' = s) /\
  (forall k, k <> sm_NamespacedName s -> conflicts v' !! k = conflicts v !! k) /\
  staleRVs v' = staleRVs v.
Proof.
  unfold updateConflictsCache.
  destruct (conflicts v !! sm_NamespacedName s) as [c|] eqn:E.
  - destruct (Z.eqb_spec (sm_VNI s) (sm_VNI (ownerSummary c))) as [Ev|Nv];
      destruct (Contains s (ownerSummary c)) eqn:EC; cbn [negb orb];
      cbn [conflicts staleRVs]; rewrite lookup_insert_eq;
      (split_and!;
       [ intros c0 [= <-] Hc; try done; destruct Hc; congruence
       | intros c0 [= <-] H1 H2; try done; congruence
       | done
       | eexists; split; [reflexivity|done]
       | intros k Hk; by rewrite lookup_insert_ne
       | done ]).
  - cbn [conflicts staleRVs]. rewrite lookup_insert_eq.
    split_and!; try done.
    + eexists; split; [reflexivity|done].
    + intros k Hk. by rewrite lookup_insert_ne.
Qed.

Lemma updateConflictsCache_spec_witness :
  fst (updateConflictsCache Summary_Contains summaryMoved validatorWithRival)
  = [("ex", "s2")] /\
  conflicts (snd (updateConflictsCache Summary_Contains summaryMoved validatorWithRival))
    !! ("ex", "s1") = Some {| ownerSummary := summaryMoved; rivals := [] |}.
Proof.
  pose proof (updateConflictsCache_spec Summary_Contains summaryMoved
                validatorWithRival) as H.
  destruct (updateConflictsCache Summary_Contains summaryMoved validatorWithRival)
    as [harvested v'].
  destruct H as (H & _).
  apply (H {| ownerSummary := summaryOld; rivals := [("ex", "s2")] |}).
  - reflexivity.
  - right. reflexivity.
Defined.

(** C8 as stated fails when the block of a subnet grows (10.0.0.0/25 to
    10.0.0.0/24 on the same VNI): the CIDR block differs, yet nothing is
    harvested and the rival stays listed. *)
Lemma updateConflictsCache_keeps_rivals_when_block_grows :
  (sm_BaseU summaryGrown, sm_LastU summaryGrown)
    <> (sm_BaseU summaryOld, sm_LastU summaryOld) /\
  conflicts validatorWithRival !! ("ex", "s1")
    = Some {| ownerSummary := summaryOld; rivals := [("ex", "s2")] |} /\
  fst (updateConflictsCache Summary_Contains summaryGrown validatorWithRival) = [] /\
  conflicts (snd (updateConflictsCache Summary_Contains summaryGrown validatorWithRival))
    !! ("ex", "s1")
    = Some {| ownerSummary := summaryGrown; rivals := [("ex", "s2")] |}.
Proof. split; [discriminate|]. repeat split. Qed.

(** * C6 *)

Lemma Split_freeOf sep s : freeOf sep s -> GoStrings.Split sep s = [s].
Proof.
  induction s as [|c s IH]; simpl; [done|]. intros [Hc Hs].
  destruct (Ascii.eqb_spec c sep); [done|]. by rewrite IH.
Qed.

Lemma Split_app sep s rest :
  freeOf sep s ->
  GoStrings.Split sep (s +:+ String sep rest) = s :: GoStrings.Split sep rest.
Proof.
  induction s as [|c s IH]; simpl.
  - intros _. by rewrite Ascii.eqb_refl.
  - intros [Hc Hs]. destruct (Ascii.eqb_spec c sep); [done|]. by rewrite IH.
Qed.

Lemma FormatUint_freeOf_dash n : freeOf "-" (Strconv.FormatUint n).
Proof.
  unfold Strconv.FormatUint. induction (N.to_uint (Z.to_N n)); simpl; [done|..];
    (split; [discriminate|assumption]).
Qed.

Lemma FormatUint_nonempty n : Strconv.FormatUint n <> ""%string.
Proof.
  unfold Strconv.FormatUint. destruct (Z.to_N n) as [|p]; [done|].
  simpl. pose proof (DecimalPos.Unsigned.to_uint_nonnil p) as Hp.
  destruct (Pos.to_uint p); done.
Qed.

Lemma ParseUint_FormatUint n bits :
  0 <= n ->
  Strconv.ParseUint (Strconv.FormatUint n) bits
  = if n <? 2 ^ bits then inl n else inr Strconv.ErrRange.
Proof.
  intros Hn. unfold Strconv.ParseUint.
  destruct (String.eqb_spec (Strconv.FormatUint n) "") as [E|_].
  { by apply FormatUint_nonempty in E. }
  unfold Strconv.FormatUint. rewrite NilEmpty.usu.
  rewrite DecimalN.Unsigned.of_to. by rewrite Z2N.id.
Qed.

Lemma u32_small z : 0 <= z < 2 ^ 32 -> u32 z = z.
Proof. intros. unfold u32. by rewrite Z.mod_small. Qed.

Lemma IPv4ToUint32_bytes ip a b c d :
  Gonet.To4 ip = [a; b; c; d] ->
  0 <= a < 256 -> 0 <= b < 256 -> 0 <= c < 256 -> 0 <= d < 256 ->
  IPv4ToUint32 ip = Some (addrOf a b c d).
Proof.
  intros E Ha Hb Hc Hd. unfold IPv4ToUint32. rewrite E.
  rewrite !Z.shiftl_mul_pow2 by lia. f_equal. apply u32_small.
  unfold addrOf. lia.
Qed.

Lemma Uint32ToIPv4_addrOf a b c d :
  0 <= a < 256 -> 0 <= b < 256 -> 0 <= c < 256 -> 0 <= d < 256 ->
  Uint32ToIPv4 (addrOf a b c d) = Gonet.IPv4 a b c d.
Proof.
  intros Ha Hb Hc Hd. unfold Uint32ToIPv4, u8, addrOf.
  rewrite !Z.shiftr_div_pow2 by lia.
  change (2 ^ 8) with 256; change (2 ^ 16) with 65536;
    change (2 ^ 24) with 16777216.
  f_equal; [| | |]; Z.div_mod_to_equations; lia.
Qed.

Lemma parseAddrBytes_bytes a b c d :
  0 <= a < 256 -> 0 <= b < 256 -> 0 <= c < 256 -> 0 <= d < 256 ->
  parseAddrBytes [Strconv.FormatUint a; Strconv.FormatUint b;
                  Strconv.FormatUint c; Strconv.FormatUint d] 0
  = inl (addrOf a b c d).
Proof.
  intros Ha Hb Hc Hd. simpl.
  rewrite !ParseUint_FormatUint by lia.
  change (2 ^ 8) with 256.
  destruct (Z.ltb_spec a 256); [|lia]. destruct (Z.ltb_spec b 256); [|lia].
  destruct (Z.ltb_spec c 256); [|lia]. destruct (Z.ltb_spec d 256); [|lia].
  f_equal. unfold addrOf.
  rewrite (u32_small a), (u32_small b), (u32_small c), (u32_small d) by lia.
  change (u32 0) with 0. rewrite Z.add_0_l. rewrite (u32_small a) by lia.
  rewrite (u32_small (a * 256)) by lia. rewrite (u32_small (a * 256 + b)) by lia.
  rewrite (u32_small ((a * 256 + b) * 256)) by lia.
  rewrite (u32_small ((a * 256 + b) * 256 + c)) by lia.
  rewrite (u32_small (((a * 256 + b) * 256 + c) * 256)) by lia.
  rewrite u32_small by lia. lia.
Qed.

Lemma append_String c s t : String c s +:+ t = String c (s +:+ t).
Proof. reflexivity. Qed.

Lemma append_Empty t : "" +:+ t = t.
Proof. reflexivity. Qed.

Lemma parse_make v ip a b c d :
  Gonet.To4 ip = [a; b; c; d] -> 0 <= v ->
  0 <= a < 256 -> 0 <= b < 256 -> 0 <= c < 256 -> 0 <= d < 256 ->
  option_map parseIPLockName (makeIPLockName2 v ip)
  = Some (if v <? 2 ^ 21 then inl (v, addrOf a b c d)
          else inr (Errorf "VNI in lockName is malformed")).
Proof.
  intros E Hv Ha Hb Hc Hd. unfold makeIPLockName2. rewrite E.
  cbn [option_map]. f_equal. unfold parseIPLockName.
  rewrite !append_String, !append_Empty.
  cbn [GoStrings.Split Ascii.eqb Bool.eqb].
  rewrite !Split_app by apply FormatUint_freeOf_dash.
  rewrite Split_freeOf by apply FormatUint_freeOf_dash.
  cbn [String.eqb Ascii.eqb Bool.eqb negb].
  rewrite ParseUint_FormatUint by lia.
  destruct (Z.ltb_spec v (2 ^ 21)); [|done].
  rewrite parseAddrBytes_bytes by done. rewrite u32_small by lia. done.
Qed.

(** C6.  For a VNI [v <= 2^21 - 1] and an IPv4 address [a.b.c.d],
    [parseIPLockName] of [makeIPLockName2 v ip] gives back [v] and the
    number of the address, from which [Uint32ToIPv4] rebuilds the address;
    the name made for [v = 2^21] is rejected. *)
Theorem lockName_roundtrip (v : Z) (ip : Gonet.IP) (a b c d : Z) :
  Gonet.To4 ip = [a; b; c; d] ->
  0 <= a < 256 -> 0 <= b < 256 -> 0 <= c < 256 -> 0 <= d < 256 ->
  (0 <= v <= 2 ^ 21 - 1 ->
   option_map parseIPLockName (makeIPLockName2 v ip)
     = Some (inl (v, addrOf a b c d)) /\
   IPv4ToUint32 ip = Some (addrOf a b c d) /\
   Uint32ToIPv4 (addrOf a b c d) = Gonet.IPv4 a b c d) /\
  option_map parseIPLockName (makeIPLockName2 (2 ^ 21) ip)
    = Some (inr (Errorf "VNI in lockName is malformed")).
Proof.
  intros E Ha Hb Hc Hd. split.
  - intros Hv. rewrite (parse_make v ip a b c d) by (done || lia).
    destruct (Z.ltb_spec v (2 ^ 21)); [|lia].
    split; [done|]. split; [by apply IPv4ToUint32_bytes|by apply Uint32ToIPv4_addrOf].
  - by rewrite (parse_make (2 ^ 21) ip a b c d).
Qed.

Lemma lockName_roundtrip_witness :
  option_map parseIPLockName (makeIPLockName2 2097151 [10; 0; 0; 5])
    = Some (inl (2097151, addrOf 10 0 0 5)) /\
  option_map parseIPLockName (makeIPLockName2 (2 ^ 21) [10; 0; 0; 5])
    = Some (inr (Errorf "VNI in lockName is malformed")).
Proof.
  destruct (lockName_roundtrip 2097151 [10; 0; 0; 5] 10 0 0 5) as [H1 H2];
    [reflexivity | lia | lia | lia | lia |].
  split; [apply H1; lia | exact H2].
Defined.

(** * Frame lemmas *)

Section Frames.
Context {W : Type}.
Variable parseIPv6 : string -> Gonet.IP.
Variable env : Client W.

Lemma lockGet_inv ns n (st : State W) r st' :
  lockGet env ns n st = Returns r st' ->
  (r, world st') = IPLocks_Get env ns n (world st) /\
  atts st' = atts st /\ addrCache st' = addrCache st /\
  calls st' = CallGet ns n :: calls st.
Proof.
  unfold lockGet. destruct (IPLocks_Get env ns n (world st)) as [r0 w].
  intros H; inv H. done.
Qed.

Lemma deleteIPLockObject_inv p (st : State W) :
  exists e st', deleteIPLockObject env p st = Returns e st' /\
    atts st' = atts st /\ addrCache st' = addrCache st /\
    calls st' = CallDelete p :: calls st.
Proof.
  unfold deleteIPLockObject.
  destruct (IPLocks_Delete env _ _ _ _) as [[e|] w].
  - destruct (_ || _); eexists _, _; (split; [reflexivity|done]).
  - eexists _, _; (split; [reflexivity|done]).
Qed.

Lemma releaseLocks_inv l : forall (st : State W),
  exists e st' done,
    releaseLocks env l st = Returns e st' /\
    atts st' = atts st /\ addrCache st' = addrCache st /\
    calls st' = map CallDelete done ++ calls st /\
    done ⊆ l.
Proof.
  induction l as [|p l IH]; intros st; simpl.
  - exists None, st, []. done.
  - unfold bind.
    destruct (deleteIPLockObject_inv p st) as (e & st1 & -> & Ha & Hc & Hl).
    destruct e as [e|].
    + exists (Some e), st1, [p]. split; [done|]. split_and!; try done.
      set_solver.
    + destruct (IH st1) as (e' & st' & done & -> & Ha' & Hc' & Hl' & Hsub).
      exists e', st', (done ++ [p]). split; [done|].
      split_and!; try congruence.
      * rewrite Hl', Hl, map_app, <- app_assoc. done.
      * set_solver.
Qed.

Lemma considerStatusLock_inv ns name att uid vni base last b (st : State W) b' st' :
  considerStatusLock parseIPv6 env ns name att uid vni base last b st
  = Returns b' st' ->
  atts st' = atts st /\ addrCache st' = addrCache st /\
  (exists gets, calls st' = gets ++ calls st /\ forall p, CallDelete p ∉ gets) /\
  (b' = b \/ exists ipl, b' = consider att uid vni base last ipl b).
Proof.
  assert (exists gets : list Call, calls st = gets ++ calls st /\
                                   forall p, CallDelete p ∉ gets) as Hnil.
  { exists []. split; [done|]. set_solver. }
  unfold considerStatusLock.
  destruct att as [a|]; [|by intros H; inv H; eauto 10].
  destruct (String.eqb _ _); [by intros H; inv H; eauto 10|].
  destruct (negb _); [by intros H; inv H; eauto 10|].
  destruct (IPv4ToUint32 _) as [u|]; [|done].
  destruct (bool_decide _); [by intros H; inv H; eauto 10|].
  destruct (makeIPLockName2 _ _) as [antName|]; [|done].
  unfold bind. destruct (lockGet env ns antName st) as [r st1| |] eqn:EG; try done.
  apply lockGet_inv in EG as (_ & Ha & Hc & Hl).
  assert (exists gets : list Call, calls st1 = gets ++ calls st /\
                                   forall p, CallDelete p ∉ gets) as Hd.
  { exists [CallGet ns antName]. split; [done|]. set_solver. }
  destruct r as [ipl|e]; [destruct (String.eqb _ _)|]; intros H; inv H; eauto 10.
Qed.

End Frames.

Section Analysis.
Context {W : Type}.
Variable parseIPv6 : string -> Gonet.IP.
Variable env : Client W.

Lemma analyzeLocks_inv ns name att nadat subnetName subnetRV vni base last
      owned (st : State W) an st' :
  iplIndexer_ByIndex env name (world st) = inl owned ->
  analyzeLocks parseIPv6 env ns name att nadat subnetName subnetRV vni base last st
  = Returns an st' ->
  exists b st1 st2,
    considerStatusLock parseIPv6 env ns name att (statusLockUIDOf att) vni base last
      (fold_left (fun b ipl => consider att (statusLockUIDOf att) vni base last ipl b)
                 owned emptyBins) st = Returns b st1 /\
    invalidateAnticipation att nadat subnetRV st1 = Returns tt st2 /\
    releaseLocks env (fst (AddListFunc (undesiredLocks b) (snd (chooseLocks att b)))) st2
    = Returns (an_err an) st' /\
    an_lockInStatus an = lockInStatus b /\
    an_lockForStatus an = fst (chooseLocks att b) /\
    an_ok an = match an_err an with Some _ => false | None => true end /\
    an_subnetName an = subnetName /\ an_subnetRV an = subnetRV /\
    an_desiredVNI an = vni /\ an_desiredBaseU an = base /\ an_desiredLastU an = last.
Proof.
  intros Hidx. unfold analyzeLocks.
  unfold bind at 1. unfold ByIndex, gets. rewrite Hidx.
  fold (statusLockUIDOf att).
  unfold bind at 1.
  destruct (considerStatusLock _ _ _ _ _ _ _ _ _ _ st) as [b st1| |] eqn:E1; try done.
  unfold bind at 1.
  destruct (invalidateAnticipation att nadat subnetRV st1) as [[] st2| |] eqn:E2;
    try done.
  destruct (chooseLocks att b) as [lfs utr] eqn:EC.
  unfold bind at 1.
  destruct (releaseLocks env _ st2) as [e st3| |] eqn:E3; try done.
  unfold ret. intros H; inv H. cbn.
  exists b, st1, st2. rewrite EC. split_and!; done.
Qed.

Lemma invalidateAnticipation_inv att k subnetRV d (st : State W) :
  atts st !! k = Some d ->
  invalidateAnticipation att (Some k) subnetRV st
  = Returns tt (if anticipationInvalid att subnetRV d
                then set_atts (fun m => <[k := zeroNetworkAttachmentData]> m) st
                else st).
Proof.
  intros Hk. unfold invalidateAnticipation, bind, deref. rewrite Hk.
  destruct (anticipationInvalid att subnetRV d); done.
Qed.

Lemma invalidateAnticipation_frame att nadat subnetRV (st st' : State W) :
  invalidateAnticipation att nadat subnetRV st = Returns tt st' ->
  addrCache st' = addrCache st /\ calls st' = calls st /\ world st' = world st.
Proof.
  unfold invalidateAnticipation. destruct nadat as [k|]; [|by intros H; inv H].
  unfold bind, deref. destruct (atts st !! k); [|done].
  destruct (anticipationInvalid _ _ _); intros H; inv H; done.
Qed.

(** The anticipation after [analyzeLocks]. *)
Lemma analyzeLocks_atts ns name att k d subnetName subnetRV vni base last
      owned (st : State W) an st' :
  iplIndexer_ByIndex env name (world st) = inl owned ->
  atts st !! k = Some d ->
  analyzeLocks parseIPv6 env ns name att (Some k) subnetName subnetRV vni base last st
  = Returns an st' ->
  atts st' = if anticipationInvalid att subnetRV d
             then <[k := zeroNetworkAttachmentData]> (atts st) else atts st.
Proof.
  intros Hidx Hk Hrun.
  destruct (analyzeLocks_inv _ _ _ _ _ _ _ _ _ _ _ _ _ Hidx Hrun)
    as (b & st1 & st2 & E1 & E2 & E3 & _).
  apply considerStatusLock_inv in E1 as (Ha1 & _).
  rewrite (invalidateAnticipation_inv att k subnetRV d st1) in E2
    by (by rewrite Ha1).
  destruct (releaseLocks_inv env
              (fst (AddListFunc (undesiredLocks b) (snd (chooseLocks att b)))) st2)
    as (e & st3 & done & E3' & Ha3 & _).
  rewrite E3 in E3'. inv E3'. rewrite Ha3.
  destruct (anticipationInvalid att subnetRV d); simpl; by rewrite Ha1.
Qed.

End Analysis.

(** * Lists of parsed locks *)

Lemma removeFirst_subset l e l' : removeFirst l e = Some l' -> l' ⊆ l.
Proof.
  revert l'. induction l as [|x l IH]; intros l'; simpl; [done|].
  destruct (Equal x e).
  - intros [= <-]. set_solver.
  - destruct (removeFirst l e) as [r|]; [|done]. intros [= <-].
    pose proof (IH r eq_refl). set_solver.
Qed.

Lemma RemFunc_subset l e : fst (RemFunc l e) ⊆ l.
Proof.
  unfold RemFunc. destruct l as [|x [|y l]]; [done| |].
  - destruct (Equal e x); simpl; set_solver.
  - destruct (removeFirst _ e) as [r|] eqn:E; simpl; [|done].
    by apply removeFirst_subset in E.
Qed.

Lemma AddFunc_subset l e : fst (AddFunc l e) ⊆ l ++ [e].
Proof.
  unfold AddFunc. destruct l as [|x l]; [set_solver|].
  destruct (existsb _ _); simpl; set_solver.
Qed.

Lemma AddListFunc_subset l2 : forall l, fst (AddListFunc l l2) ⊆ l ++ l2.
Proof.
  unfold AddListFunc.
  assert (forall l d, (fold_left
            (fun '(with_, diff) elt =>
               let '(w, diffHere) := AddFunc with_ elt in (w, diff || diffHere))
            l2 (l, d)).1 ⊆ l ++ l2) as H; [|by intros; apply H].
  induction l2 as [|e l2 IH]; intros l d; simpl; [set_solver|].
  pose proof (AddFunc_subset l e) as Hs.
  destruct (AddFunc l e) as [w dh]. simpl in Hs.
  pose proof (IH w (d || dh)). set_solver.
Qed.

(** * Who owns the locks in the bins *)

Lemma NewParsedLock_Obj ipl p : NewParsedLock ipl = inl p -> pl_Obj p = Some ipl.
Proof.
  unfold NewParsedLock. destruct (parseIPLockName _) as [[v a]|e]; [|done].
  by intros [= <-].
Qed.

Lemma consider_ownedBy a uid vni base last ipl b :
  Forall (ownedByUID (att_UID a)) (undesiredLocks b ++ usableLocks b) ->
  Forall (ownedByUID (att_UID a))
    (undesiredLocks (consider (Some a) uid vni base last ipl b)
     ++ usableLocks (consider (Some a) uid vni base last ipl b)).
Proof.
  intros Hb. unfold consider.
  destruct (NewParsedLock ipl) as [p|e] eqn:EP; [|done].
  apply NewParsedLock_Obj in EP.
  destruct (String.eqb_spec (snd (GetOwner ipl "NetworkAttachment")) (att_UID a))
    as [Eo|No]; cbn [negb]; [|done].
  assert (ownedByUID (att_UID a) p) as Hp by (by exists ipl).
  destruct (_ || _); cbn [undesiredLocks usableLocks]; unfold Append;
    rewrite !Forall_app in *; rewrite ?Forall_singleton; naive_solver.
Qed.

Lemma fold_consider_ownedBy a uid vni base last owned : forall b,
  Forall (ownedByUID (att_UID a)) (undesiredLocks b ++ usableLocks b) ->
  let b' := fold_left (fun b ipl => consider (Some a) uid vni base last ipl b) owned b in
  Forall (ownedByUID (att_UID a)) (undesiredLocks b' ++ usableLocks b').
Proof.
  induction owned as [|ipl owned IH]; intros b Hb; simpl; [done|].
  apply IH. by apply consider_ownedBy.
Qed.

Lemma chooseLocks_subset att b : snd (chooseLocks att b) ⊆ usableLocks b.
Proof.
  unfold chooseLocks. destruct att as [a|]; [|done].
  destruct (hasObj _); simpl; [apply RemFunc_subset|].
  destruct (0 <? _); simpl; [apply RemFunc_subset|set_solver].
Qed.

(** * C3 *)

Lemma anticipationInvalid_true att subnetRV d :
  anticipationInvalid att subnetRV d = true <->
  (att = None \/
   (exists a, att = Some a /\
      anticipatingResourceVersion d <> att_ResourceVersion a /\
      anticipatedResourceVersion d <> att_ResourceVersion a) \/
   anticipationSubnetRV d <> subnetRV).
Proof.
  unfold anticipationInvalid. destruct att as [a|]; [|naive_solver].
  destruct (String.eqb_spec (anticipatingResourceVersion d) (att_ResourceVersion a));
    destruct (String.eqb_spec (anticipatedResourceVersion d) (att_ResourceVersion a));
    destruct (String.eqb_spec (anticipationSubnetRV d) subnetRV);
    cbn [negb andb orb]; naive_solver.
Qed.

(** C3, as amended.  When [analyzeAndRelease] returns after it got past
    its lookups (the attachment is gone, or its subnet is found and the
    subnet's CIDR parses; and the lock indexer answers), it has zeroed the
    anticipation fields of the attachment's data if the attachment is gone,
    or its resource version is neither the anticipating nor the anticipated
    one, or the subnet's resource version is not the remembered one (["."]
    stands for the subnet's resource version when the attachment is gone);
    if the attachment's resource version is one of the two and the subnet's
    matches, the fields are as they were; and the data of other attachments
    is not touched.  When [analyzeAndRelease] gives up at one of the lookups
    (the subnet lister fails or does not find the subnet, the CIDR does not
    parse, or the lock indexer fails) it returns before it looks at the
    anticipation: the fields are as they were, whatever the resource
    versions. *)
Theorem analyzeAndRelease_anticipation {W : Type} (parseIPv6 : string -> Gonet.IP)
    (env : Client W) (ns name : string) (att : option NetworkAttachment)
    (k : string * string) (d : NetworkAttachmentData) (subnetRV : string)
    (owned : list IPLock) (st : State W) (an : Analysis) (st' : State W) :
  atts st !! k = Some d ->
  analyzeAndRelease parseIPv6 env ns name att (Some k) st = Returns an st' ->
  (match att with
   | None => subnetRV = "."%string
   | Some a =>
       exists subnet,
         subnetLister_Get env ns (att_Subnet a) (world st) = inl subnet /\
         is_Some (Gonet.ParseCIDR parseIPv6 (sn_IPv4 subnet)) /\
         subnetRV = sn_ResourceVersion subnet
   end ->
   iplIndexer_ByIndex env name (world st) = inl owned ->
   (att = None \/
    (exists a, att = Some a /\
       anticipatingResourceVersion d <> att_ResourceVersion a /\
       anticipatedResourceVersion d <> att_ResourceVersion a) \/
    anticipationSubnetRV d <> subnetRV ->
    atts st' !! k = Some zeroNetworkAttachmentData) /\
   ((exists a, att = Some a /\
       (anticipatingResourceVersion d = att_ResourceVersion a \/
        anticipatedResourceVersion d = att_ResourceVersion a)) ->
    anticipationSubnetRV d = subnetRV ->
    atts st' !! k = Some d) /\
   (forall k', k' <> k -> atts st' !! k' = atts st !! k')) /\
  (match att with
   | None => exists e, iplIndexer_ByIndex env name (world st) = inr e
   | Some a => givesUp parseIPv6 env ns name a (world st)
   end ->
   atts st' = atts st).
Proof.
  intros Hk Hrun. split.
  - intros Hsub Hidx.
    assert (atts st' = if anticipationInvalid att subnetRV d
                       then <[k := zeroNetworkAttachmentData]> (atts st)
                       else atts st) as Hatts.
    { unfold analyzeAndRelease in Hrun. destruct att as [a|].
      - destruct Hsub as (subnet & Hs & [ipNet Hc] & ->).
        unfold bind, subnetLister, gets in Hrun. rewrite Hs, Hc in Hrun.
        destruct (IPNetToBoundsU ipNet) as [[base last]|]; [|done].
        eapply analyzeLocks_atts; eauto.
      - subst subnetRV. eapply analyzeLocks_atts; eauto. }
    pose proof (anticipationInvalid_true att subnetRV d) as Hinv.
    destruct (anticipationInvalid att subnetRV d); rewrite Hatts; split_and!.
    + intros _. by rewrite lookup_insert_eq.
    + intros (a & -> & Hrv) Hs. exfalso.
      destruct (proj1 Hinv eq_refl) as [?|[(a' & [= <-] & ? & ?)|?]]; naive_solver.
    + intros k' Hk'. by rewrite lookup_insert_ne.
    + intros Hc. apply Hinv in Hc. done.
    + done.
    + done.
  - intros Hg. unfold analyzeAndRelease in Hrun. destruct att as [a|].
    + destruct Hg as [e He|sn Hs Hc|sn ipNet e Hs Hc [[base last] Hb] Hi];
        unfold bind, subnetLister, gets in Hrun.
      * rewrite He in Hrun. by inv Hrun.
      * rewrite Hs, Hc in Hrun. by inv Hrun.
      * rewrite Hs, Hc, Hb in Hrun.
        unfold analyzeLocks, bind, ByIndex, gets in Hrun. rewrite Hi in Hrun.
        by inv Hrun.
    + destruct Hg as [e Hi].
      unfold analyzeLocks, bind, ByIndex, gets in Hrun. rewrite Hi in Hrun.
      by inv Hrun.
Qed.

(** * C5 *)

Lemma analyzeLocks_deletes {W : Type} (parseIPv6 : string -> Gonet.IP)
    (env : Client W) ns name a nadat subnetName subnetRV vni base last
    (st : State W) an st' :
  analyzeLocks parseIPv6 env ns name (Some a) nadat subnetName subnetRV vni base last st
  = Returns an st' ->
  exists new, calls st' = new ++ calls st /\
    forall parsed, CallDelete parsed ∈ new -> ownedByUID (att_UID a) parsed.
Proof.
  intros Hrun.
  destruct (iplIndexer_ByIndex env name (world st)) as [owned|e] eqn:Hidx.
  2:{ unfold analyzeLocks, bind, ByIndex, gets in Hrun. rewrite Hidx in Hrun.
      inv Hrun. exists []. split; [done|]. set_solver. }
  destruct (analyzeLocks_inv _ _ _ _ _ _ _ _ _ _ _ _ _ _ _ Hidx Hrun)
    as (b & st1 & st2 & E1 & E2 & E3 & _).
  apply considerStatusLock_inv in E1 as (_ & _ & (gets & Hg & Hnd) & Hb).
  apply invalidateAnticipation_frame in E2 as (_ & Hc2 & _).
  destruct (releaseLocks_inv env
              (fst (AddListFunc (undesiredLocks b) (snd (chooseLocks (Some a) b)))) st2)
    as (e & st3 & done & E3' & _ & _ & Hc3 & Hsub).
  rewrite E3 in E3'. inv E3'.
  exists (map CallDelete done ++ gets). split.
  { rewrite Hc3, Hc2, Hg. by rewrite app_assoc. }
  intros parsed Hin. apply elem_of_app in Hin as [Hin|Hin]; [|by apply Hnd in Hin].
  apply list_elem_of_fmap in Hin as (p & [= <-] & Hp).
  apply Hsub in Hp. apply AddListFunc_subset in Hp.
  assert (Forall (ownedByUID (att_UID a)) (undesiredLocks b ++ usableLocks b)) as HF.
  { pose proof (fold_consider_ownedBy a (att_LockUID a) vni base last owned emptyBins)
      as H0. cbn zeta in H0.
    destruct Hb as [->|[ipl ->]]; [by apply H0|].
    apply consider_ownedBy. by apply H0. }
  rewrite list.Forall_forall in HF. apply HF.
  apply elem_of_app in Hp as [Hp|Hp]; apply elem_of_app; [by left|right].
  by apply (chooseLocks_subset (Some a) b).
Qed.

(** C5.  In a reconciliation of an existing attachment, every call of
    [deleteIPLockObject] made by [analyzeAndRelease] is on a lock object whose
    controlling owner has the UID of the attachment: a lock with another
    owner UID (a time slipper) is never deleted, whatever its VNI and
    address. *)
Theorem analyzeAndRelease_spares_timeSlippers {W : Type}
    (parseIPv6 : string -> Gonet.IP) (env : Client W) (ns name : string)
    (a : NetworkAttachment) (nadat : option (string * string))
    (st : State W) (an : Analysis) (st' : State W) :
  analyzeAndRelease parseIPv6 env ns name (Some a) nadat st = Returns an st' ->
  exists new, calls st' = new ++ calls st /\
    (forall parsed, CallDelete parsed ∈ new ->
       exists ipl, pl_Obj parsed = Some ipl /\
                   snd (GetOwner ipl "NetworkAttachment") = att_UID a) /\
    (forall ipl parsed,
       snd (GetOwner ipl "NetworkAttachment") <> att_UID a ->
       pl_Obj parsed = Some ipl -> CallDelete parsed ∉ new).
Proof.
  intros Hrun.
  assert (exists new, calls st' = new ++ calls st /\
            forall parsed, CallDelete parsed ∈ new -> ownedByUID (att_UID a) parsed)
    as (new & Hc & Hown).
  { unfold analyzeAndRelease, bind, subnetLister, gets in Hrun.
    assert (exists new : list Call, calls st = new ++ calls st /\
              forall parsed, CallDelete parsed ∈ new -> ownedByUID (att_UID a) parsed)
      as Hnil by (exists []; split; [done|set_solver]).
    destruct (subnetLister_Get env ns (att_Subnet a) (world st)) as [subnet|e];
      [|by inv Hrun].
    destruct (Gonet.ParseCIDR parseIPv6 (sn_IPv4 subnet)) as [ipNet|];
      [|by inv Hrun].
    destruct (IPNetToBoundsU ipNet) as [[base last]|]; [|done].
    by eapply analyzeLocks_deletes. }
  exists new. split; [done|]. split; [exact Hown|].
  intros ipl parsed Hne Hobj Hin.
  destruct (Hown parsed Hin) as (ipl' & Hobj' & Hu). congruence.
Qed.

(** * C4 *)

Lemma Add_elem x s : x ∈ fst (Uint32set.Add x s).
Proof.
  induction s as [|y s IH]; simpl; [set_solver|].
  destruct (Z.ltb_spec x y); simpl; [set_solver|].
  destruct (Z.eqb_spec x y); simpl; [set_solver|].
  destruct (Uint32set.Add x s) as [s' ch]. simpl in *. set_solver.
Qed.

Lemma PickAddress_cached {W : Type} vni lo hi (st st' : State W) x :
  PickAddress vni lo hi st = Returns (x, true) st' ->
  exists addrs, addrCache st' !! vni = Some addrs /\ x ∈ addrs.
Proof.
  unfold PickAddress, Uint32set.AddOneInRange.
  destruct (_ && _); intros H; inv H.
  eexists. simpl. rewrite lookup_insert_eq. split; [done|]. apply Add_elem.
Qed.

Lemma makeIPLockName2_Uint32ToIPv4 vni x :
  is_Some (makeIPLockName2 vni (Uint32ToIPv4 x)).
Proof. unfold makeIPLockName2, Uint32ToIPv4. cbn. eauto. Qed.

(** C4.  When the create call answers AlreadyExists, [pickAndLockAddress]
    gets the lock.  If the lock's controlling owner is this attachment
    (name and UID), the retrieved lock is returned without an error; if
    the get answers NotFound, the loop starts over with the create; if the
    lock has another owner (or the get fails otherwise), an error is
    returned.  In each case the address cache is as [PickAddress] left it:
    the picked address is still in the set of its VNI. *)
Theorem pickAndLockAddress_AlreadyExists {unicode : GoStrings.Unicode} {W : Type} (sgv : string)
    (env : Client W) (fuel : nat) (ns name : string) (att : NetworkAttachment)
    (subnetName : string) (vni subnetBaseU subnetLastU : Z)
    (st st1 : State W) (ipU : Z) (lockName : string) (err : error) (w1 w2 : W)
    (r2 : IPLock + error) :
  PickAddress vni (fst (pickRange subnetBaseU subnetLastU))
    (snd (pickRange subnetBaseU subnetLastU)) st = Returns (ipU, true) st1 ->
  makeIPLockName2 vni (Uint32ToIPv4 ipU) = Some lockName ->
  IPLocks_Create env ns (lockObject sgv ns name att subnetName lockName) (world st1)
  = (inr err, w1) ->
  IsAlreadyExists err = true ->
  IPLocks_Get env ns lockName w1 = (r2, w2) ->
  let ipl := lockObject sgv ns name att subnetName lockName in
  let pending := pendingLock ns lockName vni ipU in
  let st2 := log_call (CallGet ns lockName)
               (set_world w2 (log_call (CallCreate ns ipl) (set_world w1 st1))) in
  let run := pickAndLockAddress sgv env (S fuel) ns name att subnetName vni
               subnetBaseU subnetLastU st in
  (exists addrs, addrCache st2 !! vni = Some addrs /\ ipU ∈ addrs) /\
  match r2 with
  | inl ipl2 =>
      if String.eqb (fst (GetOwner ipl2 "NetworkAttachment")) name
         && String.eqb (snd (GetOwner ipl2 "NetworkAttachment")) (att_UID att)
      then run = Returns ({| pl_ns := ns; pl_name := lockName; pl_VNI := vni;
                             pl_addrU := ipU; pl_UID := ipl_UID ipl2;
                             pl_CreationTime := ipl_CreationTimestamp ipl2;
                             pl_Obj := Some ipl2 |},
                          Uint32ToIPv4 ipU, None) st2
      else exists e, run = Returns (pending, Uint32ToIPv4 ipU, Some e) st2
  | inr err2 =>
      if IsNotFound err2
      then run = lockLoop env fuel ns name att vni ipU (Uint32ToIPv4 ipU)
                   lockName pending ipl st2
      else exists e, run = Returns (pending, Uint32ToIPv4 ipU, Some e) st2
  end.
Proof.
  intros Hpick Hname Hcreate Hexists Hget. cbn zeta.
  split.
  { apply PickAddress_cached in Hpick as (addrs & Ha & Hin).
    exists addrs. done. }
  assert (pickAndLockAddress sgv env (S fuel) ns name att subnetName vni
            subnetBaseU subnetLastU st
          = match r2 with
            | inl ipl2 =>
                if String.eqb (fst (GetOwner ipl2 "NetworkAttachment")) name
                   && String.eqb (snd (GetOwner ipl2 "NetworkAttachment")) (att_UID att)
                then Returns ({| pl_ns := ns; pl_name := lockName; pl_VNI := vni;
                                 pl_addrU := ipU; pl_UID := ipl_UID ipl2;
                                 pl_CreationTime := ipl_CreationTimestamp ipl2;
                                 pl_Obj := Some ipl2 |},
                              Uint32ToIPv4 ipU, None)
                else Returns (pendingLock ns lockName vni ipU, Uint32ToIPv4 ipU,
                              Some (Errorf "cache incoherence"))
            | inr err2 =>
                if IsNotFound err2
                then lockLoop env fuel ns name att vni ipU (Uint32ToIPv4 ipU)
                       lockName (pendingLock ns lockName vni ipU)
                       (lockObject sgv ns name att subnetName lockName)
                else Returns (pendingLock ns lockName vni ipU, Uint32ToIPv4 ipU,
                              Some (Errorf "Failed to fetch allegedly existing IPLock"))
            end
              (log_call (CallGet ns lockName)
                 (set_world w2
                    (log_call (CallCreate ns (lockObject sgv ns name att subnetName lockName))
                       (set_world w1 st1))))) as ->.
  { unfold pickAndLockAddress.
    destruct (pickRange subnetBaseU subnetLastU) as [mn mx]. cbn [fst snd] in Hpick.
    unfold bind at 1. rewrite Hpick. cbn [negb]. rewrite Hname.
    cbn [lockLoop]. unfold bind at 1. unfold lockCreate. rewrite Hcreate.
    rewrite Hexists. unfold bind at 1. unfold lockGet. cbn [world set_world log_call].
    rewrite Hget.
    destruct r2 as [ipl2|err2].
    - destruct (GetOwner ipl2 "NetworkAttachment") as [on ou]. cbn [fst snd].
      destruct (_ && _); reflexivity.
    - destruct (IsNotFound err2); reflexivity. }
  destruct r2 as [ipl2|err2].
  - destruct (_ && _); [reflexivity|]. eexists. reflexivity.
  - destruct (IsNotFound err2); [reflexivity|]. eexists. reflexivity.
Qed.

(** * Witnesses and counterexamples on the example cluster *)

Lemma pickAndLockAddress_range_witness :
  167772160 + 2
  <= pl_addrU (lockPicked (pickAndLockAddress groupVersion clusterClient 1 "ex" "a1"
                             attA1 "s1" 7 167772160 167772415 (stateOn clusterS1)))
  <= 167772415 - 1.
Proof.
  destruct (pickAndLockAddress_range groupVersion clusterClient 1 "ex" "a1" attA1
              "s1" 7 167772160 167772415) as (_ & _ & H); [lia | lia |].
  refine (proj2 (proj2 (H (stateOn clusterS1) _ _ _ _ _ _)) _).
  - vm_compute. reflexivity.
  - discriminate.
  - lia.
Defined.

(** C2 as stated fails on a block of four addresses (10.0.0.0/30): the
    range is the whole block, and the first address of the block is the
    one picked. *)
Lemma pickAndLockAddress_picks_first_of_four :
  167772163 - 167772160 + 1 = 4 /\
  pickRange 167772160 167772163 = (167772160, 167772163) /\
  pl_addrU (lockPicked (pickAndLockAddress groupVersion clusterClient 1 "ex" "a1"
                          attA1 "s1" 7 167772160 167772163 (stateOn clusterS30)))
  = 167772160.
Proof. repeat split. Qed.

Lemma analyzeAndRelease_anticipation_witness :
  atts (stateAfter (analyzeAndRelease noIPv6 clusterClient "ex" "a1" (Some attA1)
                      (Some ("ex", "a1")%string) stateStale) stateStale)
    !! ("ex", "a1")%string
  = Some zeroNetworkAttachmentData /\
  atts (stateAfter (analyzeAndRelease noIPv6 clusterClient "ex" "a1" (Some attA1)
                      (Some ("ex", "a1")%string) stateStaleNoSubnet)
          stateStaleNoSubnet)
  = atts stateStaleNoSubnet.
Proof.
  split.
  - refine (proj1 (proj1 (analyzeAndRelease_anticipation noIPv6 clusterClient
                            "ex" "a1" (Some attA1) ("ex", "a1")%string
                            staleAnticipation "1" [] stateStale _ _ _ _) _ _) _).
    + reflexivity.
    + vm_compute. reflexivity.
    + exists subnetS1. split; [reflexivity|]. split; [|reflexivity].
      eexists. vm_compute. reflexivity.
    + reflexivity.
    + right. left. exists attA1. split; [reflexivity|]. split; discriminate.
  - refine (proj2 (analyzeAndRelease_anticipation noIPv6 clusterClient
                     "ex" "a1" (Some attA1) ("ex", "a1")%string
                     staleAnticipation "1" [] stateStaleNoSubnet _ _ _ _) _).
    + reflexivity.
    + vm_compute. reflexivity.
    + apply (NoSubnet _ _ _ _ _ _ (apiError ReasonNotFound)). reflexivity.
Defined.

(** C3 as stated fails when the subnet the attachment refers to does not
    exist: the resource version of the attachment is neither the
    anticipating nor the anticipated one, yet [analyzeAndRelease] returns
    (with [ok = false]) and the anticipation fields are what they were. *)
Lemma analyzeAndRelease_keeps_anticipation_without_subnet :
  let run := analyzeAndRelease noIPv6 clusterClient "ex" "a1" (Some attA1)
               (Some ("ex", "a1")%string) stateStaleNoSubnet in
  anticipatingResourceVersion staleAnticipation <> att_ResourceVersion attA1 /\
  anticipatedResourceVersion staleAnticipation <> att_ResourceVersion attA1 /\
  option_map an_ok (valueOf run) = Some false /\
  atts (stateAfter run stateStaleNoSubnet) !! ("ex", "a1")%string
  = Some staleAnticipation /\
  staleAnticipation <> zeroNetworkAttachmentData.
Proof. repeat split; discriminate. Qed.

Lemma analyzeAndRelease_spares_timeSlippers_witness :
  CallDelete (parsedOf slipperLock)
  ∉ calls (stateAfter (analyzeAndRelease noIPv6 clusterClient "ex" "a1" (Some attA1)
                         None (stateOn clusterSlipper)) (stateOn clusterSlipper)).
Proof.
  destruct (analyzeAndRelease noIPv6 clusterClient "ex" "a1" (Some attA1) None
              (stateOn clusterSlipper)) as [an st'| |] eqn:E;
    [|vm_compute in E; discriminate..].
  destruct (analyzeAndRelease_spares_timeSlippers _ _ _ _ _ _ _ _ _ E)
    as (new & Hc & _ & H).
  cbn [stateAfter]. rewrite Hc. cbn [calls stateOn]. rewrite app_nil_r.
  apply (H slipperLock); [discriminate | reflexivity].
Defined.

Lemma pickAndLockAddress_AlreadyExists_witness :
  (exists e,
     valueOf (pickAndLockAddress groupVersion clusterClient 1 "ex" "a1" attA1 "s1"
                7 167772160 167772415 (stateOn clusterForeign))
     = Some (pendingLock "ex" "v1-7-10-0-0-2" 7 167772162,
             Uint32ToIPv4 167772162, Some e)) /\
  valueOf (pickAndLockAddress groupVersion clusterClient 1 "ex" "a1" attA1 "s1"
             7 167772160 167772415 (stateOn clusterRecovered))
  = Some (parsedOf ownLock, Uint32ToIPv4 167772162, None) /\
  map fst (map_to_list
             (lockStore (world (stateAfter
                (pickAndLockAddress groupVersion clusterClient 2 "ex" "a1" attA1 "s1"
                   7 167772160 167772415 (stateOn clusterVanishing))
                (stateOn clusterVanishing)))))
  = [("ex", "v1-7-10-0-0-2")%string].
Proof.
  split; [|split].
  - edestruct (pickAndLockAddress_AlreadyExists groupVersion clusterClient 0 "ex" "a1"
                 attA1 "s1" 7 167772160 167772415 (stateOn clusterForeign))
      as [_ H].
    + vm_compute. reflexivity.
    + vm_compute. reflexivity.
    + vm_compute. reflexivity.
    + reflexivity.
    + vm_compute. reflexivity.
    + cbn in H. destruct H as [e He]. exists e. rewrite He. reflexivity.
  - edestruct (pickAndLockAddress_AlreadyExists groupVersion clusterClient 0 "ex" "a1"
                 attA1 "s1" 7 167772160 167772415 (stateOn clusterRecovered))
      as [_ H].
    + vm_compute. reflexivity.
    + vm_compute. reflexivity.
    + vm_compute. reflexivity.
    + reflexivity.
    + vm_compute. reflexivity.
    + cbn in H. rewrite H. reflexivity.
  - edestruct (pickAndLockAddress_AlreadyExists groupVersion clusterClient 1 "ex" "a1"
                 attA1 "s1" 7 167772160 167772415 (stateOn clusterVanishing))
      as [_ H].
    + vm_compute. reflexivity.
    + vm_compute. reflexivity.
    + vm_compute. reflexivity.
    + reflexivity.
    + vm_compute. reflexivity.
    + cbn in H. rewrite H. vm_compute. reflexivity.
Defined.


(** * The controller against the cluster, without API failures *)

Lemma nextFault_nil c : faults c = [] -> nextFault c = (None, c).
Proof. unfold nextFault. by intros ->. Qed.

Lemma cluster_Get_ok ns n c :
  faults c = [] -> cluster_Get ns n c = (lookupOr (lockStore c !! (ns, n)), c).
Proof. intros Hf. unfold cluster_Get. by rewrite nextFault_nil. Qed.

Lemma cluster_Delete_ok ns n uid c :
  faults c = [] ->
  cluster_Delete ns n uid c
  = match lockStore c !! (ns, n) with
    | None => (Some (apiError ReasonNotFound), c)
    | Some l => if String.eqb (ipl_UID l) uid
                then (None, withLocks c (delete (ns, n) (lockStore c)))
                else (Some (apiError ReasonConflict), c)
    end.
Proof. intros Hf. unfold cluster_Delete. by rewrite nextFault_nil. Qed.

Lemma sameButLocks_refl c : sameButLocks c c.
Proof. done. Qed.

Lemma sameButLocks_trans c1 c2 c3 :
  sameButLocks c1 c2 -> sameButLocks c2 c3 -> sameButLocks c1 c3.
Proof. unfold sameButLocks. intros (?&?&?&?&?) (?&?&?&?&?). split_and!; congruence. Qed.

Lemma deleteIPLockObject_cluster p (st : State Cluster) :
  faults (world st) = [] ->
  (forall l, lockStore (world st) !! (pl_ns p, pl_name p) = Some l ->
             ipl_UID l = pl_UID p) ->
  exists st', deleteIPLockObject clusterClient p st = Returns None st' /\
    atts st' = atts st /\ addrCache st' = addrCache st /\
    sameButLocks (world st) (world st') /\
    lockStore (world st') = delete (pl_ns p, pl_name p) (lockStore (world st)).
Proof.
  intros Hf Huid. unfold deleteIPLockObject. cbn [IPLocks_Delete clusterClient].
  rewrite cluster_Delete_ok by done.
  destruct (lockStore (world st) !! (pl_ns p, pl_name p)) as [l|] eqn:E.
  - rewrite (Huid l eq_refl), String.eqb_refl.
    eexists. split; [reflexivity|]. done.
  - cbn. eexists. split; [reflexivity|]. split_and!; try done.
    cbn. by rewrite delete_id.
Qed.

Lemma releaseLocks_cluster L : forall (st : State Cluster),
  faults (world st) = [] ->
  (forall p l, p ∈ L -> lockStore (world st) !! (pl_ns p, pl_name p) = Some l ->
               ipl_UID l = pl_UID p) ->
  exists st', releaseLocks clusterClient L st = Returns None st' /\
    atts st' = atts st /\ addrCache st' = addrCache st /\
    sameButLocks (world st) (world st') /\
    forall k, lockStore (world st') !! k
              = if bool_decide (k ∈ map (fun p => (pl_ns p, pl_name p)) L)
                then None else lockStore (world st) !! k.
Proof.
  induction L as [|p L IH]; intros st Hf Huid.
  - exists st. split; [done|]. split_and!; done.
  - cbn [releaseLocks]. unfold bind.
    destruct (deleteIPLockObject_cluster p st Hf) as (st1 & -> & Ha & Hc & Hs & Hl).
    { intros l. apply Huid. set_solver. }
    destruct (IH st1) as (st' & -> & Ha' & Hc' & Hs' & Hl').
    { destruct Hs as (_ & _ & _ & _ & ->). done. }
    { intros q l Hq. rewrite Hl.
      destruct (decide ((pl_ns p, pl_name p) = (pl_ns q, pl_name q))) as [<-|Hne].
      - by rewrite lookup_delete_eq.
      - rewrite lookup_delete_ne by done. apply Huid. set_solver. }
    exists st'. split; [done|]. split_and!; try congruence.
    { by eapply sameButLocks_trans. }
    intros k. rewrite Hl', Hl. cbn [map].
    destruct (decide (k = (pl_ns p, pl_name p))) as [->|Hne].
    + rewrite lookup_delete_eq. rewrite (bool_decide_eq_true_2 (_ ∈ _ :: _)) by set_solver.
      by destruct (bool_decide _).
    + rewrite lookup_delete_ne by done.
      destruct (bool_decide (k ∈ map _ L)) eqn:EL.
      * apply bool_decide_eq_true_1 in EL.
        rewrite bool_decide_eq_true_2; [done|]. set_solver.
      * apply bool_decide_eq_false_1 in EL.
        rewrite bool_decide_eq_false_2; [done|]. set_solver.
Qed.

(** * The bins after the enumeration of the owned locks *)

Lemma Equal_refl p : Equal p p = true.
Proof.
  unfold Equal. by rewrite !Z.eqb_refl, String.eqb_refl, bool_decide_true.
Qed.

Lemma Equal_UID p q : Equal p q = true -> pl_UID p = pl_UID q.
Proof.
  unfold Equal. rewrite !andb_true_iff. intros [[[_ H] _] _].
  by apply String.eqb_eq.
Qed.

Lemma NoDup_fmap_eq {A B : Type} (f : A -> B) (l : list A) x y :
  NoDup (map f l) -> x ∈ l -> y ∈ l -> f x = f y -> x = y.
Proof.
  induction l as [|z l IH]; cbn [map]; [set_solver|].
  rewrite list.NoDup_cons. intros [Hz Hnd] Hx Hy Hf.
  apply elem_of_cons in Hx as [->|Hx]; apply elem_of_cons in Hy as [->|Hy].
  - done.
  - exfalso. apply Hz. rewrite Hf. by apply (list_elem_of_fmap_2 f).
  - exfalso. apply Hz. rewrite <- Hf. by apply (list_elem_of_fmap_2 f).
  - by apply IH.
Qed.

Lemma NewParsedLock_fields ipl p :
  NewParsedLock ipl = inl p ->
  pl_ns p = ipl_Namespace ipl /\ pl_name p = ipl_Name ipl /\
  pl_UID p = ipl_UID ipl /\ pl_Obj p = Some ipl /\
  parseIPLockName (ipl_Name ipl) = inl (pl_VNI p, pl_addrU p).
Proof.
  unfold NewParsedLock. destruct (parseIPLockName _) as [[v a]|e]; [|done].
  by intros [= <-].
Qed.

Section Bins.
Variable a : NetworkAttachment.
Variables vni base last : Z.

Let cons := consider (Some a) (att_LockUID a) vni base last.

Lemma binsOf_empty : binsOf a vni base last [] emptyBins.
Proof.
  unfold binsOf. cbn. split_and!; try done.
  - intros p. split; [set_solver|]. intros (l & Hl & _). set_solver.
  - intros p. split; [set_solver|]. intros (l & Hl & _). set_solver.
  - constructor.
  - set_solver.
Qed.

Lemma consider_cases ipl b :
  match NewParsedLock ipl with
  | inr _ => cons ipl b = b
  | inl p =>
      considered (cons ipl b) = {[pl_addrU p]} ∪ considered b /\
      if negb (String.eqb (snd (GetOwner ipl "NetworkAttachment")) (att_UID a))
      then undesiredLocks (cons ipl b) = undesiredLocks b /\
           usableLocks (cons ipl b) = usableLocks b /\
           lockInStatus (cons ipl b) = lockInStatus b
      else if isUndesired vni base last p
      then undesiredLocks (cons ipl b) = undesiredLocks b ++ [p] /\
           usableLocks (cons ipl b) = usableLocks b /\
           lockInStatus (cons ipl b) = lockInStatus b
      else undesiredLocks (cons ipl b) = undesiredLocks b /\
           usableLocks (cons ipl b) = usableLocks b ++ [p] /\
           lockInStatus (cons ipl b)
           = if inStatus a p then p else lockInStatus b
  end.
Proof.
  unfold cons, consider. destruct (NewParsedLock ipl) as [p|e]; [|done].
  destruct (negb _); [done|]. unfold isUndesired.
  destruct (_ || _); [done|]. unfold inStatus. done.
Qed.

Lemma binsOf_snoc owned ipl b :
  NoDup (map ipl_UID (owned ++ [ipl])) ->
  binsOf a vni base last owned b -> binsOf a vni base last (owned ++ [ipl]) (cons ipl b).
Proof.
  intros Hnd (Hund & Huse & Hn & Hc & Hs).
  rewrite map_app in Hnd. apply list.NoDup_app in Hnd as (_ & Hfresh & _).
  pose proof (consider_cases ipl b) as Hcase.
  destruct (NewParsedLock ipl) as [p|e] eqn:EP.
  2:{ rewrite Hcase. unfold binsOf. split_and!.
      - intros q. rewrite Hund. split; intros (l & Hl & Hrest).
        + exists l. split; [set_solver|done].
        + apply elem_of_app in Hl as [Hl|Hl]; [by exists l|].
          apply list_elem_of_singleton in Hl as ->. destruct Hrest. congruence.
      - intros q. rewrite Huse. split; intros (l & Hl & Hrest).
        + exists l. split; [set_solver|done].
        + apply elem_of_app in Hl as [Hl|Hl]; [by exists l|].
          apply list_elem_of_singleton in Hl as ->. destruct Hrest. congruence.
      - done.
      - intros l q Hl Hq. apply elem_of_app in Hl as [Hl|Hl]; [by eapply Hc|].
        apply list_elem_of_singleton in Hl as ->. congruence.
      - done. }
  destruct Hcase as (Hcons & Hcase).
  assert (forall q, q ∈ undesiredLocks b ++ usableLocks b ->
                    pl_UID q <> pl_UID p) as Hp_fresh.
  { intros q Hq Heq. apply (Hfresh (ipl_UID ipl)).
    - apply elem_of_app in Hq as [Hq|Hq];
        [apply Hund in Hq|apply Huse in Hq]; destruct Hq as (l & Hl & HP & _);
        apply NewParsedLock_fields in HP as (_ & _ & HU & _);
        apply NewParsedLock_fields in EP as (_ & _ & HU' & _);
        apply list_elem_of_fmap; exists l; (split; [congruence|done]).
    - cbn. set_solver. }
  assert (forall l q, l ∈ owned ++ [ipl] -> NewParsedLock l = inl q ->
                      pl_addrU q ∈ considered (cons ipl b)) as Hc'.
  { intros l q Hl Hq. rewrite Hcons.
    apply elem_of_app in Hl as [Hl|Hl]; [pose proof (Hc l q Hl Hq); set_solver|].
    apply list_elem_of_singleton in Hl as ->. rewrite EP in Hq. inv Hq. set_solver. }
  destruct (String.eqb_spec (snd (GetOwner ipl "NetworkAttachment")) (att_UID a))
    as [Eo|No]; cbn [negb] in Hcase.
  2:{ destruct Hcase as (E1 & E2 & E3). unfold binsOf. rewrite E1, E2, E3. split_and!; try done.
      - intros q. rewrite Hund. split; intros (l & Hl & Hrest).
        + exists l. split; [set_solver|done].
        + apply elem_of_app in Hl as [Hl|Hl]; [by exists l|].
          apply list_elem_of_singleton in Hl as ->. destruct Hrest as (_ & Ho & _). done.
      - intros q. rewrite Huse. split; intros (l & Hl & Hrest).
        + exists l. split; [set_solver|done].
        + apply elem_of_app in Hl as [Hl|Hl]; [by exists l|].
          apply list_elem_of_singleton in Hl as ->. destruct Hrest as (_ & Ho & _). done. }
  destruct (isUndesired vni base last p) eqn:EU.
  - destruct Hcase as (E1 & E2 & E3). unfold binsOf. rewrite E1, E2, E3. split_and!; try done.
    + intros q. rewrite elem_of_app, Hund, list_elem_of_singleton.
      split.
      * intros [(l & Hl & Hrest)| ->].
        -- exists l. split; [set_solver|done].
        -- exists ipl. split; [set_solver|done].
      * intros (l & Hl & HP & Ho & Hu).
        apply elem_of_app in Hl as [Hl|Hl]; [left; by exists l|].
        apply list_elem_of_singleton in Hl as ->. right. congruence.
    + intros q. rewrite Huse. split; intros (l & Hl & Hrest).
      * exists l. split; [set_solver|done].
      * apply elem_of_app in Hl as [Hl|Hl]; [by exists l|].
        apply list_elem_of_singleton in Hl as ->.
        destruct Hrest as (HP & _ & Hu). congruence.
    + rewrite <- app_assoc. rewrite map_app. cbn [app map].
      rewrite map_app in Hn. apply list.NoDup_app in Hn as (Hn1 & Hn12 & Hn2).
      apply list.NoDup_app. split_and!; [done| |].
      * intros u Hu1 Hu2. apply elem_of_cons in Hu2 as [->|Hu2]; [|by eapply Hn12].
        apply list_elem_of_fmap in Hu1 as (q & Hq & Hqin).
        apply (Hp_fresh q); [set_solver|done].
      * apply list.NoDup_cons. split; [|done].
        intros Hin. apply list_elem_of_fmap in Hin as (q & Hq & Hqin).
        apply (Hp_fresh q); [set_solver|done].
  - destruct Hcase as (E1 & E2 & E3). unfold binsOf. rewrite E1, E2, E3. split_and!; try done.
    + intros q. rewrite Hund. split; intros (l & Hl & Hrest).
      * exists l. split; [set_solver|done].
      * apply elem_of_app in Hl as [Hl|Hl]; [by exists l|].
        apply list_elem_of_singleton in Hl as ->.
        destruct Hrest as (HP & _ & Hu). congruence.
    + intros q. rewrite elem_of_app, Huse, list_elem_of_singleton.
      split.
      * intros [(l & Hl & Hrest)| ->].
        -- exists l. split; [set_solver|done].
        -- exists ipl. split; [set_solver|done].
      * intros (l & Hl & HP & Ho & Hu).
        apply elem_of_app in Hl as [Hl|Hl]; [left; by exists l|].
        apply list_elem_of_singleton in Hl as ->. right. congruence.
    + rewrite app_assoc, map_app. cbn [map].
      apply list.NoDup_app. split_and!; [done| |apply list.NoDup_singleton].
      intros u Hu1 Hu2. apply list_elem_of_singleton in Hu2 as ->.
      apply list_elem_of_fmap in Hu1 as (q & Hq & Hqin).
      apply (Hp_fresh q); done.
    + destruct (inStatus a p) eqn:ES.
      * intros _. split; [set_solver|done].
      * intros Ho. destruct (Hs Ho). split; [set_solver|done].
Qed.

Lemma binsOf_fold owned :
  NoDup (map ipl_UID owned) ->
  binsOf a vni base last owned (fold_left (fun b ipl => cons ipl b) owned emptyBins).
Proof.
  induction owned as [|ipl owned IH] using rev_ind; intros Hnd.
  - apply binsOf_empty.
  - rewrite fold_left_app. cbn [fold_left]. apply binsOf_snoc; [done|].
    apply IH. rewrite map_app in Hnd. by apply list.NoDup_app in Hnd as (? & _).
Qed.

End Bins.

(** * Removing and adding among locks with distinct UIDs *)

Lemma removeFirst_mem l e :
  NoDup (map pl_UID l) -> e ∈ l ->
  exists l', removeFirst l e = Some l' /\ forall p, p ∈ l' <-> p ∈ l /\ p <> e.
Proof.
  induction l as [|x l IH]; [set_solver|]. cbn [map removeFirst].
  rewrite list.NoDup_cons. intros [Hx Hnd] He.
  destruct (Equal x e) eqn:EQ.
  - assert (x = e) as ->.
    { apply Equal_UID in EQ. apply elem_of_cons in He as [->|He]; [done|].
      exfalso. apply Hx. rewrite EQ. by apply (list_elem_of_fmap_2 pl_UID). }
    exists l. split; [done|]. intros p. split.
    + intros Hp. split; [set_solver|]. intros ->. apply Hx.
      by apply (list_elem_of_fmap_2 pl_UID).
    + intros [Hp Hne]. set_solver.
  - apply elem_of_cons in He as [->|He]; [by rewrite Equal_refl in EQ|].
    destruct (IH Hnd He) as (l' & -> & Hl'). exists (x :: l'). split; [done|].
    intros p. rewrite !elem_of_cons, Hl'. split.
    + intros [->|[Hp Hne]]; [|by auto]. split; [by left|].
      intros ->. by rewrite Equal_refl in EQ.
    + intros [[->|Hp] Hne]; auto.
Qed.

Lemma RemFunc_mem l e :
  NoDup (map pl_UID l) -> e ∈ l ->
  forall p, p ∈ fst (RemFunc l e) <-> p ∈ l /\ p <> e.
Proof.
  intros Hnd He p. destruct (removeFirst_mem l e Hnd He) as (l' & Hrem & Hl').
  unfold RemFunc. destruct l as [|x [|y l]]; [set_solver| |].
  - apply list_elem_of_singleton in He as ->. rewrite Equal_refl. cbn. set_solver.
  - rewrite Hrem. cbn [fst]. apply Hl'.
Qed.

Lemma AddFunc_mem l e :
  (forall x, x ∈ l -> Equal x e = true -> x = e) ->
  forall p, p ∈ fst (AddFunc l e) <-> p ∈ l \/ p = e.
Proof.
  intros Heq p. unfold AddFunc. destruct l as [|y l]; [set_solver|].
  destruct (existsb _ _) eqn:EX; cbn [fst].
  - apply existsb_exists in EX as (x & Hx & HE).
    apply list_elem_of_In in Hx. rewrite (Heq x Hx HE) in Hx. set_solver.
  - set_solver.
Qed.

Lemma AddListFunc_mem l2 : forall l,
  (forall x y, x ∈ l ++ l2 -> y ∈ l ++ l2 -> Equal x y = true -> x = y) ->
  forall p, p ∈ fst (AddListFunc l l2) <-> p ∈ l \/ p ∈ l2.
Proof.
  unfold AddListFunc.
  assert (forall l d,
            (forall x y, x ∈ l ++ l2 -> y ∈ l ++ l2 -> Equal x y = true -> x = y) ->
            forall p, p ∈ (fold_left
              (fun '(with_, diff) elt =>
                 let '(w, diffHere) := AddFunc with_ elt in (w, diff || diffHere))
              l2 (l, d)).1 <-> p ∈ l \/ p ∈ l2) as H; [|by intros; apply H].
  induction l2 as [|e l2 IH]; intros l d Hinj p; cbn [fold_left]; [set_solver|].
  assert (forall x, x ∈ l -> Equal x e = true -> x = e) as Heq.
  { intros x Hx HE. apply Hinj; [set_solver|set_solver|done]. }
  pose proof (AddFunc_mem l e Heq) as Hadd.
  destruct (AddFunc l e) as [w dh]. cbn [fst] in Hadd.
  rewrite IH.
  - rewrite Hadd. set_solver.
  - intros x y Hx Hy. apply Hinj.
    + apply elem_of_app in Hx as [Hx|Hx]; [apply Hadd in Hx|]; set_solver.
    + apply elem_of_app in Hy as [Hy|Hy]; [apply Hadd in Hy|]; set_solver.
Qed.

(** * The choice of the lock to keep *)

Section Choice.
Variable a : NetworkAttachment.
Variables vni base last : Z.
Variable owned : list IPLock.
Variable b : Bins.
Hypothesis Hbins : binsOf a vni base last owned b.

Lemma bins_Equal_eq x y :
  x ∈ undesiredLocks b ++ usableLocks b -> y ∈ undesiredLocks b ++ usableLocks b ->
  Equal x y = true -> x = y.
Proof.
  destruct Hbins as (_ & _ & Hn & _).
  intros Hx Hy HE. apply Equal_UID in HE.
  by eapply (NoDup_fmap_eq pl_UID).
Qed.

Lemma usable_NoDup : NoDup (map pl_UID (usableLocks b)).
Proof.
  destruct Hbins as (_ & _ & Hn & _).
  rewrite map_app in Hn. by apply list.NoDup_app in Hn as (_ & _ & ?).
Qed.

Lemma usable_hasObj p : p ∈ usableLocks b -> hasObj p = true.
Proof.
  destruct Hbins as (_ & Huse & _). intros Hp.
  apply Huse in Hp as (l & _ & HP & _).
  apply NewParsedLock_fields in HP as (_ & _ & _ & HO & _).
  unfold hasObj. by rewrite HO.
Qed.

Lemma Best_usable : usableLocks b <> [] -> Best (usableLocks b) ∈ usableLocks b.
Proof.
  destruct (usableLocks b) as [|x l]; [done|]. intros _. apply Best_member.
Qed.

Lemma keptLock_usable p : keptLock b = Some p -> p ∈ usableLocks b.
Proof.
  unfold keptLock. destruct (hasObj (lockInStatus b)) eqn:EO.
  - intros [= <-]. destruct Hbins as (_ & _ & _ & _ & Hs). by apply Hs.
  - destruct (usableLocks b) as [|x l] eqn:E; [done|]. intros [= <-].
    apply Best_member.
Qed.

Lemma length_pos (l : ParsedLockList) :
  (0 <? Z.of_nat (List.length l)) = negb (bool_decide (l = [])).
Proof. destruct l; [done|]. cbn [List.length]. apply Z.ltb_lt. lia. Qed.

Lemma keptLock_unfold :
  keptLock b = if hasObj (lockInStatus b) then Some (lockInStatus b)
               else if bool_decide (usableLocks b = []) then None
                    else Some (Best (usableLocks b)).
Proof. unfold keptLock. by destruct (usableLocks b). Qed.

Lemma chooseLocks_released p :
  p ∈ snd (chooseLocks (Some a) b) <-> p ∈ usableLocks b /\ Some p <> keptLock b.
Proof.
  rewrite keptLock_unfold. unfold chooseLocks. rewrite length_pos.
  destruct (hasObj (lockInStatus b)) eqn:EO; cbn [snd].
  - destruct Hbins as (_ & _ & _ & _ & Hs). destruct (Hs EO) as [Hin _].
    rewrite RemFunc_mem by (done || apply usable_NoDup). naive_solver.
  - destruct (decide (usableLocks b = [])) as [E|E].
    + rewrite bool_decide_eq_true_2 by done. cbn [negb snd]. rewrite E. set_solver.
    + rewrite bool_decide_eq_false_2 by done. cbn [negb snd].
      rewrite RemFunc_mem; [naive_solver|apply usable_NoDup|].
      by apply Best_usable.
Qed.

Lemma chooseLocks_forStatus :
  hasObj (lockInStatus b) = false ->
  fst (chooseLocks (Some a) b)
  = match keptLock b with Some p => p | None => zeroParsedLock end.
Proof.
  intros EO. rewrite keptLock_unfold. unfold chooseLocks.
  rewrite length_pos, EO.
  by destruct (bool_decide (usableLocks b = [])).
Qed.

Lemma locksToRelease_mem p :
  p ∈ locksToRelease (Some a) b <->
  p ∈ undesiredLocks b \/ (p ∈ usableLocks b /\ Some p <> keptLock b).
Proof.
  unfold locksToRelease. rewrite AddListFunc_mem.
  - by rewrite chooseLocks_released.
  - intros x y Hx Hy. apply bins_Equal_eq.
    + apply elem_of_app in Hx as [Hx|Hx]; [set_solver|].
      apply chooseLocks_released in Hx. set_solver.
    + apply elem_of_app in Hy as [Hy|Hy]; [set_solver|].
      apply chooseLocks_released in Hy. set_solver.
Qed.

End Choice.

(** * The live fetch of the lock for the address in the status *)

Lemma octet_range s n : Gonet.octet s = Some n -> 0 <= n < 256.
Proof.
  unfold Gonet.octet, Strconv.ParseUint.
  destruct (String.eqb s ""); [done|].
  destruct (NilEmpty.uint_of_string s) as [d|]; [|done].
  destruct (Z.ltb_spec (Z.of_N (N.of_uint d)) (2 ^ 8)); [|done].
  intros [= <-]. change (2 ^ 8) with 256 in *. lia.
Qed.

Lemma parseIPv4_bytes s :
  Gonet.parseIPv4 s <> [] ->
  exists a b c d, Gonet.parseIPv4 s = Gonet.IPv4 a b c d /\
    0 <= a < 256 /\ 0 <= b < 256 /\ 0 <= c < 256 /\ 0 <= d < 256.
Proof.
  unfold Gonet.parseIPv4.
  destruct (GoStrings.Split "." s) as [|p0 [|p1 [|p2 [|p3 [|? ?]]]]]; try done.
  destruct (Gonet.octet p0) as [a|] eqn:Ea; [|done].
  destruct (Gonet.octet p1) as [b|] eqn:Eb; [|done].
  destruct (Gonet.octet p2) as [c|] eqn:Ec; [|done].
  destruct (Gonet.octet p3) as [d|] eqn:Ed; [|done].
  intros _. exists a, b, c, d. split; [done|].
  split_and!; by eapply octet_range.
Qed.

Lemma To4_IPv4 a b c d : Gonet.To4 (Gonet.IPv4 a b c d) = [a; b; c; d].
Proof. reflexivity. Qed.

Lemma nonNil_spec ip : nonNil ip = true <-> ip <> [].
Proof. destruct ip; cbn; split; done. Qed.

Lemma binsOf_timeSlipper a vni base last owned b ipl p :
  binsOf a vni base last owned b ->
  NewParsedLock ipl = inl p ->
  snd (GetOwner ipl "NetworkAttachment") <> att_UID a ->
  binsOf a vni base last owned
    (consider (Some a) (att_LockUID a) vni base last ipl b).
Proof.
  intros (Hund & Huse & Hn & Hc & Hs) HP Hne.
  pose proof (consider_cases a vni base last ipl b) as Hcase.
  rewrite HP in Hcase. destruct Hcase as (Hcons & Hcase).
  destruct (String.eqb_spec (snd (GetOwner ipl "NetworkAttachment")) (att_UID a));
    [done|]. cbn [negb] in Hcase. destruct Hcase as (E1 & E2 & E3).
  unfold binsOf. rewrite E1, E2, E3, Hcons. split_and!; try done.
  intros l q Hl Hq. pose proof (Hc l q Hl Hq). set_solver.
Qed.

Lemma considerStatusLock_coherent parseIPv6 ns name a vni base last b
      (st : State Cluster) b' st1 :
  coherent name (att_UID a) (world st) ->
  binsOf a vni base last
    (filter (fun l => name ∈ OwningAttachments l) (lockInformer (world st))) b ->
  0 <= vni < 2 ^ 21 ->
  Gonet.ParseIP parseIPv6 (att_IPv4 a) = Gonet.parseIPv4 (att_IPv4 a) ->
  considerStatusLock parseIPv6 clusterClient ns name (Some a) (att_LockUID a)
    vni base last b st = Returns b' st1 ->
  world st1 = world st /\ atts st1 = atts st /\ addrCache st1 = addrCache st /\
  binsOf a vni base last
    (filter (fun l => name ∈ OwningAttachments l) (lockInformer (world st))) b'.
Proof.
  intros (Hf & Hnd & Hinf & Hstore) Hb Hvni Hv4. unfold considerStatusLock.
  destruct (String.eqb _ _); [by intros Hrun; inv Hrun|].
  rewrite Hv4.
  destruct (nonNil (Gonet.parseIPv4 (att_IPv4 a))) eqn:ENN; cbn [negb];
    [|by intros Hrun; inv Hrun].
  apply nonNil_spec in ENN.
  destruct (parseIPv4_bytes _ ENN) as (x0 & x1 & x2 & x3 & Hip & R0 & R1 & R2 & R3).
  rewrite Hip.
  rewrite (IPv4ToUint32_bytes _ x0 x1 x2 x3) by (done || apply To4_IPv4).
  destruct (bool_decide _) eqn:Econs; [by intros Hrun; inv Hrun|].
  apply bool_decide_eq_false_1 in Econs.
  pose proof (parse_make vni (Gonet.IPv4 x0 x1 x2 x3) x0 x1 x2 x3
                (To4_IPv4 _ _ _ _) (proj1 Hvni) R0 R1 R2 R3) as Hpm.
  destruct (Z.ltb_spec vni (2 ^ 21)); [|lia].
  destruct (makeIPLockName2 vni (Gonet.IPv4 x0 x1 x2 x3)) as [antName|];
    [|done]. cbn [option_map] in Hpm. injection Hpm as Hparse.
  unfold bind, lockGet. cbn [IPLocks_Get clusterClient].
  rewrite cluster_Get_ok by done.
  destruct (lockStore (world st) !! (ns, antName)) as [ipl|] eqn:Elk;
    cbn [lookupOr]; [|by intros Hrun; inv Hrun].
  destruct (String.eqb_spec (fst (GetOwner ipl "NetworkAttachment")) name)
    as [Eon|Non]; [|by intros Hrun; inv Hrun].
  intros Hrun; inv Hrun. cbn [world atts addrCache set_world log_call].
  split_and!; try done.
  destruct (Hstore _ _ Elk) as (Hkey & Hin). cbn in Hkey.
  injection Hkey as Hkns Hkname.
  rewrite list.Forall_forall in Hinf. destruct (Hinf ipl Hin) as (_ & Hwf & Hidx).
  unfold wellFormedName in Hwf.
  destruct (NewParsedLock ipl) as [p|e] eqn:EP; [|done].
  destruct (decide (snd (GetOwner ipl "NetworkAttachment") = att_UID a)) as [Eo|No].
  2:{ by eapply binsOf_timeSlipper. }
  exfalso. apply Econs.
  destruct Hb as (_ & _ & _ & Hc & _).
  assert (pl_addrU p = addrOf x0 x1 x2 x3) as <-.
  { apply NewParsedLock_fields in EP as (_ & _ & _ & _ & HPn).
    rewrite <- Hkname, Hparse in HPn. by injection HPn as _ ->. }
  eapply Hc; [|exact EP].
  apply list_elem_of_filter. split; [by apply Hidx|done].
Qed.

(** * [analyzeAndRelease] on a coherent cluster *)

Lemma NoDup_fmap_filter {A B : Type} (f : A -> B) (P : A -> Prop)
      `{!forall x, Decision (P x)} (l : list A) :
  NoDup (map f l) -> NoDup (map f (filter P l)).
Proof.
  induction l as [|x l IH]; [done|]. cbn [map]. rewrite list.NoDup_cons.
  intros [Hx Hnd]. rewrite filter_cons. destruct (decide (P x)); [|by apply IH].
  cbn [map]. apply list.NoDup_cons. split; [|by apply IH].
  intros Hin. apply Hx. apply list_elem_of_fmap in Hin as (y & -> & Hy).
  apply list_elem_of_filter in Hy as [_ Hy]. by apply (list_elem_of_fmap_2 f).
Qed.

Lemma IPNetToBoundsU_range ipNet base last :
  IPNetToBoundsU ipNet = Some (base, last) ->
  0 <= base < 2 ^ 32 /\ 0 <= last < 2 ^ 32.
Proof.
  unfold IPNetToBoundsU, IPv4ToUint32.
  destruct (Gonet.To4 _) as [|x0 [|x1 [|x2 [|x3 [|? ?]]]]]; try done.
  intros [= <- <-]. unfold u32. split; apply Z.mod_pos_bound; lia.
Qed.

Section OnCluster.
Variable parseIPv6 : string -> Gonet.IP.
Variables ns name : string.
Variable a : NetworkAttachment.
Variable sn : Subnet.
Variable st : State Cluster.

Let owned := filter (fun l => name ∈ OwningAttachments l) (lockInformer (world st)).

Hypothesis Hco : coherent name (att_UID a) (world st).
Hypothesis Hsub : subnetInformer (world st) !! (ns, att_Subnet a) = Some sn.
Hypothesis Hcidr : is_Some (Gonet.ParseCIDR parseIPv6 (sn_IPv4 sn)).
Hypothesis Hvni : 0 <= sn_VNI sn < 2 ^ 21.
Hypothesis Hv4 :
  Gonet.ParseIP parseIPv6 (att_IPv4 a) = Gonet.parseIPv4 (att_IPv4 a).

Lemma owned_in_store l p :
  l ∈ owned -> NewParsedLock l = inl p ->
  lockStore (world st) !! lockKey p = Some l /\ pl_UID p = ipl_UID l.
Proof.
  destruct Hco as (_ & _ & Hinf & _). intros Hl HP.
  apply list_elem_of_filter in Hl as [_ Hl].
  rewrite list.Forall_forall in Hinf. destruct (Hinf l Hl) as (Hs & _).
  apply NewParsedLock_fields in HP as (E1 & E2 & E3 & _).
  unfold lockKey. by rewrite E1, E2.
Qed.

Lemma released_in_store b base last p :
  binsOf a (sn_VNI sn) base last owned b ->
  p ∈ locksToRelease (Some a) b ->
  exists l, l ∈ owned /\ NewParsedLock l = inl p /\ ownsLock (att_UID a) l.
Proof.
  intros Hb Hp. rewrite (locksToRelease_mem _ _ _ _ _ _ Hb) in Hp.
  destruct Hb as (Hund & Huse & _).
  destruct Hp as [Hp|[Hp _]]; [apply Hund in Hp|apply Huse in Hp];
    destruct Hp as (l & ? & ? & ? & _); by exists l.
Qed.

Lemma analyzeAndRelease_cluster k d an st3 :
  atts st !! k = Some d ->
  analyzeAndRelease parseIPv6 clusterClient ns name (Some a) (Some k) st
  = Returns an st3 ->
  exists b base last,
    binsOf a (sn_VNI sn) base last owned b /\
    (0 <= base < 2 ^ 32 /\ 0 <= last < 2 ^ 32) /\
    an_err an = None /\ an_ok an = true /\
    an_subnetName an = att_Subnet a /\
    an_subnetRV an = sn_ResourceVersion sn /\
    an_desiredVNI an = sn_VNI sn /\
    an_desiredBaseU an = base /\ an_desiredLastU an = last /\
    an_lockInStatus an = lockInStatus b /\
    an_lockForStatus an = fst (chooseLocks (Some a) b) /\
    atts st3 = (if anticipationInvalid (Some a) (sn_ResourceVersion sn) d
                then <[k := zeroNetworkAttachmentData]> (atts st) else atts st) /\
    addrCache st3 = addrCache st /\
    sameButLocks (world st) (world st3) /\
    forall key, lockStore (world st3) !! key
                = if bool_decide (key ∈ map lockKey (locksToRelease (Some a) b))
                  then None else lockStore (world st) !! key.
Proof.
  intros Hk Hrun. unfold analyzeAndRelease in Hrun.
  unfold bind at 1 in Hrun. unfold subnetLister, gets in Hrun.
  cbn [subnetLister_Get clusterClient] in Hrun. rewrite Hsub in Hrun.
  cbn [lookupOr] in Hrun. destruct Hcidr as [ipNet Hc]. rewrite Hc in Hrun.
  destruct (IPNetToBoundsU ipNet) as [[base last]|] eqn:EB; [|done].
  assert (iplIndexer_ByIndex clusterClient name (world st) = inl owned) as Hidx
      by done.
  destruct (analyzeLocks_inv _ _ _ _ _ _ _ _ _ _ _ _ _ _ _ Hidx Hrun)
    as (b & st1 & st2 & E1 & E2 & E3 & F1 & F2 & F3 & F4 & F5 & F6 & F7 & F8).
  pose proof Hco as (Hf & Hnd & Hinf & Hstore).
  cbn [statusLockUIDOf] in E1.
  apply considerStatusLock_coherent in E1 as (W1 & A1 & C1 & Hb); try done.
  2:{ apply binsOf_fold. by apply NoDup_fmap_filter. }
  fold owned in Hb.
  rewrite (invalidateAnticipation_inv (Some a) k (sn_ResourceVersion sn) d st1)
    in E2 by (by rewrite A1).
  assert (world st2 = world st /\ addrCache st2 = addrCache st /\
          atts st2 = if anticipationInvalid (Some a) (sn_ResourceVersion sn) d
                     then <[k := zeroNetworkAttachmentData]> (atts st)
                     else atts st) as (W2 & C2 & A2).
  { assert (st2 = if anticipationInvalid (Some a) (sn_ResourceVersion sn) d
                  then set_atts (fun m => <[k := zeroNetworkAttachmentData]> m) st1
                  else st1) as -> by congruence.
    destruct (anticipationInvalid _ _ _); cbn [world atts addrCache set_atts];
      rewrite ?W1, ?C1, ?A1; done. }
  destruct (releaseLocks_cluster (locksToRelease (Some a) b) st2)
    as (st3' & E3' & A3 & C3 & S3 & L3).
  { by rewrite W2. }
  { intros p l Hp Hl. rewrite W2 in Hl.
    destruct (released_in_store b base last p Hb Hp) as (l' & Hl' & HP & _).
    destruct (owned_in_store l' p Hl' HP) as [Hs Hu].
    unfold lockKey in Hs. rewrite Hs in Hl. injection Hl as <-. done. }
  unfold locksToRelease in E3'. rewrite E3 in E3'.
  injection E3' as Herr <-. rewrite Herr in F3.
  pose proof (IPNetToBoundsU_range _ _ _ EB) as Hrange.
  exists b, base, last. split_and!; try done; try lia.
  - congruence.
  - congruence.
  - by rewrite <- W2.
  - intros key. rewrite L3, W2. done.
Qed.

End OnCluster.

(** * The locks of the attachment that remain after the release *)

Section Remaining.
Variable name : string.
Variable a : NetworkAttachment.
Variables vni base last : Z.
Variable c c3 : Cluster.
Variable b : Bins.

Let owned := filter (fun l => name ∈ OwningAttachments l) (lockInformer c).

Hypothesis Hco : coherent name (att_UID a) c.
Hypothesis Hb : binsOf a vni base last owned b.
Hypothesis Hstore3 : forall key,
  lockStore c3 !! key
  = if bool_decide (key ∈ map lockKey (locksToRelease (Some a) b))
    then None else lockStore c !! key.

Lemma owned_key l p :
  l ∈ owned -> NewParsedLock l = inl p ->
  lockKey p = (ipl_Namespace l, ipl_Name l) /\
  lockStore c !! (ipl_Namespace l, ipl_Name l) = Some l.
Proof.
  destruct Hco as (_ & _ & Hinf & _). intros Hl HP.
  apply list_elem_of_filter in Hl as [_ Hl].
  rewrite list.Forall_forall in Hinf. destruct (Hinf l Hl) as (Hs & _).
  apply NewParsedLock_fields in HP as (E1 & E2 & _).
  unfold lockKey. by rewrite E1, E2.
Qed.

Lemma classified l :
  l ∈ lockInformer c -> ownsLock (att_UID a) l ->
  exists p, NewParsedLock l = inl p /\ l ∈ owned /\
            (p ∈ undesiredLocks b \/ p ∈ usableLocks b).
Proof.
  destruct Hco as (_ & _ & Hinf & _). intros Hl Ho.
  rewrite list.Forall_forall in Hinf. destruct (Hinf l Hl) as (_ & Hwf & Hidx).
  unfold wellFormedName in Hwf.
  destruct (NewParsedLock l) as [p|e] eqn:EP; [|done].
  assert (l ∈ owned) as Hlo.
  { apply list_elem_of_filter. split; [by apply Hidx|done]. }
  exists p. split; [done|]. split; [done|].
  destruct Hb as (Hund & Huse & _).
  destruct (isUndesired vni base last p) eqn:EU;
    [left; apply Hund|right; apply Huse]; by exists l.
Qed.

Lemma remaining_is_kept k' l' :
  lockStore c3 !! k' = Some l' -> ownsLock (att_UID a) l' ->
  exists p, keptLock b = Some p /\ NewParsedLock l' = inl p /\
            k' = (ipl_Namespace l', ipl_Name l').
Proof.
  intros Hl3 Ho. rewrite Hstore3 in Hl3.
  destruct (bool_decide _) eqn:ED; [done|]. apply bool_decide_eq_false_1 in ED.
  destruct Hco as (_ & _ & _ & Hst). destruct (Hst _ _ Hl3) as [-> Hin].
  destruct (classified l' Hin Ho) as (p & HP & Hlo & Hcls).
  exists p. split; [|done].
  destruct (decide (keptLock b = Some p)) as [|Hne]; [done|]. exfalso.
  apply ED. destruct (owned_key l' p Hlo HP) as [<- _].
  apply (list_elem_of_fmap_2 lockKey).
  rewrite (locksToRelease_mem _ _ _ _ _ _ Hb).
  destruct Hcls as [?|?]; [by left|right]. split; [done|congruence].
Qed.

Lemma kept_remains p :
  keptLock b = Some p ->
  exists l, NewParsedLock l = inl p /\
    lockStore c3 !! (ipl_Namespace l, ipl_Name l) = Some l /\
    ownsLock (att_UID a) l /\ isUndesired vni base last p = false.
Proof.
  intros Hk. pose proof (keptLock_usable _ _ _ _ _ _ Hb p Hk) as Hp.
  pose proof Hb as (Hund & Huse & _).
  apply Huse in Hp as (l & Hl & HP & Ho & HU).
  exists l. split; [done|]. split; [|done].
  destruct (owned_key l p Hl HP) as [Hkey Hs].
  rewrite Hstore3. rewrite bool_decide_eq_false_2; [done|].
  intros Hin. apply list_elem_of_fmap in Hin as (q & Hq & Hqin).
  rewrite (locksToRelease_mem _ _ _ _ _ _ Hb) in Hqin.
  assert (q = p) as ->.
  { assert (exists lq, lq ∈ owned /\ NewParsedLock lq = inl q) as (lq & Hlq & HPq).
    { destruct Hqin as [Hq'|[Hq' _]]; [apply Hund in Hq'|apply Huse in Hq'];
        destruct Hq' as (lq & ? & ? & _); by exists lq. }
    destruct (owned_key lq q Hlq HPq) as [Hkq Hsq].
    rewrite <- Hkq, <- Hq, Hs in Hsq. injection Hsq as ->. congruence. }
  destruct Hqin as [Hq'|[_ Hq']]; [|by rewrite Hk in Hq'].
  apply Hund in Hq' as (l2 & _ & _ & _ & HU2). congruence.
Qed.

Lemma kept_only p :
  keptLock b = Some p ->
  exists l, NewParsedLock l = inl p /\
    onlyLockOf (att_UID a) c3 (ipl_Namespace l, ipl_Name l) l /\
    isUndesired vni base last p = false.
Proof.
  intros Hk. destruct (kept_remains p Hk) as (l & HP & Hs & Ho & HU).
  exists l. split; [done|]. split; [|done]. split; [done|]. split; [done|].
  intros k' l' Hl' Ho'.
  destruct (remaining_is_kept k' l' Hl' Ho') as (p' & Hk' & HP' & ->).
  rewrite Hk in Hk'. injection Hk' as <-.
  apply NewParsedLock_fields in HP as (_ & _ & _ & HO & _).
  apply NewParsedLock_fields in HP' as (_ & _ & _ & HO' & _).
  rewrite HO in HO'. by injection HO' as ->.
Qed.

Lemma none_remains k' l' :
  keptLock b = None -> lockStore c3 !! k' = Some l' -> ~ ownsLock (att_UID a) l'.
Proof.
  intros Hk Hl' Ho'.
  destruct (remaining_is_kept k' l' Hl' Ho') as (p' & Hk' & _). congruence.
Qed.

End Remaining.

(** * Picking, locking and publishing on the cluster *)

Lemma onlyLockOf_ext uid c c' k l :
  lockStore c' = lockStore c -> onlyLockOf uid c k l -> onlyLockOf uid c' k l.
Proof. unfold onlyLockOf. by intros ->. Qed.

Lemma getNetworkAttachmentData_add ns name (st : State Cluster) :
  exists st1,
    getNetworkAttachmentData ns name true st = Returns (Some (ns, name)) st1 /\
    world st1 = world st /\ addrCache st1 = addrCache st /\
    atts st1 !! (ns, name)
    = Some (match atts st !! (ns, name) with
            | Some d => d
            | None => zeroNetworkAttachmentData
            end).
Proof.
  unfold getNetworkAttachmentData.
  destruct (atts st !! (ns, name)) as [d|] eqn:E.
  - exists st. done.
  - eexists. split; [reflexivity|]. cbn. by rewrite lookup_insert_eq.
Qed.

Lemma cluster_Update_ok ns (att old : NetworkAttachment) c :
  faults c = [] ->
  attStore c !! (ns, att_Name att) = Some old ->
  att_ResourceVersion old = att_ResourceVersion att ->
  exists att3 c',
    cluster_Update ns att c = (inl att3, c') /\
    att_UID att3 = att_UID old /\ att_IPv4 att3 = att_IPv4 att /\
    att_AddressVNI att3 = att_AddressVNI att /\
    att_LockUID att3 = att_LockUID att /\
    lockStore c' = lockStore c /\
    attStore c' !! (ns, att_Name att) = Some att3.
Proof.
  intros Hf Hold Hrv. unfold cluster_Update. rewrite nextFault_nil by done.
  rewrite Hold, Hrv, String.eqb_refl. eexists _, _. split; [reflexivity|].
  cbn. by rewrite lookup_insert_eq.
Qed.

Lemma setIPInStatus_cluster ns name a k subnetRV lockForStatus ipForStatus
      (st : State Cluster) :
  faults (world st) = [] ->
  attStore (world st) !! (ns, att_Name a) = Some a ->
  exists att3 st',
    setIPInStatus clusterClient ns name a (Some k) subnetRV lockForStatus ipForStatus st
    = Returns None st' /\
    lockStore (world st') = lockStore (world st) /\
    attStore (world st') !! (ns, att_Name a) = Some att3 /\
    att_UID att3 = att_UID a /\
    att_IPv4 att3 = Gonet.IPString ipForStatus /\
    att_AddressVNI att3 = pl_VNI lockForStatus /\
    att_LockUID att3 = pl_UID lockForStatus.
Proof.
  intros Hf Hold. unfold setIPInStatus.
  match goal with |- context [attUpdate _ _ ?x] => set (att2 := x) end.
  destruct (cluster_Update_ok ns att2 a (world st) Hf Hold eq_refl)
    as (att3 & c' & HU & H1 & H2 & H3 & H4 & H5 & H6).
  unfold bind at 1. unfold attUpdate. cbn [NetworkAttachments_Update clusterClient].
  rewrite HU. exists att3. eexists. split; [reflexivity|]. done.
Qed.

Lemma ownsLock_lockObject sgv ns name a subnetName lockName uid t :
  GetOwner {| ipl_Namespace := ns; ipl_Name := lockName; ipl_UID := uid;
              ipl_CreationTimestamp := t;
              ipl_OwnerReferences :=
                ipl_OwnerReferences (lockObject sgv ns name a subnetName lockName);
              ipl_SubnetName := subnetName |} "NetworkAttachment"
  = (name, att_UID a).
Proof. reflexivity. Qed.

Lemma lockLoop_cluster {unicode : GoStrings.Unicode}
    sgv fuel ns name a subnetName vni ipU ip lockName
      (st : State Cluster) lfs ip' st' :
  faults (world st) = [] ->
  (forall k l, lockStore (world st) !! k = Some l -> ~ ownsLock (att_UID a) l) ->
  lockLoop clusterClient fuel ns name a vni ipU ip lockName
    (pendingLock ns lockName vni ipU)
    (lockObject sgv ns name a subnetName lockName) st
  = Returns (lfs, ip', None) st' ->
  exists created,
    ipl_Namespace created = ns /\ ipl_Name created = lockName /\
    GetOwner created "NetworkAttachment" = (name, att_UID a) /\
    pl_VNI lfs = vni /\ pl_addrU lfs = ipU /\ pl_UID lfs = ipl_UID created /\
    ip' = ip /\
    lockStore (world st') = <[(ns, lockName) := created]> (lockStore (world st)) /\
    sameButLocks (world st) (world st') /\ atts st' = atts st.
Proof.
  intros Hf Hnone. destruct fuel as [|fuel]; [done|]. cbn [lockLoop].
  unfold bind at 1. unfold lockCreate. cbn [IPLocks_Create clusterClient].
  unfold cluster_Create. rewrite nextFault_nil by done.
  cbn [ipl_Name lockObject].
  destruct (lockStore (world st) !! (ns, lockName)) as [l0|] eqn:E0.
  - cbn [IsAlreadyExists apiError reason].
    unfold bind at 1. unfold lockGet. cbn [IPLocks_Get clusterClient world set_world log_call].
    rewrite cluster_Get_ok by done. rewrite E0. cbn [lookupOr].
    destruct (GetOwner l0 "NetworkAttachment") as [on ou] eqn:EO.
    destruct (String.eqb_spec on name) as [->|]; [|done].
    destruct (String.eqb_spec ou (att_UID a)) as [->|]; [|done].
    exfalso. apply (Hnone _ _ E0). unfold ownsLock. by rewrite EO.
  - unfold ret. intros Hrun. injection Hrun as <- <- <-.
    exists {| ipl_Namespace := ns; ipl_Name := lockName;
              ipl_UID := freshName (clock (world st));
              ipl_CreationTimestamp := timeAt (clock (world st));
              ipl_OwnerReferences :=
                ipl_OwnerReferences (lockObject sgv ns name a subnetName lockName);
              ipl_SubnetName := subnetName |}.
    split_and!; done.
Qed.

Lemma u8_range z : 0 <= u8 z < 256.
Proof. unfold u8. change (2 ^ 8) with 256. apply Z.mod_pos_bound. lia. Qed.

Lemma addrOf_bytes x :
  0 <= x < 2 ^ 32 ->
  addrOf (u8 (Z.shiftr x 24)) (u8 (Z.shiftr x 16)) (u8 (Z.shiftr x 8)) (u8 x) = x.
Proof.
  intros Hx. unfold addrOf, u8. rewrite !Z.shiftr_div_pow2 by lia.
  change (2 ^ 8) with 256; change (2 ^ 16) with 65536;
    change (2 ^ 24) with 16777216; change (2 ^ 32) with 4294967296 in Hx.
  Z.div_mod_to_equations. lia.
Qed.

Lemma NewParsedLock_picked vni ipU lockName (created : IPLock) :
  0 <= vni < 2 ^ 21 -> 0 <= ipU < 2 ^ 32 ->
  makeIPLockName2 vni (Uint32ToIPv4 ipU) = Some lockName ->
  ipl_Name created = lockName ->
  exists p, NewParsedLock created = inl p /\ pl_VNI p = vni /\ pl_addrU p = ipU.
Proof.
  intros Hv Hx Hname Hn.
  pose proof (parse_make vni (Uint32ToIPv4 ipU) _ _ _ _ (To4_IPv4 _ _ _ _)
                (proj1 Hv) (u8_range _) (u8_range _) (u8_range _) (u8_range _)) as Hpm.
  rewrite Hname in Hpm. cbn [option_map] in Hpm. injection Hpm as Hpm.
  destruct (Z.ltb_spec vni (2 ^ 21)); [|lia].
  rewrite addrOf_bytes in Hpm by done.
  unfold NewParsedLock. rewrite Hn, Hpm. eexists. split; [reflexivity|]. done.
Qed.

Lemma pickRange_range base last :
  0 <= base < 2 ^ 32 -> 0 <= last < 2 ^ 32 ->
  0 <= fst (pickRange base last) /\ snd (pickRange base last) < 2 ^ 32.
Proof.
  intros Hb Hl. unfold pickRange. destruct (_ >=? _); cbn [fst snd]; [|lia].
  unfold u32. split; apply Z.mod_pos_bound; lia.
Qed.

Lemma Equal_nil ipU : Gonet.Equal (Uint32ToIPv4 ipU) [] = false.
Proof. reflexivity. Qed.



(** * Further properties of the codec *)

Lemma FormatUint_inj n m :
  0 <= n -> 0 <= m -> Strconv.FormatUint n = Strconv.FormatUint m -> n = m.
Proof.
  intros Hn Hm E.
  pose proof (ParseUint_FormatUint n (n + m + 1) Hn) as H1.
  pose proof (ParseUint_FormatUint m (n + m + 1) Hm) as H2.
  rewrite E in H1. rewrite H1 in H2.
  assert (n < 2 ^ (n + m + 1)).
  { apply Z.lt_le_trans with (2 ^ n); [apply Z.pow_gt_lin_r; lia|].
    apply Z.pow_le_mono_r; lia. }
  assert (m < 2 ^ (n + m + 1)).
  { apply Z.lt_le_trans with (2 ^ m); [apply Z.pow_gt_lin_r; lia|].
    apply Z.pow_le_mono_r; lia. }
  destruct (Z.ltb_spec n (2 ^ (n + m + 1))); [|lia].
  destruct (Z.ltb_spec m (2 ^ (n + m + 1))); [|lia].
  congruence.
Qed.

Lemma Uint32ToIPv4_bytes i :
  exists a b c d, Uint32ToIPv4 i = Gonet.IPv4 a b c d /\
    0 <= a < 256 /\ 0 <= b < 256 /\ 0 <= c < 256 /\ 0 <= d < 256 /\
    (0 <= i < 2 ^ 32 -> addrOf a b c d = i).
Proof.
  eexists _, _, _, _. split; [reflexivity|].
  split_and!; try apply u8_range. apply addrOf_bytes.
Qed.

(** X1.  Turning a 32-bit number into an address and back gives the number. *)
Theorem IPv4ToUint32_Uint32ToIPv4 (i : Z) :
  0 <= i < 2 ^ 32 -> IPv4ToUint32 (Uint32ToIPv4 i) = Some i.
Proof.
  intros Hi. destruct (Uint32ToIPv4_bytes i) as (a & b & c & d & E & Ha & Hb & Hc & Hd & Hi').
  rewrite E, (IPv4ToUint32_bytes _ a b c d) by (done || apply To4_IPv4).
  f_equal. by apply Hi'.
Qed.

Lemma IPv4ToUint32_Uint32ToIPv4_witness :
  IPv4ToUint32 (Uint32ToIPv4 167772165) = Some 167772165.
Proof. apply IPv4ToUint32_Uint32ToIPv4. lia. Defined.

Lemma makeIPLockName2_parts v a b c d :
  GoStrings.Split "-" ("v1-" +:+ Strconv.FormatUint v +:+ "-" +:+ Strconv.FormatUint a
              +:+ "-" +:+ Strconv.FormatUint b +:+ "-" +:+ Strconv.FormatUint c
              +:+ "-" +:+ Strconv.FormatUint d)
  = ["v1"%string; Strconv.FormatUint v; Strconv.FormatUint a; Strconv.FormatUint b;
     Strconv.FormatUint c; Strconv.FormatUint d].
Proof.
  rewrite !append_String, !append_Empty.
  cbn [GoStrings.Split Ascii.eqb Bool.eqb].
  rewrite !Split_app by apply FormatUint_freeOf_dash.
  by rewrite Split_freeOf by apply FormatUint_freeOf_dash.
Qed.

(** X2.  Locks on different VNIs or different addresses get different names:
    [makeIPLockName2] is injective on 32-bit VNIs and addresses. *)
Theorem makeIPLockName2_injective (v v' x x' : Z) :
  0 <= v -> 0 <= v' -> 0 <= x < 2 ^ 32 -> 0 <= x' < 2 ^ 32 ->
  v <> v' \/ x <> x' ->
  makeIPLockName2 v (Uint32ToIPv4 x) <> makeIPLockName2 v' (Uint32ToIPv4 x').
Proof.
  intros Hv Hv' Hx Hx' Hne.
  destruct (Uint32ToIPv4_bytes x) as (a & b & c & d & -> & Ha & Hb & Hc & Hd & Ex).
  destruct (Uint32ToIPv4_bytes x') as (a' & b' & c' & d' & -> & Ha' & Hb' & Hc' & Hd' & Ex').
  unfold makeIPLockName2. rewrite !To4_IPv4. intros E.
  apply (f_equal (fun o => match o with
                           | Some n => GoStrings.Split "-" n
                           | None => []
                           end)) in E.
  cbv beta iota in E.
  rewrite !makeIPLockName2_parts in E. injection E as Ev Ea Eb Ec Ed.
  apply FormatUint_inj in Ev, Ea, Eb, Ec, Ed; try lia.
  specialize (Ex Hx). specialize (Ex' Hx'). subst. lia.
Qed.

Lemma makeIPLockName2_injective_witness :
  makeIPLockName2 7 (Uint32ToIPv4 167772165) <> makeIPLockName2 7 (Uint32ToIPv4 167772166).
Proof. apply makeIPLockName2_injective; lia. Defined.

Lemma ParseUint_range s bits n :
  Strconv.ParseUint s bits = inl n -> 0 <= n < 2 ^ bits.
Proof.
  unfold Strconv.ParseUint. destruct (String.eqb s ""); [done|].
  destruct (NilEmpty.uint_of_string s) as [d|]; [|done].
  destruct (Z.ltb_spec (Z.of_N (N.of_uint d)) (2 ^ bits)); [|done].
  intros [= <-]. lia.
Qed.

Lemma parseAddrBytes_range parts : forall acc x,
  parts <> [] -> parseAddrBytes parts acc = inl x -> 0 <= x < 2 ^ 32.
Proof.
  induction parts as [|p rest IH]; intros acc x Hne; [done|]. cbn [parseAddrBytes].
  destruct (Strconv.ParseUint p 8); [|done].
  destruct rest as [|q rest'].
  - cbn [parseAddrBytes]. intros [= <-]. unfold u32. apply Z.mod_pos_bound. lia.
  - by apply IH.
Qed.

(** X3.  A name that [parseIPLockName] accepts denotes a VNI below 2^21 and a
    32-bit address, and the name [makeIPLockName2] makes for that pair
    parses to the same pair (the accepted name itself may differ from it:
    leading zeros are accepted). *)
Theorem parseIPLockName_sound (lockName : string) (v x : Z) :
  parseIPLockName lockName = inl (v, x) ->
  0 <= v < 2 ^ 21 /\ 0 <= x < 2 ^ 32 /\
  option_map parseIPLockName (makeIPLockName2 v (Uint32ToIPv4 x)) = Some (inl (v, x)).
Proof.
  intros H.
  assert (0 <= v < 2 ^ 21 /\ 0 <= x < 2 ^ 32) as [Hv Hx].
  { unfold parseIPLockName in H.
    destruct (GoStrings.Split "-" lockName) as [|p0 [|p1 [|p2 [|p3 [|p4 [|p5 [|? ?]]]]]]];
      try done.
    destruct (negb _); [done|].
    destruct (Strconv.ParseUint p1 21) as [vni64|] eqn:Ev; [|done].
    destruct (parseAddrBytes _ 0) as [addrU|] eqn:Ea; [|done].
    injection H as <- <-. apply ParseUint_range in Ev.
    apply parseAddrBytes_range in Ea; [|done].
    rewrite u32_small by lia. done. }
  split; [done|]. split; [done|].
  destruct (Uint32ToIPv4_bytes x) as (a & b & c & d & E & Ha & Hb & Hc & Hd & Ex).
  rewrite E, (parse_make v _ a b c d) by (done || lia || apply To4_IPv4).
  destruct (Z.ltb_spec v (2 ^ 21)); [|lia]. by rewrite Ex.
Qed.

Lemma parseIPLockName_sound_witness :
  0 <= 7 < 2 ^ 21 /\ 0 <= 167772165 < 2 ^ 32 /\
  option_map parseIPLockName (makeIPLockName2 7 (Uint32ToIPv4 167772165))
  = Some (inl (7, 167772165)).
Proof. apply (parseIPLockName_sound "v1-007-10-0-00-5"). reflexivity. Defined.

(** X4.  For a VNI of 2^21 or more, the name [makeIPLockName2] makes is
    rejected by [parseIPLockName], so [NewParsedLock] fails on every lock
    that carries it. *)
Theorem NewParsedLock_rejects_large_VNI (v x : Z) (ipl : IPLock) :
  2 ^ 21 <= v ->
  makeIPLockName2 v (Uint32ToIPv4 x) = Some (ipl_Name ipl) ->
  parseIPLockName (ipl_Name ipl) = inr (Errorf "VNI in lockName is malformed") /\
  NewParsedLock ipl = inr (Errorf "VNI in lockName is malformed").
Proof.
  intros Hv Hname.
  destruct (Uint32ToIPv4_bytes x) as (a & b & c & d & E & Ha & Hb & Hc & Hd & _).
  pose proof (parse_make v _ a b c d (To4_IPv4 a b c d) ltac:(lia) Ha Hb Hc Hd) as H.
  rewrite <- E, Hname in H. cbn [option_map] in H.
  destruct (Z.ltb_spec v (2 ^ 21)); [lia|]. injection H as H.
  split; [done|]. unfold NewParsedLock. by rewrite H.
Qed.

Lemma NewParsedLock_rejects_large_VNI_witness :
  NewParsedLock (lockOf "v1-4000000-10-0-0-5" "uid-l5" (timeAt 50) "a1" "uid-a1")
  = inr (Errorf "VNI in lockName is malformed").
Proof.
  refine (proj2 (NewParsedLock_rejects_large_VNI 4000000 167772165 _ _ _));
    [vm_compute; discriminate|reflexivity].
Defined.

(** * Owner references *)

Lemma GetOwner_fold kind refs : forall acc,
  fold_left (fun acc oref =>
               if isControllerOf kind oref
               then (oref_Name oref, oref_UID oref) else acc) refs acc
  = default acc (list.last (map (fun o => (oref_Name o, oref_UID o))
                           (filter (fun o => isControllerOf kind o = true) refs))).
Proof.
  induction refs as [|o refs IH]; intros acc; cbn [fold_left]; [done|].
  rewrite IH, filter_cons.
  destruct (isControllerOf kind o) eqn:E.
  - rewrite decide_True by done. cbn [map]. rewrite list.last_cons.
    by destruct (list.last _).
  - by rewrite decide_False by done.
Qed.

Lemma last_pairs {A B C : Type} (f : A -> B) (g : A -> C) (b : B) (c : C) l :
  fst (default (b, c) (list.last (map (fun o => (f o, g o)) l)))
  = default b (list.last (map f l)).
Proof.
  induction l as [|o l IH]; [done|]. cbn [map]. rewrite !list.last_cons.
  destruct l as [|o' l]; [done|]. cbn [map] in *. rewrite !list.last_cons in *.
  destruct (list.last (map _ l)), (list.last (map f l)); done.
Qed.

(** X5.  The owner [GetOwner] reports for the kind NetworkAttachment is the
    last controlling owner reference of that kind: its name is the last of
    the names [OwningAttachments] indexes the lock under, so the lock is
    found through the index under that name; when the lock is indexed under
    no name, [GetOwner] reports the empty name and UID. *)
Theorem GetOwner_last_OwningAttachments (ipl : IPLock) :
  fst (GetOwner ipl "NetworkAttachment")
  = default ""%string (list.last (OwningAttachments ipl)) /\
  (fst (GetOwner ipl "NetworkAttachment") <> ""%string ->
   fst (GetOwner ipl "NetworkAttachment") ∈ OwningAttachments ipl) /\
  (OwningAttachments ipl = [] ->
   GetOwner ipl "NetworkAttachment" = (""%string, ""%string)).
Proof.
  unfold GetOwner, OwningAttachments. rewrite GetOwner_fold.
  generalize (filter (fun o => isControllerOf "NetworkAttachment" o = true)
                     (ipl_OwnerReferences ipl)).
  intros l. rewrite last_pairs. split; [done|]. split.
  - destruct (list.last (map oref_Name l)) as [n|] eqn:EL; [|done].
    intros _. cbn. apply list.last_Some in EL as (l' & ->). set_solver.
  - destruct l; done.
Qed.

(** * Further properties of the lists of parsed locks *)

Lemma Best_fold_keeps rest : forall first y,
  wallClock y -> Forall wallClock rest ->
  IsBetterThan y first = false ->
  IsBetterThan y
    (fold_left (fun ans elt => if IsBetterThan elt ans then elt else ans) rest first)
  = false.
Proof.
  induction rest as [|e rest IH]; intros first y Hy Hr Hf; cbn [fold_left]; [done|].
  apply Forall_cons_1 in Hr as [He Hr].
  destruct (IsBetterThan e first) eqn:E; [|by apply IH].
  apply IH; [done|done|]. destruct (IsBetterThan y e) eqn:Eye; [|done].
  by rewrite (IsBetterThan_trans y e first Hy He Eye E) in Hf.
Qed.

Lemma Best_fold_maximal rest : forall first y,
  Forall wallClock (first :: rest) ->
  (y = first \/ y ∈ rest) ->
  IsBetterThan y
    (fold_left (fun ans elt => if IsBetterThan elt ans then elt else ans) rest first)
  = false.
Proof.
  induction rest as [|e rest IH]; intros first y Hw Hy; cbn [fold_left].
  - destruct Hy as [->|Hy]; [apply IsBetterThan_irrefl|set_solver].
  - apply Forall_cons_1 in Hw as [Hf Hw]. pose proof Hw as Hw'.
    apply Forall_cons_1 in Hw' as [He Hr].
    destruct Hy as [->|Hy].
    + apply Best_fold_keeps; [done|done|].
      destruct (IsBetterThan e first) eqn:E;
        [by apply IsBetterThan_asym|apply IsBetterThan_irrefl].
    + apply elem_of_cons in Hy as [->|Hy].
      * apply Best_fold_keeps; [done|done|].
        destruct (IsBetterThan e first) eqn:E; [apply IsBetterThan_irrefl|done].
      * destruct (IsBetterThan e first); apply IH; try (by right); by constructor.
Qed.

Lemma Best_no_better (l : ParsedLockList) (y : ParsedLock) :
  Forall wallClock l -> y ∈ l -> IsBetterThan y (Best l) = false.
Proof.
  destruct l as [|first rest]; [set_solver|]. intros Hw Hy. cbn [Best].
  apply Best_fold_maximal; [done|]. set_solver.
Qed.

(** X6.  No member of a list is better than its [Best], when no creation
    time in the list carries a monotonic clock reading. *)
Theorem Best_maximal (l : ParsedLockList) (y : ParsedLock) :
  Forall wallClock l -> y ∈ l -> IsBetterThan y (Best l) = false.
Proof. apply Best_no_better. Qed.

Lemma Best_maximal_witness : IsBetterThan lockB (Best [lockA; lockB; lockC]) = false.
Proof.
  apply Best_maximal.
  - repeat constructor.
  - set_solver.
Defined.

(** Where creation times with and without a monotonic reading meet, the
    order has cycles, and a member of the list can be better than its
    [Best]. *)
Lemma Best_not_maximal_across_clocks :
  Best [lockW; lockM2; lockM1] = lockM1 /\ IsBetterThan lockW lockM1 = true.
Proof. vm_compute. split; reflexivity. Qed.

(** X7.  The choice [Best] makes does not depend on the order of the list,
    when no creation time in the list carries a monotonic clock reading,
    creation times that denote the same instant are identical, and no two
    members have both the same creation time and the same UID. *)
Theorem Best_permutation (l l' : ParsedLockList) :
  l ≡ₚ l' -> Forall wallClock l -> instantsIdentical l ->
  NoDup (map orderKey l) -> Best l = Best l'.
Proof.
  intros Hp Hw Hid Hnd.
  assert (Forall wallClock l') as Hw' by (by rewrite <- Hp).
  destruct l as [|x l].
  { apply Permutation_nil_l in Hp. by subst. }
  destruct l' as [|x' l'].
  { by apply Permutation_nil_r in Hp. }
  assert (forall z, z ∈ x' :: l' <-> z ∈ x :: l) as Hsame.
  { intros z. by rewrite Hp. }
  pose proof (Best_member x l) as Hin. pose proof (Best_member x' l') as Hin'.
  apply Hsame in Hin'.
  apply (NoDup_fmap_eq orderKey (x :: l)); [done|done|done|].
  destruct (IsBetterThan_neither (Best (x :: l)) (Best (x' :: l'))) as [HE Hkey].
  - by apply Best_no_better; [|apply Hsame].
  - by apply Best_no_better.
  - apply Hkey. unfold instantsIdentical in Hid.
    rewrite list.Forall_forall in Hid.
    specialize (Hid _ Hin). rewrite list.Forall_forall in Hid. by apply Hid.
Qed.

Lemma Best_permutation_witness :
  Best [lockA; lockB; lockC] = Best [lockC; lockA; lockB].
Proof.
  apply Best_permutation.
  - by rewrite (Permutation_app_comm [lockA; lockB] [lockC]).
  - repeat constructor.
  - refine (bool_decide_unpack _ _). vm_compute. exact I.
  - refine (bool_decide_unpack _ _). vm_compute. exact I.
Defined.

Lemma Equal_sym x y : Equal x y = Equal y x.
Proof.
  unfold Equal. rewrite (Z.eqb_sym (pl_VNI x)), (Z.eqb_sym (pl_addrU x)),
    (String.eqb_sym (pl_UID x)).
  by rewrite (bool_decide_ext _ (pl_CreationTime y = pl_CreationTime x)).
Qed.

Lemma Equal_spec x y :
  Equal x y = true <->
  pl_VNI x = pl_VNI y /\ pl_UID x = pl_UID y /\
  pl_CreationTime x = pl_CreationTime y /\ pl_addrU x = pl_addrU y.
Proof.
  unfold Equal.
  rewrite !andb_true_iff, !Z.eqb_eq, String.eqb_eq, bool_decide_eq_true. tauto.
Qed.

Lemma Equal_trans x y z : Equal x y = true -> Equal y z = true -> Equal x z = true.
Proof. rewrite !Equal_spec. intuition congruence. Qed.

Lemma Equal_right x y z : Equal x y = true -> Equal z x = Equal z y.
Proof.
  intros H. destruct (Equal z y) eqn:E.
  - rewrite (Equal_sym x y) in H. by apply (Equal_trans z y x).
  - destruct (Equal z x) eqn:E'; [|done].
    by rewrite (Equal_trans z x y E' H) in E.
Qed.

Lemma Has_app l1 l2 z : Has (l1 ++ l2) z = Has l1 z || Has l2 z.
Proof. unfold Has. apply existsb_app. Qed.

Lemma Has_cons e l z : Has (e :: l) z = Equal e z || Has l z.
Proof. reflexivity. Qed.

Lemma Has_Equal l x y : Equal x y = true -> Has l x = Has l y.
Proof.
  intros H. unfold Has. induction l as [|e l IH]; [done|]. cbn [existsb].
  by rewrite IH, (Equal_right x y e H).
Qed.

Lemma AddFunc_eq l e :
  AddFunc l e = if Has l e then (l, false) else (l ++ [e], true).
Proof. unfold AddFunc, Has. by destruct l. Qed.

Lemma distinctLocks_snoc l e :
  distinctLocks l -> Has l e = false -> distinctLocks (l ++ [e]).
Proof.
  induction l as [|x l IH]; cbn [distinctLocks app]; [done|].
  intros [Hx Hd] He. unfold Has in He. cbn [existsb] in He.
  apply orb_false_iff in He as [Hxe He]. split; [|by apply IH].
  rewrite Has_app, Hx. unfold Has. cbn [existsb].
  by rewrite (Equal_sym e x), Hxe.
Qed.

Lemma AddListFunc_fold l2 : forall l d,
  let r := fold_left (fun '(with_, diff) elt =>
                        let '(w, diffHere) := AddFunc with_ elt in
                        (w, diff || diffHere)) l2 (l, d) in
  (forall z, Has (fst r) z = Has l z || Has l2 z) /\
  snd r = d || existsb (fun e => negb (Has l e)) l2 /\
  (distinctLocks l -> distinctLocks (fst r)) /\
  l `prefix_of` fst r.
Proof.
  induction l2 as [|e l2 IH]; intros l d; cbn [fold_left].
  - cbn. split_and!; [intros; by rewrite orb_false_r|by rewrite orb_false_r|done|done].
  - rewrite AddFunc_eq. destruct (Has l e) eqn:He.
    + destruct (IH l (d || false)) as (H1 & H2 & H3 & H4). cbv zeta in *.
      split_and!; [|by rewrite H2; cbn [existsb]; rewrite He, orb_false_r|done|done].
      intros z. rewrite H1, (Has_cons e l2 z).
      destruct (Equal e z) eqn:Eez; [|done].
      rewrite <- (Has_Equal l e z Eez), He. done.
    + destruct (IH (l ++ [e]) (d || true)) as (H1 & H2 & H3 & H4). cbv zeta in *.
      split_and!.
      * intros z. rewrite H1, Has_app, (Has_cons e l2 z), (Has_cons e [] z).
        cbn [Has existsb]. by rewrite orb_false_r, orb_assoc.
      * rewrite H2. cbn [existsb]. rewrite He. cbn. by rewrite !orb_true_r.
      * intros Hd. apply H3. by apply distinctLocks_snoc.
      * etrans; [|exact H4]. by apply prefix_app_r.
Qed.

(** X8.  [AddListFunc] is union up to [Equal]: the result has a member [Equal]
    to [z] exactly when one of the two lists has; it starts with the first
    list, in its order; it reports a difference exactly when the second
    list has a member that the first has no [Equal] of; and it has no two
    [Equal] members when the first list has none, whatever the second
    list repeats. *)
Theorem AddListFunc_union (l l2 : ParsedLockList) :
  (forall z, Has (fst (AddListFunc l l2)) z = Has l z || Has l2 z) /\
  snd (AddListFunc l l2) = existsb (fun e => negb (Has l e)) l2 /\
  (distinctLocks l -> distinctLocks (fst (AddListFunc l l2))) /\
  l `prefix_of` fst (AddListFunc l l2).
Proof. apply (AddListFunc_fold l2 l false). Qed.

Lemma AddListFunc_union_witness :
  distinctLocks (fst (AddListFunc [lockA; lockB] [lockB; lockC; lockC])).
Proof.
  apply (AddListFunc_union [lockA; lockB] [lockB; lockC; lockC]).
  vm_compute. done.
Defined.

Lemma RemFunc_eq l e :
  RemFunc l e = match removeFirst l e with
                | Some sans => (sans, true)
                | None => (l, false)
                end.
Proof.
  unfold RemFunc. destruct l as [|x [|y l]]; [done| |done].
  cbn [removeFirst]. rewrite (Equal_sym e x). by destruct (Equal x e).
Qed.

Lemma removeFirst_None l e : removeFirst l e = None <-> Has l e = false.
Proof.
  induction l as [|x l IH]; [done|]. cbn [removeFirst]. rewrite Has_cons.
  destruct (Equal x e); [done|]. cbn [orb]. rewrite <- IH.
  destruct (removeFirst l e); done.
Qed.

Lemma removeFirst_Some l e l' :
  removeFirst l e = Some l' ->
  exists l1 x l2, l = l1 ++ x :: l2 /\ Equal x e = true /\ Has l1 e = false /\
                  l' = l1 ++ l2.
Proof.
  revert l'. induction l as [|x l IH]; intros l'; [done|]. cbn [removeFirst].
  destruct (Equal x e) eqn:E.
  - intros [= <-]. by exists [], x, l.
  - destruct (removeFirst l e) as [r|]; [|done]. intros [= <-].
    destruct (IH r eq_refl) as (l1 & y & l2 & -> & Hy & H1 & ->).
    exists (x :: l1), y, l2. split_and!; try done. by rewrite Has_cons, E.
Qed.

Lemma distinctLocks_app l1 l2 :
  distinctLocks (l1 ++ l2) <->
  distinctLocks l1 /\ distinctLocks l2 /\
  forall x, x ∈ l1 -> Has l2 x = false.
Proof.
  induction l1 as [|y l1 IH]; cbn [app distinctLocks].
  - split; [intros H; split_and!; [done|done|set_solver]|tauto].
  - rewrite IH, Has_app. split.
    + intros (Hy & H1 & H2 & H3). apply orb_false_iff in Hy as [Hy1 Hy2].
      split_and!; try done. intros x Hx. apply elem_of_cons in Hx as [->|Hx]; auto.
    + intros ((Hy & H1) & H2 & H3). split_and!; try done.
      * rewrite Hy. cbn. apply H3. set_solver.
      * intros x Hx. apply H3. set_solver.
Qed.

Lemma Has_false l z : Has l z = false <-> forall x, x ∈ l -> Equal x z = false.
Proof.
  induction l as [|y l IH]; [set_solver|]. rewrite Has_cons, orb_false_iff, IH.
  split.
  - intros [Hy Hl] x Hx. apply elem_of_cons in Hx as [->|Hx]; auto.
  - intros H. split; [apply H; set_solver|]. intros x Hx. apply H. set_solver.
Qed.

(** X9.  [RemFunc] takes out the first member [Equal] to [elt], and nothing
    else: it reports whether there was one; the list is returned as it is
    when there was none; and when no two members of the list are [Equal],
    the result has no member [Equal] to [elt] and keeps every other
    member. *)
Theorem RemFunc_removes_first (l : ParsedLockList) (elt : ParsedLock) :
  snd (RemFunc l elt) = Has l elt /\
  (Has l elt = false -> fst (RemFunc l elt) = l) /\
  (Has l elt = true ->
   exists l1 x l2, l = l1 ++ x :: l2 /\ Equal x elt = true /\
                   Has l1 elt = false /\ fst (RemFunc l elt) = l1 ++ l2) /\
  (distinctLocks l ->
   distinctLocks (fst (RemFunc l elt)) /\
   forall z, Has (fst (RemFunc l elt)) z = Has l z && negb (Equal elt z)).
Proof.
  rewrite RemFunc_eq. destruct (removeFirst l elt) as [sans|] eqn:E.
  - destruct (removeFirst_Some _ _ _ E) as (l1 & x & l2 & -> & Hx & H1 & ->).
    cbn [fst snd]. split_and!.
    + by rewrite Has_app, Has_cons, Hx, orb_true_r.
    + rewrite Has_app, Has_cons, Hx, orb_true_r. done.
    + intros _. by exists l1, x, l2.
    + intros Hd. apply distinctLocks_app in Hd as (Hd1 & Hd2 & Hd3).
      destruct Hd2 as [Hx2 Hd2]. split.
      * apply distinctLocks_app. split_and!; try done.
        intros y Hy. specialize (Hd3 y Hy). rewrite Has_cons in Hd3.
        by apply orb_false_iff in Hd3 as [_ ?].
      * intros z. rewrite !Has_app, Has_cons.
        destruct (Equal elt z) eqn:Ez.
        -- rewrite andb_false_r. apply orb_false_iff. split.
           ++ by rewrite <- (Has_Equal l1 elt z Ez).
           ++ rewrite <- (Has_Equal l2 elt z Ez).
              rewrite <- (Has_Equal l2 x elt Hx). done.
        -- rewrite andb_true_r.
           destruct (Equal x z) eqn:Exz; [|done].
           rewrite (Equal_sym x elt) in Hx.
           by rewrite (Equal_trans elt x z Hx Exz) in Ez.
  - apply removeFirst_None in E. cbn [fst snd]. split_and!; try done.
    + by rewrite E.
    + intros Hd. split; [done|]. intros z.
      destruct (Equal elt z) eqn:Ez; [|by rewrite andb_true_r].
      by rewrite andb_false_r, <- (Has_Equal l elt z Ez).
Qed.

Lemma RemFunc_removes_first_witness :
  Has (fst (RemFunc [lockA; lockB; lockC] lockB)) lockB
  = Has [lockA; lockB; lockC] lockB && negb (Equal lockB lockB).
Proof.
  apply (RemFunc_removes_first [lockA; lockB; lockC] lockB).
  vm_compute. done.
Defined.

(** X10.  Removing with [RemFunc] what [AddFunc] has just added gives the list
    back. *)
Theorem RemFunc_AddFunc (l : ParsedLockList) (elt : ParsedLock) :
  Has l elt = false -> RemFunc (fst (AddFunc l elt)) elt = (l, true).
Proof.
  intros H. rewrite AddFunc_eq, H. cbn [fst]. rewrite RemFunc_eq.
  assert (removeFirst (l ++ [elt]) elt = Some l) as ->; [|done].
  induction l as [|x l IH]; cbn [app removeFirst].
  - by rewrite Equal_refl.
  - rewrite Has_cons in H. apply orb_false_iff in H as [Hx H].
    by rewrite Hx, IH.
Qed.

Lemma RemFunc_AddFunc_witness :
  RemFunc (fst (AddFunc [lockA; lockB] lockC)) lockC = ([lockA; lockB], true).
Proof. apply RemFunc_AddFunc. reflexivity. Defined.

Lemma GetOwner_last_OwningAttachments_witness :
  fst (GetOwner ownLock "NetworkAttachment") ∈ OwningAttachments ownLock.
Proof.
  apply (GetOwner_last_OwningAttachments ownLock). vm_compute. discriminate.
Defined.
(** * The bounds of a subnet's block *)

Lemma land_maskByte x j :
  0 <= x < 256 -> 0 <= j <= 8 -> Z.land x (255 - (2 ^ j - 1)) = x - x mod 2 ^ j.
Proof.
  intros Hx Hj.
  assert (forallb (fun x => forallb (fun j => Z.land x (255 - (2 ^ j - 1))
                                             =? x - x mod 2 ^ j)
                                    (seqZ 0 9)) (seqZ 0 256) = true) as H
    by (vm_compute; reflexivity).
  assert (In x (seqZ 0 256)) as Hx' by (apply list_elem_of_In, elem_of_seqZ; lia).
  assert (In j (seqZ 0 9)) as Hj' by (apply list_elem_of_In, elem_of_seqZ; lia).
  pose proof (proj1 (forallb_forall _ _) H x Hx') as H'.
  apply Z.eqb_eq. exact (proj1 (forallb_forall _ _) H' j Hj').
Qed.

Ltac fold_pows :=
  repeat match goal with
         | |- context [2 ^ ?e] =>
             let v := eval vm_compute in (2 ^ e) in
             progress change (2 ^ e) with v
         end.

Lemma block_arith a b c d n :
  0 <= a < 256 -> 0 <= b < 256 -> 0 <= c < 256 -> 0 <= d < 256 ->
  0 <= n <= 32 ->
  (a - a mod 2 ^ (8 - Z.min 8 (Z.max 0 (n - 8 * 0)))) * 2 ^ 24
  + (b - b mod 2 ^ (8 - Z.min 8 (Z.max 0 (n - 8 * 1)))) * 2 ^ 16
  + (c - c mod 2 ^ (8 - Z.min 8 (Z.max 0 (n - 8 * 2)))) * 2 ^ 8
  + (d - d mod 2 ^ (8 - Z.min 8 (Z.max 0 (n - 8 * 3))))
  = addrOf a b c d - addrOf a b c d mod 2 ^ (32 - n).
Proof.
  intros Ha Hb Hc Hd Hn. unfold addrOf.
  assert (exists k : nat, n = Z.of_nat k /\ (k <= 32)%nat) as (k & -> & Hk)
    by (exists (Z.to_nat n); lia).
  do 33 (destruct k as [|k];
         [match goal with
          | |- context [Z.of_nat ?k] =>
              let v := eval vm_compute in (Z.of_nat k) in
              change (Z.of_nat k) with v
          end; fold_pows; Z.div_mod_to_equations; lia|]).
  lia.
Qed.

Lemma block_bounds x k :
  0 <= x < 2 ^ 32 -> 0 <= k <= 32 ->
  0 <= x - x mod 2 ^ k <= x /\ x <= x - x mod 2 ^ k + 2 ^ k - 1 < 2 ^ 32.
Proof.
  intros Hx Hk.
  pose proof (Z.mod_pos_bound x (2 ^ k) ltac:(apply Z.pow_pos_nonneg; lia)) as Hm.
  assert (0 < 2 ^ k) as HP by (apply Z.pow_pos_nonneg; lia).
  pose proof (Z.mod_le x (2 ^ k) ltac:(lia) HP) as Hle.
  assert (2 ^ 32 = 2 ^ k * 2 ^ (32 - k)) as Hq.
  { rewrite <- Z.pow_add_r by lia. f_equal. lia. }
  split; [lia|]. split; [lia|].
  set (P := 2 ^ k) in *. set (q := 2 ^ (32 - k)) in *.
  rewrite Hq in *.
  assert (x / P < q) by (apply Z.div_lt_upper_bound; lia).
  pose proof (Z.div_mod x P ltac:(lia)). nia.
Qed.

(** X11.  For an IPv4 address [a.b.c.d] and a prefix length [n <= 32], the
    bounds [IPNetToBoundsU] gives for the network [a.b.c.d/n] as
    [net.ParseCIDR] builds it (the address masked) are the first and the
    last address of the aligned block of [2^(32-n)] addresses around
    [a.b.c.d]: nothing wraps around, and [min <= max]. *)
Theorem IPNetToBoundsU_block (a b c d n : Z) :
  0 <= a < 256 -> 0 <= b < 256 -> 0 <= c < 256 -> 0 <= d < 256 ->
  0 <= n <= 32 ->
  let m := {| Gonet.ones := n; Gonet.bits := 32 |} in
  let x := addrOf a b c d in
  let base := x - x mod 2 ^ (32 - n) in
  IPNetToBoundsU {| Gonet.net_IP := Gonet.Mask (Gonet.IPv4 a b c d) m;
                    Gonet.net_Mask := m |}
  = Some (base, base + 2 ^ (32 - n) - 1) /\
  0 <= base <= x /\ x <= base + 2 ^ (32 - n) - 1 < 2 ^ 32.
Proof.
  intros Ha Hb Hc Hd Hn m x base.
  assert (0 <= x < 2 ^ 32) as Hx by (unfold x, addrOf; lia).
  pose proof (block_bounds x (32 - n) Hx ltac:(lia)) as Hbounds.
  fold base in Hbounds. split; [|exact Hbounds].
  assert (Gonet.Mask (Gonet.IPv4 a b c d) m
          = [Z.land a (Gonet.maskByte m 0); Z.land b (Gonet.maskByte m 1);
             Z.land c (Gonet.maskByte m 2); Z.land d (Gonet.maskByte m 3)]) as ->.
  { unfold Gonet.Mask, m. cbn [Gonet.bits]. rewrite Z.eqb_refl.
    change (Gonet.IPv4 a b c d) with (Gonet.v4InV6Prefix ++ [a; b; c; d]).
    cbn [List.length app Gonet.v4InV6Prefix Nat.eqb andb take drop].
    rewrite bool_decide_eq_true_2 by done. reflexivity. }
  unfold IPNetToBoundsU, IPv4ToUint32.
  cbn [Gonet.net_IP Gonet.net_Mask Gonet.To4 List.length Nat.eqb].
  unfold m, Gonet.maskByte. cbn [Gonet.ones Gonet.bits].
  rewrite !land_maskByte by lia.
  rewrite !Z.shiftl_mul_pow2 by lia.
  change (Z.of_nat 0) with 0. change (Z.of_nat 1) with 1.
  change (Z.of_nat 2) with 2. change (Z.of_nat 3) with 3.
  rewrite (block_arith a b c d n) by done. fold x. fold base.
  assert (0 < 2 ^ (32 - n) <= 2 ^ 32) as HP.
  { split; [apply Z.pow_pos_nonneg; lia|apply Z.pow_le_mono_r; lia]. }
  rewrite (u32_small base) by lia.
  rewrite Z.mul_1_l. unfold u64.
  rewrite (Z.mod_small (2 ^ (32 - n))) by (change (2 ^ 64) with (2 ^ 32 * 2 ^ 32); nia).
  rewrite (Z.mod_small (2 ^ (32 - n) - 1)) by (change (2 ^ 64) with (2 ^ 32 * 2 ^ 32); nia).
  rewrite (u32_small (2 ^ (32 - n) - 1)) by lia.
  rewrite u32_small by lia. do 2 f_equal. lia.
Qed.

Lemma IPNetToBoundsU_block_witness :
  option_map IPNetToBoundsU (Gonet.ParseCIDR noIPv6 "10.0.0.77/26")
  = Some (Some (167772224, 167772287)).
Proof.
  destruct (IPNetToBoundsU_block 10 0 0 77 26) as [H _]; [lia..|].
  cbv zeta in H. 
  change (Gonet.ParseCIDR noIPv6 "10.0.0.77/26")
    with (Some {| Gonet.net_IP := Gonet.Mask (Gonet.IPv4 10 0 0 77)
                                    {| Gonet.ones := 26; Gonet.bits := 32 |};
                  Gonet.net_Mask := {| Gonet.ones := 26; Gonet.bits := 32 |} |}).
  cbn [option_map]. rewrite H. reflexivity.
Defined.
(** * Edge behaviour of [processNetworkAttachment] *)

(** X12.  When the status of the attachment holds an address that is not IPv4
    (an IPv6 literal), [processNetworkAttachment] panics once the subnet
    and the indexed locks have been looked up: [IPv4ToUint32] indexes the
    nil slice that [To4] returns. *)
Theorem processNetworkAttachment_panics_on_IPv6_status {unicode : GoStrings.Unicode} {W : Type}
    (parseIPv6 : string -> Gonet.IP) (sgv : string) (env : Client W)
    (fuel : nat) (ns name : string) (a : NetworkAttachment) (sn : Subnet)
    (ipNet : Gonet.IPNet) (owned : list IPLock) (st : State W) :
  netattLister_Get env ns name (world st) = inl a ->
  subnetLister_Get env ns (att_Subnet a) (world st) = inl sn ->
  Gonet.ParseCIDR parseIPv6 (sn_IPv4 sn) = Some ipNet ->
  is_Some (IPNetToBoundsU ipNet) ->
  iplIndexer_ByIndex env name (world st) = inl owned ->
  att_IPv4 a <> ""%string ->
  Gonet.ParseIP parseIPv6 (att_IPv4 a) <> [] ->
  Gonet.To4 (Gonet.ParseIP parseIPv6 (att_IPv4 a)) = [] ->
  processNetworkAttachment parseIPv6 sgv env fuel ns name st = Panics.
Proof.
  intros Hatt Hsub Hcidr [[base last] Hb] Hidx Hne Hip Hv6.
  unfold processNetworkAttachment, bind at 1, netattLister, gets. rewrite Hatt.
  unfold reconcile, bind at 1.
  assert (exists k st1, getNetworkAttachmentData ns name true st = Returns (Some k) st1 /\
                        world st1 = world st) as (k & st1 & -> & Hw).
  { unfold getNetworkAttachmentData. destruct (atts st !! (ns, name)); eauto. }
  unfold bind at 1.
  assert (analyzeAndRelease parseIPv6 env ns name (Some a) (Some k) st1 = Panics) as ->;
    [|done].
  unfold analyzeAndRelease, bind at 1, subnetLister, gets. rewrite Hw, Hsub, Hcidr, Hb.
  unfold analyzeLocks, bind at 1, ByIndex, gets. rewrite Hw, Hidx.
  unfold bind at 1.
  assert (forall b, considerStatusLock parseIPv6 env ns name (Some a) (att_LockUID a)
                      (sn_VNI sn) base last b st1 = Panics) as ->; [|done].
  intros b. unfold considerStatusLock.
  destruct (String.eqb_spec (att_IPv4 a) ""); [done|].
  apply nonNil_spec in Hip. rewrite Hip. cbn [negb].
  unfold IPv4ToUint32. by rewrite Hv6.
Qed.

Lemma processNetworkAttachment_panics_on_IPv6_status_witness :
  processNetworkAttachment oneIPv6 groupVersion clusterClient 3 "ex" "a1"
    (stateOn clusterV6) = Panics.
Proof.
  refine (processNetworkAttachment_panics_on_IPv6_status oneIPv6 groupVersion
            clusterClient 3 "ex" "a1" attV6 subnetS1 _ [] (stateOn clusterV6)
            _ _ _ _ _ _ _ _).
  - vm_compute; reflexivity.
  - vm_compute; reflexivity.
  - vm_compute; reflexivity.
  - vm_compute. eexists; reflexivity.
  - vm_compute; reflexivity.
  - discriminate.
  - vm_compute. discriminate.
  - vm_compute; reflexivity.
Defined.

(** X13.  When the subnet of the attachment is not found, or its CIDR does not
    parse, or the lock indexer fails, [processNetworkAttachment] returns
    nil (the attachment is not retried) without any call on the API server
    and without touching the address cache; the only trace it leaves is
    the (zero) attachment data it adds when there was none. *)
Theorem processNetworkAttachment_gives_up {unicode : GoStrings.Unicode} {W : Type}
    (parseIPv6 : string -> Gonet.IP) (sgv : string) (env : Client W)
    (fuel : nat) (ns name : string) (a : NetworkAttachment) (st : State W) :
  netattLister_Get env ns name (world st) = inl a ->
  givesUp parseIPv6 env ns name a (world st) ->
  processNetworkAttachment parseIPv6 sgv env fuel ns name st
  = Returns None
      {| atts := match atts st !! (ns, name) with
                 | Some _ => atts st
                 | None => <[(ns, name) := zeroNetworkAttachmentData]> (atts st)
                 end;
         addrCache := addrCache st; world := world st; calls := calls st |}.
Proof.
  intros Hatt Hup.
  unfold processNetworkAttachment, bind at 1, netattLister, gets. rewrite Hatt.
  unfold reconcile, bind at 1.
  set (st1 := {| atts := match atts st !! (ns, name) with
                         | Some _ => atts st
                         | None => <[(ns, name) := zeroNetworkAttachmentData]> (atts st)
                         end;
                 addrCache := addrCache st; world := world st; calls := calls st |}).
  assert (getNetworkAttachmentData ns name true st = Returns (Some (ns, name)) st1) as ->.
  { unfold getNetworkAttachmentData, st1. destruct (atts st !! (ns, name)); [|done].
    by destruct st. }
  unfold bind at 1, analyzeAndRelease, bind at 1, subnetLister, gets.
  change (world st1) with (world st).
  destruct Hup as [e He|sn Hsn Hc|sn ipNet e Hsn Hc [[base last] Hb] Hi].
  - by rewrite He.
  - by rewrite Hsn, Hc.
  - rewrite Hsn, Hc, Hb. unfold analyzeLocks, bind at 1, ByIndex, gets.
    change (world st1) with (world st). by rewrite Hi.
Qed.

Lemma processNetworkAttachment_gives_up_witness :
  processNetworkAttachment noIPv6 groupVersion clusterClient 1 "ex" "a1"
    (stateOn clusterNoSubnet)
  = Returns None
      {| atts := {[ ("ex", "a1")%string := zeroNetworkAttachmentData ]};
         addrCache := ∅; world := clusterNoSubnet; calls := [] |}.
Proof.
  refine (processNetworkAttachment_gives_up noIPv6 groupVersion clusterClient 1
            "ex" "a1" attA1 (stateOn clusterNoSubnet) _ _).
  - vm_compute; reflexivity.
  - apply (NoSubnet _ _ _ _ _ _ (apiError ReasonNotFound)). vm_compute; reflexivity.
Defined.

(** * Releasing locks *)

(** X14.  [releaseLocks] deletes the locks in the order of the list and stops
    at the first delete that fails.  It returns nil only when every lock
    of the list was tried in turn and each call answered nil, NotFound or
    Gone.  It returns an error only when the locks before some lock of the
    list were so deleted, the call on that lock answered this very error,
    which is neither NotFound nor Gone, and no lock after it was tried.
    The attachment data and the address cache are not touched: an address
    is freed in the cache only when the lock informer notifies the
    deletion. *)
Theorem releaseLocks_stops_at_first_failure {W : Type} (env : Client W)
    (locksToRelease : ParsedLockList) (st : State W) :
  exists err st',
    releaseLocks env locksToRelease st = Returns err st' /\
    atts st' = atts st /\ addrCache st' = addrCache st /\
    match err with
    | None =>
        deletedInTurn env (world st) locksToRelease (world st') /\
        calls st' = rev (map CallDelete locksToRelease) ++ calls st
    | Some e =>
        exists before failed rest w1,
          locksToRelease = before ++ failed :: rest /\
          deletedInTurn env (world st) before w1 /\
          IPLocks_Delete env (pl_ns failed) (pl_name failed) (pl_UID failed) w1
          = (Some e, world st') /\
          IsNotFound e = false /\ IsGone e = false /\
          calls st' = rev (map CallDelete (before ++ [failed])) ++ calls st
    end.
Proof.
  revert st. induction locksToRelease as [|p l IH]; intros st; cbn [releaseLocks].
  - exists None, st. split_and!; try done. constructor.
  - unfold bind, deleteIPLockObject.
    destruct (IPLocks_Delete env (pl_ns p) (pl_name p) (pl_UID p) (world st))
      as [answer w1] eqn:ED.
    set (st1 := log_call (CallDelete p) (set_world w1 st)).
    assert (match answer with
            | None => True
            | Some e => IsNotFound e || IsGone e = true
            end ->
            exists err st',
              releaseLocks env l st1 = Returns err st' /\
              atts st' = atts st /\ addrCache st' = addrCache st /\
              match err with
              | None =>
                  deletedInTurn env (world st) (p :: l) (world st') /\
                  calls st' = rev (map CallDelete (p :: l)) ++ calls st
              | Some e =>
                  exists before failed rest w2,
                    p :: l = before ++ failed :: rest /\
                    deletedInTurn env (world st) before w2 /\
                    IPLocks_Delete env (pl_ns failed) (pl_name failed)
                      (pl_UID failed) w2 = (Some e, world st') /\
                    IsNotFound e = false /\ IsGone e = false /\
                    calls st' = rev (map CallDelete (before ++ [failed])) ++ calls st
              end) as Hnext.
    { intros Hok. destruct (IH st1) as (err & st' & Hrun & Ha & Hc & Hres).
      exists err, st'. split_and!; [done|done|done|].
      destruct err as [e|].
      - destruct Hres as (before & failed & rest & w2 & -> & Hd & Hf & Hn & Hg & Hl).
        exists (p :: before), failed, rest, w2. split_and!; try done.
        + by apply (deleted_next env _ w1 _ _ _ answer).
        + rewrite Hl. cbn [app map rev]. rewrite !map_app, !rev_app_distr.
          cbn [map rev app]. by rewrite <- !app_assoc.
      - destruct Hres as [Hd Hl]. split.
        + by apply (deleted_next env _ w1 _ _ _ answer).
        + rewrite Hl. cbn [map rev]. by rewrite <- app_assoc. }
    destruct answer as [e|]; [|by apply Hnext].
    destruct (IsNotFound e || IsGone e) eqn:Eok; [by apply Hnext|].
    apply orb_false_iff in Eok as [Hn Hg].
    exists (Some e), st1. split_and!; try done.
    exists [], p, l, (world st). split_and!; try done. constructor.
Qed.

(** The delete of the first lock is refused, and the second lock is not
    tried. *)
Lemma releaseLocks_stops_at_first_failure_witness :
  exists err st',
    releaseLocks clusterClient [parsedOf strayLock; parsedOf slipperLock]
      (stateOn clusterSlipperRefusing) = Returns err st' /\
    atts st' = ∅ /\ addrCache st' = ∅ /\
    match err with
    | None =>
        deletedInTurn clusterClient clusterSlipperRefusing
          [parsedOf strayLock; parsedOf slipperLock] (world st') /\
        calls st'
        = rev (map CallDelete [parsedOf strayLock; parsedOf slipperLock]) ++ []
    | Some e =>
        exists before failed rest w1,
          [parsedOf strayLock; parsedOf slipperLock] = before ++ failed :: rest /\
          deletedInTurn clusterClient clusterSlipperRefusing before w1 /\
          IPLocks_Delete clusterClient (pl_ns failed) (pl_name failed)
            (pl_UID failed) w1 = (Some e, world st') /\
          IsNotFound e = false /\ IsGone e = false /\
          calls st' = rev (map CallDelete (before ++ [failed])) ++ []
    end.
Proof.
  exact (releaseLocks_stops_at_first_failure clusterClient
           [parsedOf strayLock; parsedOf slipperLock]
           (stateOn clusterSlipperRefusing)).
Defined.

(** * Anticipation *)

Lemma consider_passedOver a vni base last ipl b :
  passedOver a ipl ->
  usableLocks (consider (Some a) (att_LockUID a) vni base last ipl b) = usableLocks b /\
  undesiredLocks (consider (Some a) (att_LockUID a) vni base last ipl b)
  = undesiredLocks b /\
  lockInStatus (consider (Some a) (att_LockUID a) vni base last ipl b) = lockInStatus b.
Proof.
  intros Hp. unfold consider. destruct (NewParsedLock ipl) as [p|e] eqn:E; [|done].
  destruct Hp as [[e' He']|Hu]; [congruence|].
  destruct (String.eqb_spec (snd (GetOwner ipl "NetworkAttachment")) (att_UID a));
    [done|]. done.
Qed.

Lemma fold_consider_passedOver a vni base last owned : forall b,
  Forall (passedOver a) owned ->
  let b' := fold_left (fun b ipl => consider (Some a) (att_LockUID a) vni base last ipl b)
                      owned b in
  usableLocks b' = usableLocks b /\ undesiredLocks b' = undesiredLocks b /\
  lockInStatus b' = lockInStatus b.
Proof.
  induction owned as [|ipl owned IH]; intros b Hall; cbn [fold_left]; [done|].
  apply list.Forall_cons in Hall as [Hp Hall].
  destruct (consider_passedOver a vni base last ipl b Hp) as (H1 & H2 & H3).
  destruct (IH (consider (Some a) (att_LockUID a) vni base last ipl b) Hall)
    as (H1' & H2' & H3').
  cbv zeta in *. split_and!; congruence.
Qed.

Lemma anticipates_valid d a subnetRV :
  anticipates d a subnetRV -> anticipationInvalid (Some a) subnetRV d = false.
Proof.
  intros (_ & Hrv & Hs). unfold anticipationInvalid.
  rewrite Hs, String.eqb_refl. cbn [negb]. rewrite orb_false_r.
  destruct Hrv as [->| ->]; rewrite String.eqb_refl; cbn [negb andb];
    [done|by rewrite andb_false_r].
Qed.

Section Anticipated.
Context {W : Type} {unicode : GoStrings.Unicode}.
Variable parseIPv6 : string -> Gonet.IP.
Variable sgv : string.
Variable env : Client W.

Lemma analyzeAndRelease_no_lock ns name a sn ipNet base last owned d (st : State W) :
  subnetLister_Get env ns (att_Subnet a) (world st) = inl sn ->
  Gonet.ParseCIDR parseIPv6 (sn_IPv4 sn) = Some ipNet ->
  IPNetToBoundsU ipNet = Some (base, last) ->
  iplIndexer_ByIndex env name (world st) = inl owned ->
  Forall (passedOver a) owned ->
  att_IPv4 a = ""%string ->
  atts st !! (ns, name) = Some d ->
  analyzeAndRelease parseIPv6 env ns name (Some a) (Some (ns, name)) st
  = Returns {| an_subnetName := att_Subnet a;
               an_subnetRV := sn_ResourceVersion sn;
               an_desiredVNI := sn_VNI sn; an_desiredBaseU := base;
               an_desiredLastU := last;
               an_lockInStatus := zeroParsedLock;
               an_lockForStatus := zeroParsedLock;
               an_err := None; an_ok := true |}
      (if anticipationInvalid (Some a) (sn_ResourceVersion sn) d
       then set_atts (fun m => <[(ns, name) := zeroNetworkAttachmentData]> m) st
       else st).
Proof.
  intros Hsub Hcidr Hb Hidx Hall Hip Hd.
  unfold analyzeAndRelease, bind at 1, subnetLister, gets. rewrite Hsub, Hcidr, Hb.
  unfold analyzeLocks, bind at 1, ByIndex, gets. rewrite Hidx.
  destruct (fold_consider_passedOver a (sn_VNI sn) base last owned emptyBins Hall)
    as (Hu & Hun & Hl). cbv zeta in Hu, Hun, Hl.
  set (b := fold_left _ owned emptyBins) in *.
  unfold bind at 1, considerStatusLock. rewrite Hip. cbn [String.eqb]. unfold ret at 1.
  unfold bind at 1.
  rewrite (invalidateAnticipation_inv (Some a) (ns, name) _ d st Hd).
  unfold chooseLocks. rewrite Hl, Hu, Hun. cbn [hasObj zeroParsedLock pl_Obj
    List.length Z.of_nat Z.ltb Z.compare AddListFunc fold_left fst].
  unfold bind at 1. cbn [releaseLocks]. unfold ret. reflexivity.
Qed.

Lemma reconcile_anticipated fuel ns name a sn ipNet owned d (st : State W) :
  netattLister_Get env ns name (world st) = inl a ->
  subnetLister_Get env ns (att_Subnet a) (world st) = inl sn ->
  Gonet.ParseCIDR parseIPv6 (sn_IPv4 sn) = Some ipNet ->
  is_Some (IPNetToBoundsU ipNet) ->
  iplIndexer_ByIndex env name (world st) = inl owned ->
  Forall (passedOver a) owned ->
  att_IPv4 a = ""%string ->
  atts st !! (ns, name) = Some d ->
  anticipates d a (sn_ResourceVersion sn) ->
  processNetworkAttachment parseIPv6 sgv env fuel ns name st = Returns None st.
Proof.
  intros Hatt Hsub Hcidr [[base last] Hb] Hidx Hall Hip Hd Hant.
  unfold processNetworkAttachment, bind at 1, netattLister, gets. rewrite Hatt.
  unfold reconcile, bind at 1, getNetworkAttachmentData. rewrite Hd.
  unfold bind at 1.
  rewrite (analyzeAndRelease_no_lock ns name a sn ipNet base last owned d st)
    by done.
  rewrite (anticipates_valid d a _ Hant).
  cbn [an_err an_ok negb orb an_lockInStatus an_lockForStatus hasObj zeroParsedLock
       pl_Obj].
  unfold bind at 1, deref. rewrite Hd.
  destruct Hant as (Hne & _). apply nonNil_spec in Hne. by rewrite Hne.
Qed.

End Anticipated.

(** X15.  While an anticipation is in force (an anticipated address is held,
    the attachment is seen at the anticipating or the anticipated resource
    version, and the subnet at the remembered one) and the view shows no
    address in the status and no lock of the attachment other than time
    slippers and locks with unparsable names, [processNetworkAttachment]
    returns nil and changes nothing: no address is picked, no call is
    made. *)
Theorem processNetworkAttachment_trusts_anticipation {unicode : GoStrings.Unicode} {W : Type}
    (parseIPv6 : string -> Gonet.IP) (sgv : string) (env : Client W)
    (fuel : nat) (ns name : string) (a : NetworkAttachment) (sn : Subnet)
    (ipNet : Gonet.IPNet) (owned : list IPLock) (d : NetworkAttachmentData)
    (st : State W) :
  netattLister_Get env ns name (world st) = inl a ->
  subnetLister_Get env ns (att_Subnet a) (world st) = inl sn ->
  Gonet.ParseCIDR parseIPv6 (sn_IPv4 sn) = Some ipNet ->
  is_Some (IPNetToBoundsU ipNet) ->
  iplIndexer_ByIndex env name (world st) = inl owned ->
  Forall (passedOver a) owned ->
  att_IPv4 a = ""%string ->
  atts st !! (ns, name) = Some d ->
  anticipates d a (sn_ResourceVersion sn) ->
  processNetworkAttachment parseIPv6 sgv env fuel ns name st = Returns None st.
Proof. apply reconcile_anticipated. Qed.

Lemma processNetworkAttachment_trusts_anticipation_witness :
  processNetworkAttachment noIPv6 groupVersion clusterClient 1 "ex" "a1"
    stateAnticipating = Returns None stateAnticipating.
Proof.
  refine (processNetworkAttachment_trusts_anticipation noIPv6 groupVersion
            clusterClient 1 "ex" "a1" attA1 subnetS1 _ [slipperLock] _
            stateAnticipating _ _ _ _ _ _ _ _ _).
  - vm_compute; reflexivity.
  - vm_compute; reflexivity.
  - vm_compute; reflexivity.
  - vm_compute. eexists; reflexivity.
  - vm_compute; reflexivity.
  - constructor; [|constructor]. right. vm_compute. discriminate.
  - reflexivity.
  - vm_compute; reflexivity.
  - split_and!; [vm_compute; discriminate|left; reflexivity|reflexivity].
Defined.

(** * A second run before the informers catch up *)

Lemma IPString_nonempty ip : Gonet.IPString ip <> ""%string.
Proof.
  unfold Gonet.IPString. destruct ip as [|x ip]; [done|].
  destruct (Gonet.To4 (x :: ip)) as [|a [|b [|c [|d [|? ?]]]]]; try done.
  unfold Gonet.dotted. pose proof (FormatUint_nonempty a) as Ha.
  destruct (Strconv.FormatUint a); done.
Qed.

Lemma lockLoop_cluster_frame {unicode : GoStrings.Unicode}
    sgv fuel ns name a subnetName vni ipU ip lockName
      lock0 (st : State Cluster) lfs ip' err st' :
  faults (world st) = [] ->
  lockLoop clusterClient fuel ns name a vni ipU ip lockName lock0
    (lockObject sgv ns name a subnetName lockName) st
  = Returns (lfs, ip', err) st' ->
  ip' = ip /\ sameButLocks (world st) (world st') /\ atts st' = atts st.
Proof.
  intros Hf. destruct fuel as [|fuel]; [done|]. cbn [lockLoop].
  unfold bind at 1. unfold lockCreate. cbn [IPLocks_Create clusterClient].
  unfold cluster_Create. rewrite nextFault_nil by done.
  cbn [ipl_Name lockObject].
  destruct (lockStore (world st) !! (ns, lockName)) as [l0|] eqn:E0.
  - cbn [IsAlreadyExists apiError reason].
    unfold bind at 1. unfold lockGet.
    cbn [IPLocks_Get clusterClient world set_world log_call].
    rewrite cluster_Get_ok by done. rewrite E0. cbn [lookupOr].
    destruct (GetOwner l0 "NetworkAttachment") as [on ou] eqn:EO.
    destruct (_ && _); unfold ret; intros H; injection H as <- <- <- <-; done.
  - unfold ret. intros H. injection H as <- <- <- <-. done.
Qed.

Lemma pickAndLockAddress_cluster_frame {unicode : GoStrings.Unicode}
    sgv fuel ns name a subnetName vni base last
      (st : State Cluster) lfs ip st' :
  faults (world st) = [] ->
  pickAndLockAddress sgv clusterClient fuel ns name a subnetName vni base last st
  = Returns (lfs, ip, None) st' ->
  ip <> [] /\ sameButLocks (world st) (world st') /\ atts st' = atts st.
Proof.
  intros Hf. unfold pickAndLockAddress. destruct (pickRange base last) as [mn mx].
  unfold bind at 1.
  destruct (PickAddress vni mn mx st) as [[ipU ok] st1| |] eqn:EP; try done.
  assert (world st1 = world st /\ atts st1 = atts st) as [Hw Ha].
  { unfold PickAddress in EP. destruct (Uint32set.AddOneInRange _ _ _) as [s' pk].
    injection EP as _ <-. done. }
  destruct ok; cbn [negb]; [|done].
  destruct (makeIPLockName2 vni (Uint32ToIPv4 ipU)) as [lockName|]; [|done].
  intros H. apply lockLoop_cluster_frame in H as (-> & Hs & Ha'); [|by rewrite Hw].
  rewrite Hw in Hs. split_and!; [done|done|congruence].
Qed.

(** X16.  On the cluster without API failures: when a run of
    [processNetworkAttachment] for an attachment without an address, whose
    locks in view are at most time slippers, returns nil, a second run
    against the same informer caches (which have not yet seen the lock or
    the new status) returns nil and changes nothing: it trusts the
    anticipation the first run recorded instead of picking again. *)
Theorem processNetworkAttachment_rerun_is_noop {unicode : GoStrings.Unicode}
    (parseIPv6 : string -> Gonet.IP)
    (sgv : string) (fuel : nat) (ns name : string) (a : NetworkAttachment)
    (sn : Subnet) (st st' : State Cluster) :
  attInformer (world st) !! (ns, name) = Some a ->
  attStore (world st) !! (ns, name) = Some a ->
  att_Name a = name ->
  att_IPv4 a = ""%string ->
  subnetInformer (world st) !! (ns, att_Subnet a) = Some sn ->
  is_Some (Gonet.ParseCIDR parseIPv6 (sn_IPv4 sn)) ->
  faults (world st) = [] ->
  Forall (passedOver a)
         (filter (fun l => name ∈ OwningAttachments l) (lockInformer (world st))) ->
  (forall d, atts st !! (ns, name) = Some d -> anticipatedIPv4 d = []) ->
  processNetworkAttachment parseIPv6 sgv clusterClient fuel ns name st
  = Returns None st' ->
  (exists d, atts st' !! (ns, name) = Some d /\ anticipates d a (sn_ResourceVersion sn)) /\
  (exists a', attStore (world st') !! (ns, name) = Some a' /\ att_IPv4 a' <> ""%string) /\
  processNetworkAttachment parseIPv6 sgv clusterClient fuel ns name st'
  = Returns None st'.
Proof.
  intros Hatt Hstored Hname Hip Hsub [ipNet Hcidr] Hf Hall Hantic Hrun.
  assert (exists d a', atts st' !! (ns, name) = Some d /\
                    anticipates d a (sn_ResourceVersion sn) /\
                    attStore (world st') !! (ns, name) = Some a' /\
                    att_IPv4 a' <> ""%string /\
                    attInformer (world st') = attInformer (world st) /\
                    subnetInformer (world st') = subnetInformer (world st) /\
                    lockInformer (world st') = lockInformer (world st) /\
                    is_Some (IPNetToBoundsU ipNet))
    as (d' & a' & Hd' & Hant & Ha' & Hip' & Si & Ss & Sl & Hbounds).
  { unfold processNetworkAttachment, bind at 1, netattLister, gets in Hrun.
    cbn [netattLister_Get clusterClient] in Hrun. rewrite Hatt in Hrun.
    cbn [lookupOr] in Hrun. unfold reconcile, bind at 1 in Hrun.
    destruct (getNetworkAttachmentData_add ns name st) as (st1 & E1 & W1 & C1 & A1).
    rewrite E1 in Hrun. unfold bind at 1 in Hrun.
    destruct (IPNetToBoundsU ipNet) as [[base last]|] eqn:Hb.
    2:{ unfold analyzeAndRelease, bind at 1, subnetLister, gets in Hrun.
        cbn [subnetLister_Get clusterClient] in Hrun.
        rewrite W1, Hsub in Hrun. cbn [lookupOr] in Hrun.
        rewrite Hcidr, Hb in Hrun. done. }
    set (d1 := match atts st !! (ns, name) with
               | Some d => d | None => zeroNetworkAttachmentData end) in *.
    rewrite (analyzeAndRelease_no_lock parseIPv6 clusterClient ns name a sn ipNet
               base last
               (filter (fun l => name ∈ OwningAttachments l) (lockInformer (world st)))
               d1 st1) in Hrun; cycle 1.
    { cbn [subnetLister_Get clusterClient]. by rewrite W1, Hsub. }
    { done. } { done. }
    { cbn [iplIndexer_ByIndex clusterClient]. by rewrite W1. }
    { done. } { done. } { exact A1. }
    set (st2 := if anticipationInvalid (Some a) (sn_ResourceVersion sn) d1
                then set_atts (fun m => <[(ns, name) := zeroNetworkAttachmentData]> m) st1
                else st1) in *.
    assert (world st2 = world st) as W2.
    { unfold st2. destruct (anticipationInvalid _ _ _); done. }
    assert (exists d2, atts st2 !! (ns, name) = Some d2 /\ anticipatedIPv4 d2 = [])
      as (d2 & Hd2 & Hd2nil).
    { unfold st2. destruct (anticipationInvalid _ _ _).
      - eexists. cbn. rewrite lookup_insert_eq. done.
      - exists d1. split; [done|]. unfold d1.
        destruct (atts st !! (ns, name)) eqn:E; [by apply Hantic|done]. }
    cbn [an_err an_ok negb orb an_lockInStatus an_lockForStatus hasObj zeroParsedLock
         pl_Obj] in Hrun.
    unfold bind at 1, deref in Hrun. rewrite Hd2, Hd2nil in Hrun.
    cbn [nonNil] in Hrun. unfold bind at 1 in Hrun.
    cbn [an_subnetName an_desiredVNI an_desiredBaseU an_desiredLastU an_subnetRV] in Hrun.
    destruct (pickAndLockAddress sgv clusterClient fuel ns name a (att_Subnet a)
                (sn_VNI sn) base last st2) as [[[lfs ip] err] st3| |] eqn:EPL; try done.
    destruct err as [e|]; [done|].
    apply pickAndLockAddress_cluster_frame in EPL as (Hipne & Hs3 & A3);
      [|by rewrite W2].
    rewrite W2 in Hs3. destruct Hs3 as (S3a & S3i & S3s & S3l & S3f).
    unfold setIPInStatus, bind at 1, attUpdate in Hrun.
    cbn [NetworkAttachments_Update clusterClient] in Hrun.
    unfold cluster_Update in Hrun. rewrite nextFault_nil in Hrun by congruence.
    cbn [att_Name att_ResourceVersion] in Hrun.
    rewrite S3a, Hname, Hstored, String.eqb_refl in Hrun.
    unfold bind at 1 in Hrun. cbn [assign modify] in Hrun. unfold modify, ret in Hrun.
    injection Hrun as <-.
    eexists _, _. cbn [atts set_atts world set_world log_call withAtts attStore
                        attInformer subnetInformer lockInformer].
    rewrite !lookup_insert_eq. split; [reflexivity|].
    split; [split_and!; [done|by left|done]|].
    split; [reflexivity|]. cbn [att_IPv4].
    split_and!; try done. apply IPString_nonempty. }
  split; [by exists d'|]. split; [by exists a'|].
  refine (reconcile_anticipated parseIPv6 sgv clusterClient fuel ns name a sn ipNet
            _ d' st' _ _ Hcidr Hbounds eq_refl _ Hip Hd' Hant).
  - cbn [netattLister_Get clusterClient]. by rewrite Si, Hatt.
  - cbn [subnetLister_Get clusterClient]. by rewrite Ss, Hsub.
  - cbn [iplIndexer_ByIndex clusterClient]. by rewrite Sl.
Qed.

Lemma processNetworkAttachment_rerun_is_noop_witness :
  let st' := stateAfter
               (processNetworkAttachment noIPv6 groupVersion clusterClient 3 "ex" "a1"
                  (stateOn clusterOldLock)) (stateOn clusterOldLock) in
  processNetworkAttachment noIPv6 groupVersion clusterClient 3 "ex" "a1" st'
  = Returns None st'.
Proof.
  intros st'.
  refine (proj2 (proj2 (processNetworkAttachment_rerun_is_noop noIPv6 groupVersion 3
            "ex" "a1" attA1 subnetS1 (stateOn clusterOldLock) st'
            _ _ _ _ _ _ _ _ _ _))).
  - vm_compute; reflexivity.
  - vm_compute; reflexivity.
  - reflexivity.
  - reflexivity.
  - vm_compute; reflexivity.
  - vm_compute. eexists; reflexivity.
  - reflexivity.
  - replace (filter _ _) with [slipperLock] by (vm_compute; reflexivity).
    constructor; [|constructor]. right. vm_compute. discriminate.
  - intros d H. vm_compute in H. discriminate H.
  - vm_compute; reflexivity.
Defined.

(** * The address cache when the create call fails *)

Lemma firstFreeFrom_fresh s : forall cur,
  increasing s ->
  cur <= Uint32set.firstFreeFrom cur s /\ Uint32set.firstFreeFrom cur s ∉ s.
Proof.
  induction s as [|y s IH]; intros cur Hs; cbn [Uint32set.firstFreeFrom].
  - split; [lia|set_solver].
  - destruct Hs as [Hy Hs]. rewrite list.Forall_forall in Hy.
    destruct (Z.ltb_spec y cur).
    + destruct (IH cur Hs) as [H1 H2]. split; [done|].
      rewrite elem_of_cons. intros [E|E]; [lia|done].
    + destruct (Z.eqb_spec y cur) as [->|Hne].
      * destruct (IH (cur + 1) Hs) as [H1 H2]. split; [lia|].
        rewrite elem_of_cons. intros [E|E]; [lia|done].
      * split; [lia|]. rewrite elem_of_cons. intros [E|E]; [lia|].
        apply Hy in E. lia.
Qed.

Lemma Remove_Add x s :
  x ∉ s -> Uint32set.Remove x (fst (Uint32set.Add x s)) = (s, true).
Proof.
  induction s as [|y s IH]; intros Hx; cbn [Uint32set.Add].
  - cbn. by rewrite Z.eqb_refl.
  - apply not_elem_of_cons in Hx as [Hne Hx].
    destruct (Z.ltb_spec x y); cbn [fst Uint32set.Remove].
    + by rewrite Z.eqb_refl.
    + destruct (Z.eqb_spec x y); [done|].
      specialize (IH Hx). destruct (Uint32set.Add x s) as [s' ch].
      cbn [fst Uint32set.Remove] in *.
      destruct (Z.eqb_spec x y); [done|]. by rewrite IH.
Qed.

Lemma Pick_Release_restores {W : Type} vni lo hi x (st st1 : State W) :
  (forall s, addrCache st !! vni = Some s -> increasing s /\ s <> []) ->
  PickAddress vni lo hi st = Returns (x, true) st1 ->
  forall w c, ReleaseAddress vni x (log_call c (set_world w st1))
              = Returns true {| atts := atts st; addrCache := addrCache st;
                                world := w; calls := c :: calls st |}.
Proof.
  intros Hs. unfold PickAddress, Uint32set.AddOneInRange.
  destruct (addrCache st !! vni) as [s|] eqn:E.
  - destruct (Hs s eq_refl) as [Hsorted Hne].
    destruct (firstFreeFrom_fresh s lo Hsorted) as [_ Hfresh].
    destruct (_ && _); [|done]. intros [= <- <-] w c.
    unfold ReleaseAddress, log_call, set_world, set_addrCache.
    cbn [atts addrCache world calls].
    rewrite lookup_insert_eq, (Remove_Add _ _ Hfresh).
    destruct s as [|y s]; [done|]. cbn [Uint32set.IsEmpty atts addrCache world calls].
    f_equal. f_equal. rewrite insert_insert_eq. by apply insert_id.
  - cbn [Uint32set.firstFreeFrom Uint32set.NewSortedUInt32Set].
    destruct (_ && _); [|done]. intros [= <- <-] w c.
    unfold ReleaseAddress, log_call, set_world, set_addrCache.
    cbn [atts addrCache world calls].
    rewrite lookup_insert_eq. cbn [Uint32set.Add fst Uint32set.Remove].
    rewrite Z.eqb_refl. cbn [Uint32set.IsEmpty atts addrCache world calls].
    f_equal. f_equal. rewrite delete_insert_eq. by apply delete_id.
Qed.

Lemma pickAndLockAddress_create_fails_eq {unicode : GoStrings.Unicode}
    {W : Type} (sgv : string) (env : Client W)
    (fuel : nat) (ns name : string) (a : NetworkAttachment) (subnetName : string)
    (vni base last ipU : Z) (lockName : string) (err : error) (w : W)
    (st st1 : State W) :
  (forall s, addrCache st !! vni = Some s -> increasing s /\ s <> []) ->
  PickAddress vni (fst (pickRange base last)) (snd (pickRange base last)) st
  = Returns (ipU, true) st1 ->
  makeIPLockName2 vni (Uint32ToIPv4 ipU) = Some lockName ->
  IPLocks_Create env ns (lockObject sgv ns name a subnetName lockName) (world st)
  = (inr err, w) ->
  IsAlreadyExists err = false ->
  pickAndLockAddress sgv env (S fuel) ns name a subnetName vni base last st
  = Returns (pendingLock ns lockName vni ipU, Uint32ToIPv4 ipU,
             if IsInvalid err
                || GoStrings.Contains (GoStrings.ToLower (message err)) "invalid"
             then None else Some (Errorf "Create of IPLock failed"))
      {| atts := atts st; addrCache := addrCache st; world := w;
         calls := CallCreate ns (lockObject sgv ns name a subnetName lockName)
                  :: calls st |}.
Proof.
  intros Hs Hpick Hname Hcreate Hae.
  unfold pickAndLockAddress. destruct (pickRange base last) as [mn mx].
  cbn [fst snd] in Hpick. unfold bind at 1. rewrite Hpick. cbn [negb].
  rewrite Hname. cbn [lockLoop]. unfold bind at 1, lockCreate.
  assert (world st1 = world st) as ->.
  { unfold PickAddress in Hpick. destruct (Uint32set.AddOneInRange _ _ _) as [s' pk].
    by injection Hpick as _ <-. }
  rewrite Hcreate, Hae. unfold bind at 1.
  rewrite (Pick_Release_restores vni mn mx ipU st st1 Hs Hpick).
  by destruct (_ || _).
Qed.

(** X17.  When the create call fails with an error other than AlreadyExists,
    [pickAndLockAddress] gives the picked address back: the address cache
    is again what it was before the pick (provided the set of the VNI was
    not an empty one), and the only call made is the create.  It returns
    the picked address with a lock that has no object and an empty UID; the
    error it returns is nil when the failure is an Invalid status or
    mentions "invalid" (a permanent error), and an error otherwise. *)
Theorem pickAndLockAddress_create_fails {unicode : GoStrings.Unicode}
    {W : Type} (sgv : string) (env : Client W)
    (fuel : nat) (ns name : string) (a : NetworkAttachment) (subnetName : string)
    (vni base last ipU : Z) (lockName : string) (err : error) (w : W)
    (st st1 : State W) :
  (forall s, addrCache st !! vni = Some s -> increasing s /\ s <> []) ->
  PickAddress vni (fst (pickRange base last)) (snd (pickRange base last)) st
  = Returns (ipU, true) st1 ->
  makeIPLockName2 vni (Uint32ToIPv4 ipU) = Some lockName ->
  IPLocks_Create env ns (lockObject sgv ns name a subnetName lockName) (world st)
  = (inr err, w) ->
  IsAlreadyExists err = false ->
  pickAndLockAddress sgv env (S fuel) ns name a subnetName vni base last st
  = Returns (pendingLock ns lockName vni ipU, Uint32ToIPv4 ipU,
             if IsInvalid err
                || GoStrings.Contains (GoStrings.ToLower (message err)) "invalid"
             then None else Some (Errorf "Create of IPLock failed"))
      {| atts := atts st; addrCache := addrCache st; world := w;
         calls := CallCreate ns (lockObject sgv ns name a subnetName lockName)
                  :: calls st |}.
Proof. apply pickAndLockAddress_create_fails_eq. Qed.

Lemma pickAndLockAddress_create_fails_witness :
  pickAndLockAddress groupVersion clusterClient 1 "ex" "a1" attA1 "s1" 7
    167772160 167772415 (stateOn clusterRefusing)
  = Returns (pendingLock "ex" "v1-7-10-0-0-2" 7 167772162, Uint32ToIPv4 167772162, None)
      {| atts := ∅; addrCache := ∅; world := clusterS1;
         calls := [CallCreate "ex" (lockObject groupVersion "ex" "a1" attA1 "s1"
                                      "v1-7-10-0-0-2")] |} /\
  pickAndLockAddress groupVersion clusterClient 1 "ex" "a1" attA1 "s1" 7
    167772160 167772415 (stateOn clusterObjecting)
  = Returns (pendingLock "ex" "v1-7-10-0-0-2" 7 167772162, Uint32ToIPv4 167772162, None)
      {| atts := ∅; addrCache := ∅; world := clusterS1;
         calls := [CallCreate "ex" (lockObject groupVersion "ex" "a1" attA1 "s1"
                                      "v1-7-10-0-0-2")] |}.
Proof.
  split.
  - refine (pickAndLockAddress_create_fails groupVersion clusterClient 0 "ex" "a1"
              attA1 "s1" 7 167772160 167772415 167772162 "v1-7-10-0-0-2"
              (apiError ReasonInvalid) clusterS1 (stateOn clusterRefusing)
              {| atts := ∅; addrCache := {[ 7 := [167772162] ]};
                 world := clusterRefusing; calls := [] |} _ _ _ _ _).
    + intros s H. vm_compute in H. discriminate H.
    + vm_compute; reflexivity.
    + vm_compute; reflexivity.
    + vm_compute; reflexivity.
    + reflexivity.
  - refine (pickAndLockAddress_create_fails groupVersion clusterClient 0 "ex" "a1"
              attA1 "s1" 7 167772160 167772415 167772162 "v1-7-10-0-0-2"
              {| reason := ReasonUnknown;
                 message := "admission webhook denied the request: INVALID owner" |}
              clusterS1 (stateOn clusterObjecting)
              {| atts := ∅; addrCache := {[ 7 := [167772162] ]};
                 world := clusterObjecting; calls := [] |} _ _ _ _ _).
    + intros s H. vm_compute in H. discriminate H.
    + vm_compute; reflexivity.
    + vm_compute; reflexivity.
    + vm_compute; reflexivity.
    + reflexivity.
Defined.

(** * A permanent error of the create call *)

(** X18.  On the cluster, for an attachment without an address and without a
    lock in view: when the server refuses the create call with an Invalid
    status, [processNetworkAttachment] still writes the picked address into
    the status, with an empty lock UID, and returns nil; no lock has been
    created for the address, and the address is no longer in the address
    cache. *)
Theorem processNetworkAttachment_permanent_create_error {unicode : GoStrings.Unicode}
    (parseIPv6 : string -> Gonet.IP) (sgv : string) (fuel : nat)
    (ns name : string) (a : NetworkAttachment) (sn : Subnet)
    (ipNet : Gonet.IPNet) (base last ipU : Z) (e : error)
    (st stp : State Cluster) :
  attInformer (world st) !! (ns, name) = Some a ->
  attStore (world st) !! (ns, name) = Some a ->
  att_Name a = name ->
  att_IPv4 a = ""%string ->
  subnetInformer (world st) !! (ns, att_Subnet a) = Some sn ->
  Gonet.ParseCIDR parseIPv6 (sn_IPv4 sn) = Some ipNet ->
  IPNetToBoundsU ipNet = Some (base, last) ->
  Forall (passedOver a)
         (filter (fun l => name ∈ OwningAttachments l) (lockInformer (world st))) ->
  (forall d, atts st !! (ns, name) = Some d -> anticipatedIPv4 d = []) ->
  (forall s, addrCache st !! sn_VNI sn = Some s -> increasing s /\ s <> []) ->
  PickAddress (sn_VNI sn) (fst (pickRange base last)) (snd (pickRange base last)) st
  = Returns (ipU, true) stp ->
  faults (world st) = [Some e] ->
  IsInvalid e = true ->
  exists st' a',
    processNetworkAttachment parseIPv6 sgv clusterClient (S fuel) ns name st
    = Returns None st' /\
    attStore (world st') !! (ns, name) = Some a' /\
    att_IPv4 a' = Gonet.IPString (Uint32ToIPv4 ipU) /\
    att_LockUID a' = ""%string /\
    lockStore (world st') = lockStore (world st) /\
    addrCache st' = addrCache st.
Proof.
  intros Hatt Hstored Hname Hip Hsub Hcidr Hb Hall Hantic Hsorted Hpick Hf Hinv.
  unfold processNetworkAttachment, bind at 1, netattLister, gets.
  cbn [netattLister_Get clusterClient]. rewrite Hatt. cbn [lookupOr].
  unfold reconcile, bind at 1.
  destruct (getNetworkAttachmentData_add ns name st) as (st1 & E1 & W1 & C1 & A1).
  rewrite E1. unfold bind at 1.
  set (d1 := match atts st !! (ns, name) with
             | Some d => d | None => zeroNetworkAttachmentData end) in *.
  rewrite (analyzeAndRelease_no_lock parseIPv6 clusterClient ns name a sn ipNet
             base last
             (filter (fun l => name ∈ OwningAttachments l) (lockInformer (world st)))
             d1 st1); cycle 1.
  { cbn [subnetLister_Get clusterClient]. by rewrite W1, Hsub. }
  { done. } { done. }
  { cbn [iplIndexer_ByIndex clusterClient]. by rewrite W1. }
  { done. } { done. } { exact A1. }
  set (st2 := if anticipationInvalid (Some a) (sn_ResourceVersion sn) d1
              then set_atts (fun m => <[(ns, name) := zeroNetworkAttachmentData]> m) st1
              else st1) in *.
  assert (world st2 = world st /\ addrCache st2 = addrCache st /\ calls st2 = calls st1)
    as (W2 & C2 & L2).
  { unfold st2. destruct (anticipationInvalid _ _ _); done. }
  assert (exists d2, atts st2 !! (ns, name) = Some d2 /\ anticipatedIPv4 d2 = [])
    as (d2 & Hd2 & Hd2nil).
  { unfold st2. destruct (anticipationInvalid _ _ _).
    - eexists. cbn. rewrite lookup_insert_eq. done.
    - exists d1. split; [done|]. unfold d1.
      destruct (atts st !! (ns, name)) eqn:E; [by apply Hantic|done]. }
  cbn [an_err an_ok negb orb an_lockInStatus an_lockForStatus hasObj zeroParsedLock
       pl_Obj].
  unfold bind at 1, deref. rewrite Hd2, Hd2nil. cbn [nonNil]. unfold bind at 1.
  cbn [an_subnetName an_desiredVNI an_desiredBaseU an_desiredLastU an_subnetRV].
  destruct (makeIPLockName2_Uint32ToIPv4 (sn_VNI sn) ipU) as [lockName Hn].
  assert (exists stp2, PickAddress (sn_VNI sn) (fst (pickRange base last))
                         (snd (pickRange base last)) st2 = Returns (ipU, true) stp2)
    as [stp2 Hpick2].
  { unfold PickAddress in *. rewrite C2.
    destruct (Uint32set.AddOneInRange _ _ _) as [s' pk].
    injection Hpick as -> _. eauto. }
  set (c1 := {| lockStore := lockStore (world st); attStore := attStore (world st);
                attInformer := attInformer (world st);
                subnetInformer := subnetInformer (world st);
                lockInformer := lockInformer (world st); clock := clock (world st);
                faults := [] |}).
  assert (nextFault (world st) = (Some e, c1)) as Hnext.
  { unfold nextFault. by rewrite Hf. }
  rewrite (pickAndLockAddress_create_fails_eq sgv clusterClient fuel ns name a
             (att_Subnet a) (sn_VNI sn) base last ipU lockName e c1 st2 stp2); cycle 1.
  { by rewrite C2. } { done. } { done. }
  { cbn [IPLocks_Create clusterClient]. unfold cluster_Create. by rewrite W2, Hnext. }
  { unfold IsInvalid in Hinv. unfold IsAlreadyExists. by destruct (reason e). }
  rewrite Hinv. cbn [orb].
  unfold setIPInStatus, bind at 1, attUpdate.
  cbn [NetworkAttachments_Update clusterClient world].
  unfold cluster_Update. rewrite (nextFault_nil c1) by done.
  cbn [c1 attStore att_Name att_ResourceVersion].
  rewrite Hname, Hstored, String.eqb_refl.
  unfold bind at 1. cbn [assign]. unfold modify, ret.
  eexists _, _. split; [reflexivity|].
  cbn [atts set_atts world set_world log_call withAtts attStore lockStore addrCache
       att_IPv4 att_LockUID pendingLock pl_UID].
  rewrite lookup_insert_eq. split_and!; done.
Qed.

Lemma processNetworkAttachment_permanent_create_error_witness :
  exists st' a',
    processNetworkAttachment noIPv6 groupVersion clusterClient 1 "ex" "a1"
      (stateOn clusterRefusing) = Returns None st' /\
    attStore (world st') !! ("ex", "a1")%string = Some a' /\
    att_IPv4 a' = Gonet.IPString (Uint32ToIPv4 167772162) /\
    att_LockUID a' = ""%string /\
    lockStore (world st') = lockStore (world (stateOn clusterRefusing)) /\
    addrCache st' = addrCache (stateOn clusterRefusing).
Proof.
  refine (processNetworkAttachment_permanent_create_error noIPv6 groupVersion 0
            "ex" "a1" attA1 subnetS1
            {| Gonet.net_IP := [10; 0; 0; 0];
               Gonet.net_Mask := {| Gonet.ones := 24; Gonet.bits := 32 |} |}
            167772160 167772415 167772162 (apiError ReasonInvalid)
            (stateOn clusterRefusing)
            {| atts := ∅; addrCache := {[ 7 := [167772162] ]};
               world := clusterRefusing; calls := [] |}
            _ _ _ _ _ _ _ _ _ _ _ _ _).
  - vm_compute; reflexivity.
  - vm_compute; reflexivity.
  - reflexivity.
  - reflexivity.
  - vm_compute; reflexivity.
  - vm_compute; reflexivity.
  - vm_compute; reflexivity.
  - replace (filter _ _) with (@nil IPLock) by (vm_compute; reflexivity). constructor.
  - intros d H. vm_compute in H. discriminate H.
  - intros s H. vm_compute in H. discriminate H.
  - vm_compute; reflexivity.
  - reflexivity.
  - reflexivity.
Defined.
(** * Reconciling a deleted attachment *)

Lemma consider_None_mem uid ipl b p :
  p ∈ undesiredLocks (consider None uid 0 0 0 ipl b)
      ++ usableLocks (consider None uid 0 0 0 ipl b) <->
  p ∈ undesiredLocks b ++ usableLocks b \/ NewParsedLock ipl = inl p.
Proof.
  unfold consider. destruct (NewParsedLock ipl) as [q|e] eqn:E.
  - destruct (_ || _); cbn [undesiredLocks usableLocks]; unfold Append;
      rewrite !elem_of_app, ?list_elem_of_singleton; split.
    + intros [[?| ->]|?]; auto.
    + intros [[?|?]|[= ->]]; auto.
    + intros [?|[?| ->]]; auto.
    + intros [[?|?]|[= ->]]; auto.
  - split; [auto|]. intros [?|?]; done.
Qed.

Lemma fold_consider_None_mem uid owned : forall b p,
  p ∈ undesiredLocks (fold_left (fun b ipl => consider None uid 0 0 0 ipl b) owned b)
      ++ usableLocks (fold_left (fun b ipl => consider None uid 0 0 0 ipl b) owned b) <->
  p ∈ undesiredLocks b ++ usableLocks b \/
  exists l, l ∈ owned /\ NewParsedLock l = inl p.
Proof.
  induction owned as [|ipl owned IH]; intros b p; cbn [fold_left].
  - split; [auto|]. intros [?|(l & Hl & _)]; [done|set_solver].
  - rewrite IH, consider_None_mem. split.
    + intros [[?|?]|(l & Hl & HP)]; [auto| |].
      * right. exists ipl. split; [set_solver|done].
      * right. exists l. split; [set_solver|done].
    + intros [?|(l & Hl & HP)]; [auto|].
      apply elem_of_cons in Hl as [->|Hl]; [auto|].
      right. by exists l.
Qed.

(** X19.  On the cluster without API failures, reconciling an attachment that
    the lister no longer finds releases every lock the informer indexes
    under the attachment's name and whose name parses, in whatever namespace
    the lock lives and whatever the UID of its owner; the other locks stay;
    the attachment data is dropped; the address cache is not touched. *)
Theorem processNetworkAttachment_deleted_releases_all {unicode : GoStrings.Unicode}
    (parseIPv6 : string -> Gonet.IP) (sgv : string) (fuel : nat)
    (ns name : string) (st : State Cluster) :
  let owned := filter (fun l => name ∈ OwningAttachments l) (lockInformer (world st)) in
  attInformer (world st) !! (ns, name) = None ->
  faults (world st) = [] ->
  NoDup (map ipl_UID owned) ->
  (forall l l', l ∈ owned ->
     lockStore (world st) !! (ipl_Namespace l, ipl_Name l) = Some l' ->
     ipl_UID l' = ipl_UID l) ->
  exists st',
    processNetworkAttachment parseIPv6 sgv clusterClient fuel ns name st
    = Returns None st' /\
    atts st' !! (ns, name) = None /\
    addrCache st' = addrCache st /\
    (forall l, l ∈ owned -> wellFormedName l ->
               lockStore (world st') !! (ipl_Namespace l, ipl_Name l) = None) /\
    (forall k, (forall l, l ∈ owned -> k <> (ipl_Namespace l, ipl_Name l)) ->
               lockStore (world st') !! k = lockStore (world st) !! k).
Proof.
  intros owned Hatt Hf Hnd Huid.
  unfold processNetworkAttachment, bind at 1, netattLister, gets.
  cbn [netattLister_Get clusterClient]. rewrite Hatt.
  cbn [lookupOr IsNotFound apiError reason negb].
  unfold reconcile, bind at 1.
  set (nadat := match atts st !! (ns, name) with
               | Some _ => Some (ns, name)
               | None => None
               end).
  assert (getNetworkAttachmentData ns name false st = Returns nadat st) as ->.
  { unfold getNetworkAttachmentData, nadat. by destruct (atts st !! (ns, name)). }
  unfold bind at 1, analyzeAndRelease, analyzeLocks, bind at 1, ByIndex, gets.
  cbn [iplIndexer_ByIndex clusterClient]. fold owned.
  set (b := fold_left _ owned emptyBins).
  unfold bind at 1, considerStatusLock, ret at 1. unfold bind at 1.
  assert (exists st1, invalidateAnticipation None nadat "." st = Returns tt st1 /\
                      world st1 = world st /\ addrCache st1 = addrCache st /\
                      (atts st1 !! (ns, name) = None <-> atts st !! (ns, name) = None) /\
                      forall m, delete (ns, name) (atts st1) = m ->
                                delete (ns, name) (atts st) = m)
    as (st1 & -> & W1 & C1 & A1 & D1).
  { unfold invalidateAnticipation, nadat.
    destruct (atts st !! (ns, name)) as [d|] eqn:E.
    - unfold bind, deref. rewrite E. cbn [anticipationInvalid assign].
      eexists. split; [reflexivity|]. cbn. rewrite lookup_insert_eq.
      split_and!; try done. intros m <-. by rewrite delete_insert_eq.
    - exists st. done. }
  cbn [chooseLocks].
  set (L := fst (AddListFunc (undesiredLocks b) (usableLocks b))).
  assert (forall p, p ∈ L <-> exists l, l ∈ owned /\ NewParsedLock l = inl p) as HL.
  { intros p. unfold L. rewrite AddListFunc_mem.
    - rewrite <- elem_of_app. unfold b. rewrite fold_consider_None_mem.
      cbn [emptyBins undesiredLocks usableLocks app]. set_solver.
    - intros x y Hx Hy HE. unfold b in Hx, Hy.
      apply fold_consider_None_mem in Hx as [Hx|(lx & Hlx & HPx)]; [set_solver|].
      apply fold_consider_None_mem in Hy as [Hy|(ly & Hly & HPy)]; [set_solver|].
      apply Equal_UID in HE.
      pose proof (NewParsedLock_fields _ _ HPx) as (_ & _ & Ux & _).
      pose proof (NewParsedLock_fields _ _ HPy) as (_ & _ & Uy & _).
      assert (lx = ly) as ->.
      { apply (NoDup_fmap_eq ipl_UID owned); try done. congruence. }
      congruence. }
  unfold bind at 1.
  destruct (releaseLocks_cluster L st1) as (st2 & -> & A2 & C2 & S2 & L2).
  { by rewrite W1. }
  { intros p l' Hp Hl'. apply HL in Hp as (l & Hl & HP).
    pose proof (NewParsedLock_fields _ _ HP) as (Hns & Hnm & Hu & _).
    rewrite W1, Hns, Hnm in Hl'. rewrite Hu. by eapply Huid. }
  unfold ret at 1. cbn [an_err an_ok negb orb].
  assert (exists st', match nadat with
                      | Some _ => bind (clearNetworkAttachmentData ns name)
                                    (fun _ => ret None)
                      | None => ret None
                      end st2 = Returns (@None error) st' /\
                      atts st' !! (ns, name) = None /\ addrCache st' = addrCache st2 /\
                      world st' = world st2) as (st' & -> & A' & C' & W').
  { unfold nadat in *. destruct (atts st !! (ns, name)) as [d|] eqn:E.
    - eexists. split; [reflexivity|]. cbn. by rewrite lookup_delete_eq.
    - exists st2. split; [done|]. split_and!; try done.
      rewrite A2. by apply A1. }
  exists st'. split; [done|]. split_and!; [done|congruence| |].
  - intros l Hl Hwf. rewrite W', L2, bool_decide_eq_true_2; [done|].
    unfold wellFormedName in Hwf.
    destruct (NewParsedLock l) as [p|] eqn:HP; [|done].
    pose proof (NewParsedLock_fields _ _ HP) as (Hns & Hnm & _).
    rewrite <- Hns, <- Hnm.
    apply (list_elem_of_fmap_2 (fun p => (pl_ns p, pl_name p))), HL. by exists l.
  - intros k Hk. rewrite W', L2, W1, bool_decide_eq_false_2; [done|].
    intros Hin. apply list_elem_of_fmap in Hin as (p & -> & Hp).
    apply HL in Hp as (l & Hl & HP).
    pose proof (NewParsedLock_fields _ _ HP) as (Hns & Hnm & _).
    apply (Hk l Hl). by rewrite Hns, Hnm.
Qed.

Lemma processNetworkAttachment_deleted_releases_all_witness :
  exists st',
    processNetworkAttachment noIPv6 groupVersion clusterClient 1 "ex" "a1"
      (stateOn clusterDeleted) = Returns None st' /\
    lockStore (world st') !! ("ex", "v1-7-10-0-0-2")%string = None /\
    lockStore (world st') !! ("other", "v1-7-10-0-0-3")%string = None.
Proof.
  destruct (processNetworkAttachment_deleted_releases_all noIPv6 groupVersion 1
              "ex" "a1" (stateOn clusterDeleted))
    as (st' & Hrun & _ & _ & Hdel & _).
  - reflexivity.
  - reflexivity.
  - refine (bool_decide_unpack _ _). vm_compute. exact I.
  - replace (filter _ _) with [ownLock; otherNamespaceLock] by (vm_compute; reflexivity).
    intros l l' Hl. apply elem_of_cons in Hl as [->|Hl];
      [|apply list_elem_of_singleton in Hl as ->];
      intros H; vm_compute in H; injection H as <-; reflexivity.
  - exists st'. split; [exact Hrun|].
    replace (filter _ _) with [ownLock; otherNamespaceLock] in Hdel
      by (vm_compute; reflexivity).
    split.
    + apply (Hdel ownLock); [set_solver|]. vm_compute. exact I.
    + apply (Hdel otherNamespaceLock); [set_solver|]. vm_compute. exact I.
Defined.
(** * The lock event handlers and the address cache *)

Lemma Add_increasing x s :
  increasing s -> increasing (fst (Uint32set.Add x s)) /\
  forall y, y ∈ fst (Uint32set.Add x s) <-> y = x \/ y ∈ s.
Proof.
  induction s as [|z s IH]; intros Hs; cbn [Uint32set.Add].
  - cbn. split; [split; [constructor|done]|]. set_solver.
  - destruct Hs as [Hz Hs]. destruct (Z.ltb_spec x z).
    + cbn [fst increasing]. split; [|set_solver]. split; [|done].
      constructor; [done|]. eapply list.Forall_impl; [exact Hz|]. cbn. lia.
    + destruct (Z.eqb_spec x z) as [->|Hne].
      * cbn [fst increasing]. split; [done|]. set_solver.
      * destruct (IH Hs) as [Hi Hm]. destruct (Uint32set.Add x s) as [s' ch].
        cbn [fst increasing] in *. split; [|set_solver]. split; [|done].
        rewrite list.Forall_forall in *. intros y Hy. apply Hm in Hy as [->|Hy];
          [lia|by apply Hz].
Qed.

Lemma Add_member x s :
  increasing s -> x ∈ s -> Uint32set.Add x s = (s, false).
Proof.
  induction s as [|z s IH]; intros Hs Hx; [set_solver|].
  destruct Hs as [Hz Hs]. rewrite list.Forall_forall in Hz. cbn [Uint32set.Add].
  apply elem_of_cons in Hx as [->|Hx].
  - rewrite Z.ltb_irrefl, Z.eqb_refl. done.
  - pose proof (Hz x Hx). destruct (Z.ltb_spec x z); [lia|].
    destruct (Z.eqb_spec x z); [lia|]. by rewrite (IH Hs Hx).
Qed.

Lemma PickAddress_not_cached {W : Type} vni lo hi (st st' : State W) s y :
  addrCache st !! vni = Some s -> increasing s ->
  PickAddress vni lo hi st = Returns (y, true) st' -> y ∉ s.
Proof.
  intros E Hs. unfold PickAddress, Uint32set.AddOneInRange. rewrite E.
  destruct (_ && _); [|done]. intros [= <- _].
  by apply firstFreeFrom_fresh.
Qed.

(** X20.  After the notification that a lock exists (created or updated),
    [PickAddress] does not hand out the lock's address on the lock's VNI,
    whatever range it is asked for; the notification leaves the cache as
    it is when the address was already taken, and queues the attachments
    that control the lock, in the lock's namespace. *)
Theorem OnLockNotify_exists_blocks_address {W : Type} (ipl : IPLock) (vni addrU : Z)
    (st st1 : State W) (queued : list NamespacedName) :
  cacheWellFormed st ->
  parseIPLockName (ipl_Name ipl) = inl (vni, addrU) ->
  OnLockNotify ipl true st = Returns queued st1 ->
  cacheWellFormed st1 /\
  queued = map (fun n => (ipl_Namespace ipl, n)) (OwningAttachments ipl) /\
  (forall s, addrCache st !! vni = Some s -> addrU ∈ s -> st1 = st) /\
  forall lo hi y st2,
    PickAddress vni lo hi st1 = Returns (y, true) st2 -> y <> addrU.
Proof.
  intros Hwf Hname. unfold OnLockNotify. rewrite Hname.
  unfold bind, TakeAddress.
  set (s0 := match addrCache st !! vni with
             | Some addrs => addrs | None => Uint32set.NewSortedUInt32Set end).
  assert (increasing s0) as Hs0.
  { unfold s0. destruct (addrCache st !! vni) as [s|] eqn:E; [|done].
    exact (Hwf vni s E). }
  destruct (Add_increasing addrU s0 Hs0) as [Hi Hm].
  destruct (Uint32set.Add addrU s0) as [s' ch] eqn:EA. cbn [fst] in *.
  unfold ret. intros [= <- <-].
  split_and!.
  - intros k s. cbn [addrCache set_addrCache].
    destruct (decide (k = vni)) as [->|Hk].
    + rewrite lookup_insert_eq. by intros [= <-].
    + rewrite lookup_insert_ne by done. apply Hwf.
  - done.
  - intros s E Hin. unfold s0 in EA. rewrite E in EA.
    assert (s' = s) as ->.
    { rewrite (Add_member addrU s) in EA; [by injection EA|exact (Hwf vni s E)|done]. }
    destruct st. unfold set_addrCache. cbn in *. f_equal. by apply insert_id.
  - intros lo hi y st2 Hpick.
    assert (y ∉ s') as Hy.
    { eapply (PickAddress_not_cached vni lo hi _ st2 s' y); [|done|exact Hpick].
      cbn. by rewrite lookup_insert_eq. }
    intros ->. apply Hy, Hm. by left.
Qed.

Lemma OnLockNotify_exists_blocks_address_witness :
  match PickAddress 7 167772162 167772170
          (stateAfter (OnLockNotify ownLock true (stateOn clusterS1))
             (stateOn clusterS1)) with
  | Returns (y, true) _ => y <> 167772162
  | _ => True
  end.
Proof.
  destruct (OnLockNotify_exists_blocks_address ownLock 7 167772162
              (stateOn clusterS1)
              (stateAfter (OnLockNotify ownLock true (stateOn clusterS1))
                 (stateOn clusterS1))
              [("ex", "a1")%string]) as (_ & _ & _ & Hpick).
  - intros k s H. vm_compute in H. discriminate H.
  - vm_compute; reflexivity.
  - vm_compute; reflexivity.
  - destruct (PickAddress 7 167772162 167772170 _) as [[y [|]] st2| |] eqn:E;
      try exact I.
    exact (Hpick _ _ _ _ E).
Defined.

(** X21.  The notification that a lock is gone undoes the notification that it
    exists: when the address was not in the cache before, the cache is
    afterwards what it was (the set of the VNI, if there was one, not
    being an empty one). *)
Theorem OnLockCreate_OnLockDelete {W : Type} (ipl : IPLock) (vni addrU : Z)
    (st st1 : State W) (queued : list NamespacedName) :
  parseIPLockName (ipl_Name ipl) = inl (vni, addrU) ->
  (forall s, addrCache st !! vni = Some s -> (addrU ∉ s) /\ s <> []) ->
  OnLockCreate ipl st = Returns queued st1 ->
  OnLockDelete ipl st1 = Returns queued st.
Proof.
  intros Hname Hfresh. unfold OnLockCreate, OnLockDelete, OnLockNotify.
  rewrite Hname. unfold bind, TakeAddress, ReleaseAddress, ret.
  destruct (addrCache st !! vni) as [s|] eqn:E.
  - destruct (Hfresh s eq_refl) as [Hfresh' Hne]. clear Hfresh. rename Hfresh' into Hfresh.
    pose proof (Remove_Add addrU s Hfresh) as HR.
    destruct (Uint32set.Add addrU s) as [s' ch]. cbn [fst] in HR.
    intros [= <- <-]. cbn [addrCache set_addrCache].
    rewrite lookup_insert_eq, HR. destruct s as [|z s]; [done|].
    cbn [Uint32set.IsEmpty]. f_equal. destruct st. unfold set_addrCache. cbn in *.
    f_equal. rewrite insert_insert_eq. by apply insert_id.
  - cbn [Uint32set.Add Uint32set.NewSortedUInt32Set].
    intros [= <- <-]. cbn [addrCache set_addrCache].
    rewrite lookup_insert_eq. cbn [Uint32set.Remove]. rewrite Z.eqb_refl.
    cbn [Uint32set.IsEmpty]. f_equal. destruct st. unfold set_addrCache. cbn in *.
    f_equal. rewrite delete_insert_eq. by apply delete_id.
Qed.

Lemma OnLockCreate_OnLockDelete_witness :
  OnLockDelete ownLock
    (stateAfter (OnLockCreate ownLock stateOneAddress0) stateOneAddress0)
  = Returns [("ex", "a1")%string] stateOneAddress0.
Proof.
  refine (OnLockCreate_OnLockDelete ownLock 7 167772162 stateOneAddress0 _ _ _ _ _).
  - vm_compute; reflexivity.
  - intros s H.
    change (addrCache stateOneAddress0)
      with ({[ 7 := [167772165] ]} : gmap Z (list Z)) in H.
    apply lookup_singleton_Some in H as [_ <-].
    rewrite list_elem_of_singleton. split; discriminate.
  - vm_compute; reflexivity.
Defined.
(** * The subnet validator: stale marks and conflicts caches *)

(** X22.  The mark [updateStaleRV] leaves for a subnet makes [subnetIsStale]
    answer true for the marked resource version, as often as it is asked;
    the first question with another resource version is answered false and
    removes the mark, after which the marked version is no longer stale.
    A subnet without a mark is stale exactly at the empty resource version
    (a missing map entry reads as the empty string). *)
Theorem stale_mark_consumed (s : string * string) (rv rv' : string) (v : Validator) :
  let v1 := updateStaleRV s rv v in
  subnetIsStale s rv v1 = (true, v1) /\
  (rv' <> rv ->
   exists v2, subnetIsStale s rv' v1 = (false, v2) /\
     conflicts v2 = conflicts v /\ staleRVs v2 = delete s (staleRVs v) /\
     forall rv'', fst (subnetIsStale s rv'' v2) = String.eqb ""%string rv'').
Proof.
  intros v1. split.
  - unfold subnetIsStale, v1, updateStaleRV. cbn [staleRVs].
    rewrite lookup_insert_eq. cbn [default from_option id]. by rewrite String.eqb_refl.
  - intros Hne. unfold subnetIsStale at 1, v1, updateStaleRV. cbn [staleRVs conflicts].
    rewrite lookup_insert_eq. cbn [default from_option id].
    destruct (String.eqb_spec rv rv'); [congruence|].
    eexists. split; [reflexivity|]. cbn [conflicts staleRVs].
    rewrite delete_insert_eq. split_and!; try done.
    intros rv''. unfold subnetIsStale. cbn [staleRVs]. rewrite lookup_delete_eq.
    cbn [default from_option id]. by destruct (String.eqb "" rv'').
Qed.

Lemma stale_mark_consumed_witness :
  exists v2,
    subnetIsStale ("ex", "s1")%string "8"
      (updateStaleRV ("ex", "s1")%string "7" validatorWithRival) = (false, v2) /\
    fst (subnetIsStale ("ex", "s1")%string "7" v2) = false.
Proof.
  destruct (stale_mark_consumed ("ex", "s1")%string "7" "8" validatorWithRival)
    as [_ H].
  destruct H as (v2 & H1 & _ & _ & H2); [discriminate|].
  exists v2. split; [exact H1|]. rewrite H2. reflexivity.
Defined.

(** X23.  [processDeletedSubnet] drops the stale mark and the conflicts cache
    of the subnet and queues exactly the rivals the cache held, in their
    order; the marks and caches of other subnets are not touched; and a
    second [processDeletedSubnet] for the same subnet queues nothing and
    changes nothing. *)
Theorem processDeletedSubnet_spec (s : string * string) (v : Validator) :
  let '(queued, v') := processDeletedSubnet s v in
  queued = match conflicts v !! s with Some c => rivals c | None => [] end /\
  conflicts v' = delete s (conflicts v) /\
  staleRVs v' = delete s (staleRVs v) /\
  processDeletedSubnet s v' = ([], v').
Proof.
  unfold processDeletedSubnet, clearConflictsCache, clearStaleRV. cbn [conflicts].
  destruct (conflicts v !! s) as [c|] eqn:E.
  - split_and!; try done. cbn [conflicts staleRVs]. rewrite lookup_delete_eq.
    by rewrite delete_delete_eq.
  - split_and!; try done.
    + cbn. by rewrite delete_id.
    + cbn [conflicts staleRVs]. rewrite E. by rewrite delete_delete_eq.
Qed.

Lemma cachesKeyed_insert k c v st :
  cachesKeyed v -> sm_NamespacedName (ownerSummary c) = k ->
  cachesKeyed {| conflicts := <[k := c]> (conflicts v); staleRVs := st |}.
Proof.
  intros Hv Hc. unfold cachesKeyed. cbn [conflicts].
  by apply map_Forall_insert_2.
Qed.

(** X24.  Every operation of the validator on its conflicts caches keeps each
    cache filed under the name of its owner. *)
Theorem cachesKeyed_preserved (Contains SummaryEqual : Summary -> Summary -> bool)
    (v : Validator) (s enroller enrollee : Summary) (k : string * string) :
  cachesKeyed v ->
  cachesKeyed (snd (updateConflictsCache Contains s v)) /\
  cachesKeyed (snd (recordConflict SummaryEqual enroller enrollee v)) /\
  cachesKeyed (snd (clearConflictsCache k v)) /\
  cachesKeyed (snd (processDeletedSubnet k v)).
Proof.
  intros Hv. split_and!.
  - unfold updateConflictsCache. destruct (conflicts v !! sm_NamespacedName s) as [c|].
    + destruct (_ || _); cbn [snd]; by apply cachesKeyed_insert.
    + cbn [snd]. by apply cachesKeyed_insert.
  - unfold recordConflict.
    destruct (conflicts v !! sm_NamespacedName enroller) as [c|] eqn:E; [|done].
    destruct (negb _); [done|]. cbn [snd]. apply cachesKeyed_insert; [done|].
    cbn [ownerSummary]. by apply (Hv _ _ E).
  - unfold clearConflictsCache. destruct (conflicts v !! k); [|done].
    cbn [snd]. unfold cachesKeyed. cbn [conflicts]. by apply map_Forall_delete.
  - unfold processDeletedSubnet, clearConflictsCache, clearStaleRV. cbn [conflicts].
    destruct (conflicts v !! k); [|done].
    cbn [snd]. unfold cachesKeyed. cbn [conflicts]. by apply map_Forall_delete.
Qed.

Lemma cachesKeyed_preserved_witness :
  cachesKeyed (snd (updateConflictsCache Summary_Contains summaryMoved validatorWithRival)).
Proof.
  refine (proj1 (cachesKeyed_preserved Summary_Contains Summary_Contains
                   validatorWithRival summaryMoved summaryOld summaryOld
                   ("ex", "s1")%string _)).
  refine (bool_decide_unpack _ _). vm_compute. exact I.
Defined.

(** X25.  A rival that [recordConflict] has enrolled with a subnet is handed
    back for re-validation when that subnet is deleted
    ([processDeletedSubnet]) and when its VNI changes
    ([updateConflictsCache]); [recordConflict] itself fails, changing
    nothing, when the subnet has no conflicts cache or the cache is for
    another version of the subnet. *)
Theorem recordConflict_then_requeued (Contains SummaryEqual : Summary -> Summary -> bool)
    (enroller enrollee s' : Summary) (v : Validator) :
  (forall e, fst (recordConflict SummaryEqual enroller enrollee v) = Some e ->
             snd (recordConflict SummaryEqual enroller enrollee v) = v) /\
  (fst (recordConflict SummaryEqual enroller enrollee v) = None ->
   exists c, conflicts v !! sm_NamespacedName enroller = Some c /\
     SummaryEqual enroller (ownerSummary c) = true /\
     let v' := snd (recordConflict SummaryEqual enroller enrollee v) in
     fst (processDeletedSubnet (sm_NamespacedName enroller) v')
     = rivals c ++ [sm_NamespacedName enrollee] /\
     (sm_NamespacedName s' = sm_NamespacedName enroller ->
      sm_VNI s' <> sm_VNI (ownerSummary c) ->
      fst (updateConflictsCache Contains s' v')
      = rivals c ++ [sm_NamespacedName enrollee])).
Proof.
  unfold recordConflict.
  destruct (conflicts v !! sm_NamespacedName enroller) as [c|] eqn:E; [|by split].
  destruct (SummaryEqual enroller (ownerSummary c)) eqn:EQ; cbn [negb fst snd];
    [|by split].
  split; [done|]. intros _. exists c. split_and!; try done.
  - unfold processDeletedSubnet, clearConflictsCache, clearStaleRV. cbn [conflicts].
    by rewrite lookup_insert_eq.
  - intros Hk Hvni. unfold updateConflictsCache. cbn [conflicts]. rewrite Hk.
    rewrite lookup_insert_eq. cbn [ownerSummary rivals].
    destruct (Z.eqb_spec (sm_VNI s') (sm_VNI (ownerSummary c))); [done|]. done.
Qed.

Lemma recordConflict_then_requeued_witness :
  let v' := snd (recordConflict Summary_Equal summaryOld summaryRival
                   validatorWithRival) in
  fst (processDeletedSubnet ("ex", "s1")%string v')
  = [("ex", "s2")%string; ("ex", "s3")%string] /\
  fst (updateConflictsCache Summary_Contains summaryRenumbered v')
  = [("ex", "s2")%string; ("ex", "s3")%string].
Proof.
  destruct (recordConflict_then_requeued Summary_Contains Summary_Equal summaryOld
              summaryRival summaryRenumbered validatorWithRival) as [_ H].
  destruct H as (c & Hc & _ & Hdel & Hupd); [reflexivity|].
  assert (c = {| ownerSummary := summaryOld; rivals := [("ex", "s2")%string] |}) as ->.
  { vm_compute in Hc. by injection Hc as <-. }
  split; [exact Hdel|]. apply Hupd; [reflexivity|]. vm_compute. discriminate.
Defined.
(** * The settled attachment *)

Lemma consider_considered att uid vni base last ipl b :
  considered b ⊆ considered (consider att uid vni base last ipl b).
Proof.
  unfold consider. destruct (NewParsedLock ipl) as [p|]; [|done].
  destruct (match att with Some _ => _ | None => _ end); [cbn; set_solver|].
  destruct (_ || _); cbn; set_solver.
Qed.

Lemma fold_consider_considered att uid vni base last owned : forall b,
  considered b ⊆ considered (fold_left (fun b ipl => consider att uid vni base last ipl b)
                                       owned b).
Proof.
  induction owned as [|ipl owned IH]; intros b; cbn [fold_left]; [done|].
  etrans; [apply (consider_considered att uid vni base last ipl)|apply IH].
Qed.

(** X26.  At the fixed point [processNetworkAttachment] leaves everything
    alone.  When the status of the attachment names a lock that the index
    shows (same UID, the status address is the lock's address), the lock is
    controlled by the attachment, on the subnet's VNI and inside the
    subnet's block, and the other locks indexed under the name are time
    slippers or unparsable, then [processNetworkAttachment] returns nil
    without any call on the API server and without touching the address
    cache. *)
Theorem processNetworkAttachment_settled {unicode : GoStrings.Unicode} {W : Type}
    (parseIPv6 : string -> Gonet.IP) (sgv : string) (env : Client W)
    (fuel : nat) (ns name : string) (a : NetworkAttachment) (sn : Subnet)
    (ipNet : Gonet.IPNet) (base last : Z) (before after : list IPLock)
    (l : IPLock) (p : ParsedLock) (st : State W) :
  netattLister_Get env ns name (world st) = inl a ->
  subnetLister_Get env ns (att_Subnet a) (world st) = inl sn ->
  Gonet.ParseCIDR parseIPv6 (sn_IPv4 sn) = Some ipNet ->
  IPNetToBoundsU ipNet = Some (base, last) ->
  iplIndexer_ByIndex env name (world st) = inl (before ++ l :: after) ->
  Forall (passedOver a) before -> Forall (passedOver a) after ->
  NewParsedLock l = inl p ->
  snd (GetOwner l "NetworkAttachment") = att_UID a ->
  pl_VNI p = sn_VNI sn -> base <= pl_addrU p <= last ->
  pl_UID p = att_LockUID a ->
  att_IPv4 a <> ""%string ->
  att_IPv4 a = Gonet.IPString (GetIP p) ->
  IPv4ToUint32 (Gonet.ParseIP parseIPv6 (att_IPv4 a)) = Some (pl_addrU p) ->
  exists st',
    processNetworkAttachment parseIPv6 sgv env fuel ns name st = Returns None st' /\
    world st' = world st /\ calls st' = calls st /\ addrCache st' = addrCache st /\
    forall k, k <> (ns, name) -> atts st' !! k = atts st !! k.
Proof.
  intros Hatt Hsub Hcidr Hb Hidx Hbefore Hafter HP Hown Hvni Hrange Huid Hne Hip Hu.
  unfold processNetworkAttachment, bind at 1, netattLister, gets. rewrite Hatt.
  unfold reconcile, bind at 1.
  assert (exists st1 d, getNetworkAttachmentData ns name true st
                        = Returns (Some (ns, name)) st1 /\
            world st1 = world st /\ calls st1 = calls st /\
            addrCache st1 = addrCache st /\ atts st1 !! (ns, name) = Some d /\
            forall k, k <> (ns, name) -> atts st1 !! k = atts st !! k)
    as (st1 & d & -> & W1 & L1 & C1 & A1 & O1).
  { unfold getNetworkAttachmentData. destruct (atts st !! (ns, name)) as [d|] eqn:E.
    - by exists st, d.
    - eexists _, _. split; [reflexivity|]. cbn. rewrite lookup_insert_eq.
      split_and!; try done. intros k Hk. by rewrite lookup_insert_ne. }
  unfold bind at 1, analyzeAndRelease, bind at 1, subnetLister, gets.
  rewrite W1, Hsub, Hcidr, Hb.
  unfold analyzeLocks, bind at 1, ByIndex, gets. rewrite W1, Hidx.
  cbv beta iota zeta. rewrite fold_left_app. cbn [fold_left].
  set (b1 := fold_left _ before emptyBins).
  set (b2 := consider _ _ _ _ _ l b1).
  set (b := fold_left _ after b2).
  assert (usableLocks b1 = [] /\ undesiredLocks b1 = [] /\
          lockInStatus b1 = zeroParsedLock) as (Hu1 & Hun1 & Hl1)
    by exact (fold_consider_passedOver a (sn_VNI sn) base last before emptyBins Hbefore).
  assert (usableLocks b2 = [p] /\ undesiredLocks b2 = [] /\
          lockInStatus b2 = p /\ pl_addrU p ∈ considered b2)
    as (Hu2 & Hun2 & Hl2 & Hc2).
  { unfold b2, consider. rewrite HP, Hown, String.eqb_refl. cbn [negb].
    rewrite Hvni, Z.eqb_refl. cbn [negb orb].
    destruct (Z.ltb_spec (pl_addrU p) base); [lia|].
    destruct (Z.gtb_spec (pl_addrU p) last); [lia|]. cbn [orb].
    cbn [usableLocks undesiredLocks lockInStatus considered].
    rewrite Huid, String.eqb_refl, <- Hip, String.eqb_refl.
    destruct (String.eqb_spec (att_IPv4 a) ""); [done|]. cbn [negb andb].
    rewrite Hu1, Hun1. split_and!; try done. set_solver. }
  assert (usableLocks b = usableLocks b2 /\ undesiredLocks b = undesiredLocks b2 /\
          lockInStatus b = lockInStatus b2) as (Hu3 & Hun3 & Hl3)
    by exact (fold_consider_passedOver a (sn_VNI sn) base last after b2 Hafter).
  assert (considered b2 ⊆ considered b) as Hc3
    by exact (fold_consider_considered (Some a) (att_LockUID a) (sn_VNI sn) base last
                after b2).
  unfold bind at 1, considerStatusLock.
  destruct (String.eqb_spec (att_IPv4 a) ""); [done|].
  assert (nonNil (Gonet.ParseIP parseIPv6 (att_IPv4 a)) = true) as ->.
  { destruct (Gonet.ParseIP parseIPv6 (att_IPv4 a)); [done|done]. }
  cbn [negb]. rewrite Hu. rewrite bool_decide_eq_true_2 by set_solver.
  unfold ret at 1. unfold bind at 1.
  rewrite (invalidateAnticipation_inv (Some a) (ns, name) _ d st1 A1).
  unfold chooseLocks. rewrite Hl3, Hl2, Hu3, Hu2, Hun3, Hun2.
  assert (hasObj p = true) as ->.
  { unfold hasObj. by rewrite (NewParsedLock_Obj _ _ HP). }
  cbn [RemFunc]. rewrite Equal_refl.
  cbn [fst AddListFunc fold_left]. unfold bind at 1. cbn [releaseLocks].
  unfold ret. cbn [an_err an_ok negb orb an_lockInStatus].
  assert (hasObj p = true) as ->.
  { unfold hasObj. by rewrite (NewParsedLock_Obj _ _ HP). }
  eexists. split; [reflexivity|].
  destruct (anticipationInvalid _ _ _); cbn [world calls addrCache atts set_atts];
    split_and!; try done.
  intros k Hk. rewrite lookup_insert_ne by done. by apply O1.
Qed.

Lemma processNetworkAttachment_settled_witness :
  exists st',
    processNetworkAttachment noIPv6 groupVersion clusterClient 1 "ex" "a1"
      (stateOn clusterSettled) = Returns None st' /\
    world st' = clusterSettled /\ calls st' = [].
Proof.
  destruct (processNetworkAttachment_settled noIPv6 groupVersion clusterClient 1
              "ex" "a1" attSettled subnetS1
              {| Gonet.net_IP := [10; 0; 0; 0];
                 Gonet.net_Mask := {| Gonet.ones := 24; Gonet.bits := 32 |} |}
              167772160 167772415 [slipperLock] [] ownLock (parsedOf ownLock)
              (stateOn clusterSettled))
    as (st' & Hrun & Hw & Hc & _).
  - vm_compute; reflexivity.
  - vm_compute; reflexivity.
  - vm_compute; reflexivity.
  - vm_compute; reflexivity.
  - vm_compute; reflexivity.
  - constructor; [|constructor]. right. vm_compute. discriminate.
  - constructor.
  - vm_compute; reflexivity.
  - vm_compute; reflexivity.
  - vm_compute; reflexivity.
  - vm_compute. split; discriminate.
  - reflexivity.
  - discriminate.
  - vm_compute; reflexivity.
  - vm_compute; reflexivity.
  - exists st'. split; [exact Hrun|]. split; [exact Hw|exact Hc].
Defined.

(** * Running out of addresses *)

Lemma firstFreeFrom_least s : forall cur y,
  cur <= y < Uint32set.firstFreeFrom cur s -> y ∈ s.
Proof.
  induction s as [|z s IH]; intros cur y; cbn [Uint32set.firstFreeFrom]; [lia|].
  destruct (Z.ltb_spec z cur).
  - intros H'. apply elem_of_cons. right. by apply (IH cur).
  - destruct (Z.eqb_spec z cur) as [->|Hne]; [|lia].
    intros Hy. apply elem_of_cons.
    destruct (decide (y = cur)) as [->|Hne]; [by left|].
    right. apply (IH (cur + 1)). lia.
Qed.

Lemma lockLoop_errors {unicode : GoStrings.Unicode}
    {W : Type} (env : Client W) fuel : forall ns name att vni ipU ip
    lockName lockForStatus ipl (st : State W) l ip' e st',
  lockLoop env fuel ns name att vni ipU ip lockName lockForStatus ipl st
  = Returns (l, ip', Some e) st' ->
  e <> Errorf "No IP address available".
Proof.
  induction fuel as [|fuel IH]; intros ns name att vni ipU ip lockName lockForStatus
    ipl st l ip' e st'; [done|].
  cbn [lockLoop]. unfold bind at 1, lockCreate.
  destruct (IPLocks_Create _ _ _ _) as [[ipl2|err] w].
  - unfold ret. intros [= _ _ _ _]. 
  - destruct (IsAlreadyExists err).
    + unfold bind at 1, lockGet.
      destruct (IPLocks_Get _ _ _ _) as [[ipl2|err2] w2].
      * destruct (GetOwner ipl2 "NetworkAttachment") as [on ou].
        destruct (_ && _); unfold ret; intros [= _ _ <- _]; done.
      * destruct (IsNotFound err2); [apply IH|].
        unfold ret. intros [= _ _ <- _]. done.
    + unfold bind at 1.
      destruct (ReleaseAddress vni ipU _) as [ok st1| |]; try done.
      destruct (_ || _); unfold ret; [intros [= _ _ _ _]|intros [= _ _ <- _]; done].
Qed.

Lemma pickAndLockAddress_unfold {unicode : GoStrings.Unicode}
    {W : Type} (sgv : string) (env : Client W)
    fuel ns name a subnetName vni base last s (st : State W) :
  addrCache st !! vni = Some s ->
  pickAndLockAddress sgv env fuel ns name a subnetName vni base last st
  = let mn := fst (pickRange base last) in
    let mx := snd (pickRange base last) in
    let x := Uint32set.firstFreeFrom mn s in
    if (mn <=? x) && (x <=? mx)
    then match makeIPLockName2 vni (Uint32ToIPv4 x) with
         | None => Panics
         | Some lockName =>
             lockLoop env fuel ns name a vni x (Uint32ToIPv4 x) lockName
               (pendingLock ns lockName vni x)
               (lockObject sgv ns name a subnetName lockName)
               (set_addrCache (fun c => <[vni := fst (Uint32set.Add x s)]> c) st)
         end
    else Returns (zeroParsedLock, [], Some (Errorf "No IP address available"))
           (set_addrCache (fun c => <[vni := s]> c) st).
Proof.
  intros E. unfold pickAndLockAddress. destruct (pickRange base last) as [mn mx].
  cbn [fst snd]. unfold bind at 1, PickAddress, Uint32set.AddOneInRange. rewrite E.
  cbv zeta. destruct (_ && _); cbn [negb]; [|done].
  by destruct (makeIPLockName2 _ _).
Qed.

(** X27.  [pickAndLockAddress] reports that no address is available when, and
    only when, every address of the range it picks from is in the address
    cache of the VNI (the set of the VNI being strictly increasing); it
    then makes no call on the API server and changes nothing. *)
Theorem pickAndLockAddress_exhausted {unicode : GoStrings.Unicode}
    {W : Type} (sgv : string) (env : Client W)
    (fuel : nat) (ns name : string) (a : NetworkAttachment) (subnetName : string)
    (vni base last : Z) (s : list Z) (st : State W) :
  addrCache st !! vni = Some s -> increasing s ->
  ((forall y, fst (pickRange base last) <= y <= snd (pickRange base last) -> y ∈ s) ->
   pickAndLockAddress sgv env fuel ns name a subnetName vni base last st
   = Returns (zeroParsedLock, [], Some (Errorf "No IP address available")) st) /\
  (forall lfs ip st',
     pickAndLockAddress sgv env fuel ns name a subnetName vni base last st
     = Returns (lfs, ip, Some (Errorf "No IP address available")) st' ->
     forall y, fst (pickRange base last) <= y <= snd (pickRange base last) -> y ∈ s).
Proof.
  intros E Hs. rewrite (pickAndLockAddress_unfold sgv env _ _ _ _ _ _ _ _ s st E).
  cbv zeta. set (mn := fst (pickRange base last)). set (mx := snd (pickRange base last)).
  destruct (firstFreeFrom_fresh s mn Hs) as [Hge Hfresh].
  pose proof (firstFreeFrom_least s mn) as Hleast.
  destruct (Z.leb_spec mn (Uint32set.firstFreeFrom mn s)); [|lia].
  destruct (Z.leb_spec (Uint32set.firstFreeFrom mn s) mx); cbn [andb].
  - split.
    + intros Hall. exfalso. apply Hfresh, Hall. lia.
    + intros lfs ip st'. destruct (makeIPLockName2 _ _); [|done].
      intros Hrun. by apply lockLoop_errors in Hrun.
  - split; [|intros _ _ _ _ y Hy; apply Hleast; lia].
    intros _. f_equal. destruct st. unfold set_addrCache. cbn in *.
    f_equal. by apply insert_id.
Qed.

Lemma pickAndLockAddress_exhausted_witness :
  pickAndLockAddress groupVersion clusterClient 1 "ex" "a1" attA1 "s1" 7
    167772160 167772163 stateFull
  = Returns (zeroParsedLock, [], Some (Errorf "No IP address available")) stateFull.
Proof.
  refine (proj1 (pickAndLockAddress_exhausted groupVersion clusterClient 1 "ex" "a1"
                   attA1 "s1" 7 167772160 167772163
                   [167772160; 167772161; 167772162; 167772163] stateFull _ _) _).
  - reflexivity.
  - cbn. repeat (split; [repeat constructor; lia|]). done.
  - intros y. change (fst (pickRange 167772160 167772163)) with 167772160.
    change (snd (pickRange 167772160 167772163)) with 167772163.
    intros Hy. rewrite !elem_of_cons. lia.
Defined.

(** * The oldest lock is the best *)

(** X28.  When no creation time in the list carries a monotonic clock
    reading, [Best] returns a lock that no lock of the list precedes in
    creation time (an oldest lock, not the newest), and among the locks
    whose creation time is identical to its own, one whose UID is the
    greatest in the order of [strings.Compare]. *)
Theorem Best_oldest (l : ParsedLockList) (y : ParsedLock) :
  Forall wallClock l -> y ∈ l ->
  GoTime.Before (pl_CreationTime y) (pl_CreationTime (Best l)) = false /\
  (pl_CreationTime y = pl_CreationTime (Best l) ->
   GoStrings.Compare (pl_UID y) (pl_UID (Best l)) <= 0).
Proof.
  intros Hw Hy. pose proof (Best_no_better l y Hw Hy) as H.
  unfold IsBetterThan in H. case_bool_decide as N.
  - split; [done|]. intros E. by rewrite E in N.
  - split; [by rewrite N, Before_irrefl|].
    intros _. rewrite Z.gtb_ltb in H. by apply Z.ltb_ge in H.
Qed.

Lemma Best_oldest_witness :
  GoTime.Before (pl_CreationTime lockC) (pl_CreationTime (Best [lockA; lockB; lockC]))
  = false /\
  (pl_CreationTime lockA = pl_CreationTime (Best [lockA; lockB; lockC]) ->
   GoStrings.Compare (pl_UID lockA) (pl_UID (Best [lockA; lockB; lockC])) <= 0).
Proof.
  split.
  - apply (Best_oldest [lockA; lockB; lockC] lockC); [repeat constructor|set_solver].
  - apply (Best_oldest [lockA; lockB; lockC] lockA); [repeat constructor|set_solver].
Defined.

(** * The address cache stays well formed *)

Lemma Remove_increasing x s :
  increasing s -> increasing (fst (Uint32set.Remove x s)) /\
  fst (Uint32set.Remove x s) ⊆ s.
Proof.
  induction s as [|z s IH]; intros Hs; cbn [Uint32set.Remove]; [done|].
  destruct Hs as [Hz Hs]. destruct (Z.eqb_spec x z).
  - cbn [fst]. split; [done|set_solver].
  - destruct (IH Hs) as [Hi Hsub]. destruct (Uint32set.Remove x s) as [s' ch].
    cbn [fst increasing] in *. split; [|set_solver]. split; [|done].
    rewrite list.Forall_forall in *. intros y Hy. apply Hz. set_solver.
Qed.

Lemma cacheWellFormed_insert {W : Type} vni s (st : State W) :
  cacheWellFormed st -> increasing s ->
  cacheWellFormed (set_addrCache (fun c => <[vni := s]> c) st).
Proof.
  intros Hwf Hs. unfold cacheWellFormed. cbn [addrCache set_addrCache].
  by apply map_Forall_insert_2.
Qed.

Lemma cached_increasing {W : Type} vni (st : State W) :
  cacheWellFormed st ->
  increasing (match addrCache st !! vni with
              | Some addrs => addrs
              | None => Uint32set.NewSortedUInt32Set
              end).
Proof.
  intros Hwf. destruct (addrCache st !! vni) as [s|] eqn:E; [|done].
  exact (Hwf vni s E).
Qed.

Lemma TakeAddress_wf {W : Type} vni x (st : State W) r st' :
  cacheWellFormed st -> TakeAddress vni x st = Returns r st' -> cacheWellFormed st'.
Proof.
  intros Hwf. unfold TakeAddress.
  pose proof (Add_increasing x _ (cached_increasing vni st Hwf)) as [Hi _].
  destruct (Uint32set.Add x _) as [s' ch]. intros [= _ <-].
  by apply cacheWellFormed_insert.
Qed.

Lemma ReleaseAddress_wf {W : Type} vni x (st : State W) r st' :
  cacheWellFormed st -> ReleaseAddress vni x st = Returns r st' -> cacheWellFormed st'.
Proof.
  intros Hwf. unfold ReleaseAddress.
  destruct (addrCache st !! vni) as [s|] eqn:E; [|by intros [= _ <-]].
  pose proof (Remove_increasing x s (Hwf vni s E)) as [Hi _].
  destruct (Uint32set.Remove x s) as [s' ch]. intros [= _ <-].
  destruct (Uint32set.IsEmpty s'); [|by apply cacheWellFormed_insert].
  unfold cacheWellFormed. cbn [addrCache set_addrCache]. by apply map_Forall_delete.
Qed.

(** X29.  The operations on the address cache keep every address set strictly
    increasing (the form the sets are modelled in): [TakeAddress],
    [PickAddress], [ReleaseAddress] and the lock notifications. *)
Theorem cacheWellFormed_preserved {W : Type} (vni lo hi x : Z) (ipl : IPLock)
    (exists_ : bool) (st : State W) :
  cacheWellFormed st ->
  (forall r st', TakeAddress vni x st = Returns r st' -> cacheWellFormed st') /\
  (forall r st', PickAddress vni lo hi st = Returns r st' -> cacheWellFormed st') /\
  (forall r st', ReleaseAddress vni x st = Returns r st' -> cacheWellFormed st') /\
  (forall q st', OnLockNotify ipl exists_ st = Returns q st' -> cacheWellFormed st').
Proof.
  intros Hwf. split_and!.
  - intros r st'. by apply TakeAddress_wf.
  - intros r st'. unfold PickAddress, Uint32set.AddOneInRange.
    pose proof (cached_increasing vni st Hwf) as Hs.
    set (s := match addrCache st !! vni with
              | Some addrs => addrs | None => Uint32set.NewSortedUInt32Set end) in *.
    destruct (_ && _); intros [= _ <-]; apply cacheWellFormed_insert; try done.
    by apply Add_increasing.
  - intros r st'. by apply ReleaseAddress_wf.
  - intros q st'. unfold OnLockNotify.
    destruct (parseIPLockName _) as [[v a]|e]; [|by intros [= _ <-]].
    unfold bind. destruct exists_.
    + destruct (TakeAddress v a st) as [r st1| |] eqn:E; try done.
      intros [= _ <-]. by eapply TakeAddress_wf.
    + destruct (ReleaseAddress v a st) as [r st1| |] eqn:E; try done.
      intros [= _ <-]. by eapply ReleaseAddress_wf.
Qed.

Lemma cacheWellFormed_preserved_witness :
  cacheWellFormed
    (stateAfter (OnLockNotify ownLock true stateOneAddress0) stateOneAddress0).
Proof.
  destruct (cacheWellFormed_preserved 7 0 0 0 ownLock true stateOneAddress0)
    as (_ & _ & _ & H).
  - intros k s Hk.
    change (addrCache stateOneAddress0)
      with ({[ 7 := [167772165] ]} : gmap Z (list Z)) in Hk.
    apply lookup_singleton_Some in Hk as [_ <-]. cbn. split; [constructor|done].
  - apply (H [("ex", "a1")%string]). vm_compute; reflexivity.
Defined.
